(** * Cluster agent deployment controller (package clusterdeploy)

    A shallow embedding of the reconciliation code that keeps the in-cluster
    agent workload up to date: the redeploy decision, the two process-wide
    caches, the bounded apply loop with its companion-resource cleanup, and
    the per-cluster entry point.

    Go values are modelled as follows.
    - [string] is a byte string; Go's zero value is the empty string.
    - A Go map is [gomap V]: [None] is the nil map, [Some m] a map with the
      entries of [m].  Reading a nil map yields the zero value, ranging over
      it yields nothing, writing to it panics.
    - A Go slice is [slice A]: [None] is the nil slice.  [len] and [range]
      do not tell nil from empty; [reflect.DeepEqual] does.
    - A pointer that is only ever tested against nil and dereferenced is an
      [option].
    - An [error] result is [option error], [None] being nil. *)

From stdpp Require Import base option list strings gmap fin_maps.
From Stdlib Require Import ZArith.

Local Open Scope string_scope.

(** ** Go maps and slices *)

Definition gomap (V : Type) : Type := option (gmap string V).
Definition slice (A : Type) : Type := option (list A).

(** [m[k]]: the zero value when the key (or the map) is missing. *)
Definition go_index {V} (zero : V) (m : gomap V) (k : string) : V :=
  match m with
  | Some g => default zero (g !! k)
  | None => zero
  end.

(** [_, ok := m[k]]. *)
Definition go_has {V} (m : gomap V) (k : string) : bool :=
  match m with
  | Some g => bool_decide (is_Some (g !! k))
  | None => false
  end.

(** The entries visited by [for k, v := range m], in one possible order. *)
Definition go_range {V} (m : gomap V) : list (string * V) :=
  match m with
  | Some g => map_to_list g
  | None => []
  end.

(** The elements visited by [for _, x := range s]. *)
Definition elems {A} (s : slice A) : list A := default [] s.

(** ** Strings *)

(** [strings.HasPrefix(s, p)]. *)
Definition strings_HasPrefix (s p : string) : bool := String.prefix p s.

(** [strings.Contains(s, substr)]. *)
Fixpoint strings_Contains (s substr : string) : bool :=
  String.prefix substr s ||
  match s with
  | EmptyString => false
  | String _ s' => strings_Contains s' substr
  end.

(** ** Feature flags *)

(** One [for k, v := range entries { if other[k] != v { return true } }]
    loop of [agentFeaturesChanged], over the entries in the order given. *)
Fixpoint range_mismatch (entries : list (string * bool)) (other : gomap bool) : bool :=
  match entries with
  | [] => false
  | (k, v) :: rest =>
      if negb (eqb (go_index false other k) v) then true
      else range_mismatch rest other
  end.

(** [agentFeaturesChanged] treats a missing key as false. *)
Definition agentFeaturesChanged (desired actual : gomap bool) : bool :=
  if range_mismatch (go_range desired) actual then true
  else if range_mismatch (go_range actual) desired then true
  else false.

(** ** Kubernetes and management API objects

    The type declarations live in the API packages; the records below carry
    the fields this controller reads or writes. *)

Record Taint := {
  Taint_Key : string;
  Taint_Value : string;
  Taint_Effect : string;
}.

Record EnvVar := {
  EnvVar_Name : string;
  EnvVar_Value : string;
}.

Record PrivateRegistry := {
  Registry_URL : string;
  Registry_User : string;
  Registry_Password : string;
  Registry_IsDefault : bool;
}.

Record RancherKubernetesEngineConfig := {
  PrivateRegistries : slice PrivateRegistry;
  Authentication_Strategy : string;
  Network_Plugin : string;
}.

Record ClusterSpec := {
  Internal : bool;
  LocalClusterAuthEndpoint_Enabled : bool;
  RKEConfig : option RancherKubernetesEngineConfig;
  AgentImageOverride : string;
  DesiredAgentImage : string;
  DesiredAuthImage : string;
  AgentEnvVars : slice EnvVar;
  EnableNetworkPolicy : option bool;
  WindowsPreferedCluster : bool;
}.

Record ClusterCondition := {
  Cond_Type : string;
  Cond_Status : string;
  Cond_Message : string;
}.

Record ClusterStatus := {
  Driver : string;
  AgentImage : string;
  AuthImage : string;
  AgentFeatures : gomap bool;
  AppliedSpec : ClusterSpec;
  AppliedAgentEnvVars : slice EnvVar;
  Conditions : list ClusterCondition;
}.

Record Cluster := {
  Name : string;
  DeletionTimestamp : option Z;
  Annotations : gomap string;
  Spec : ClusterSpec;
  Status : ClusterStatus;
}.

Record Node := {
  NodeName : string;
  NodeLabels : gomap string;
  NodeTaints : slice Taint;
}.

Record Container := {
  Container_Name : string;
  Container_Image : string;
}.

Record KubeConfig := {
  kube_cluster : string;
  kube_token : string;
}.

#[global] Instance Taint_eq_dec : EqDecision Taint.
Proof. solve_decision. Defined.
#[global] Instance EnvVar_eq_dec : EqDecision EnvVar.
Proof. solve_decision. Defined.
#[global] Instance PrivateRegistry_eq_dec : EqDecision PrivateRegistry.
Proof. solve_decision. Defined.
#[global] Instance RancherKubernetesEngineConfig_eq_dec :
  EqDecision RancherKubernetesEngineConfig.
Proof. solve_decision. Defined.
#[global] Instance ClusterSpec_eq_dec : EqDecision ClusterSpec.
Proof. solve_decision. Defined.
#[global] Instance ClusterCondition_eq_dec : EqDecision ClusterCondition.
Proof. solve_decision. Defined.
#[global] Instance ClusterStatus_eq_dec : EqDecision ClusterStatus.
Proof. solve_decision. Defined.
#[global] Instance Cluster_eq_dec : EqDecision Cluster.
Proof. solve_decision. Defined.

(** [reflect.DeepEqual] on values of one of the types above is structural
    equality: a nil map or slice equals only nil. *)
Definition reflect_DeepEqual {A} `{EqDecision A} (x y : A) : bool :=
  bool_decide (x = y).

(** Field updates through the working copy's pointer. *)
Definition set_Spec (f : ClusterSpec → ClusterSpec) (c : Cluster) : Cluster :=
  {| Name := Name c; DeletionTimestamp := DeletionTimestamp c;
     Annotations := Annotations c; Spec := f (Spec c); Status := Status c |}.

Definition set_Status (f : ClusterStatus → ClusterStatus) (c : Cluster) : Cluster :=
  {| Name := Name c; DeletionTimestamp := DeletionTimestamp c;
     Annotations := Annotations c; Spec := Spec c; Status := f (Status c) |}.

Definition set_Annotations (a : gomap string) (c : Cluster) : Cluster :=
  {| Name := Name c; DeletionTimestamp := DeletionTimestamp c;
     Annotations := a; Spec := Spec c; Status := Status c |}.

Definition set_RKEConfig (r : option RancherKubernetesEngineConfig)
    (s : ClusterSpec) : ClusterSpec :=
  {| Internal := Internal s;
     LocalClusterAuthEndpoint_Enabled := LocalClusterAuthEndpoint_Enabled s;
     RKEConfig := r; AgentImageOverride := AgentImageOverride s;
     DesiredAgentImage := DesiredAgentImage s;
     DesiredAuthImage := DesiredAuthImage s; AgentEnvVars := AgentEnvVars s;
     EnableNetworkPolicy := EnableNetworkPolicy s;
     WindowsPreferedCluster := WindowsPreferedCluster s |}.

Definition set_Strategy (v : string)
    (r : RancherKubernetesEngineConfig) : RancherKubernetesEngineConfig :=
  {| PrivateRegistries := PrivateRegistries r; Authentication_Strategy := v;
     Network_Plugin := Network_Plugin r |}.

Definition set_DesiredAgentImage (v : string) (s : ClusterSpec) : ClusterSpec :=
  {| Internal := Internal s;
     LocalClusterAuthEndpoint_Enabled := LocalClusterAuthEndpoint_Enabled s;
     RKEConfig := RKEConfig s; AgentImageOverride := AgentImageOverride s;
     DesiredAgentImage := v;
     DesiredAuthImage := DesiredAuthImage s; AgentEnvVars := AgentEnvVars s;
     EnableNetworkPolicy := EnableNetworkPolicy s;
     WindowsPreferedCluster := WindowsPreferedCluster s |}.

Definition set_DesiredAuthImage (v : string) (s : ClusterSpec) : ClusterSpec :=
  {| Internal := Internal s;
     LocalClusterAuthEndpoint_Enabled := LocalClusterAuthEndpoint_Enabled s;
     RKEConfig := RKEConfig s; AgentImageOverride := AgentImageOverride s;
     DesiredAgentImage := DesiredAgentImage s;
     DesiredAuthImage := v; AgentEnvVars := AgentEnvVars s;
     EnableNetworkPolicy := EnableNetworkPolicy s;
     WindowsPreferedCluster := WindowsPreferedCluster s |}.

Definition set_EnableNetworkPolicy (v : option bool) (s : ClusterSpec) : ClusterSpec :=
  {| Internal := Internal s;
     LocalClusterAuthEndpoint_Enabled := LocalClusterAuthEndpoint_Enabled s;
     RKEConfig := RKEConfig s; AgentImageOverride := AgentImageOverride s;
     DesiredAgentImage := DesiredAgentImage s;
     DesiredAuthImage := DesiredAuthImage s; AgentEnvVars := AgentEnvVars s;
     EnableNetworkPolicy := v;
     WindowsPreferedCluster := WindowsPreferedCluster s |}.

Definition set_AgentImage (v : string) (s : ClusterStatus) : ClusterStatus :=
  {| Driver := Driver s; AgentImage := v; AuthImage := AuthImage s;
     AgentFeatures := AgentFeatures s; AppliedSpec := AppliedSpec s;
     AppliedAgentEnvVars := AppliedAgentEnvVars s; Conditions := Conditions s |}.

Definition set_AuthImage (v : string) (s : ClusterStatus) : ClusterStatus :=
  {| Driver := Driver s; AgentImage := AgentImage s; AuthImage := v;
     AgentFeatures := AgentFeatures s; AppliedSpec := AppliedSpec s;
     AppliedAgentEnvVars := AppliedAgentEnvVars s; Conditions := Conditions s |}.

Definition set_AgentFeatures (v : gomap bool) (s : ClusterStatus) : ClusterStatus :=
  {| Driver := Driver s; AgentImage := AgentImage s; AuthImage := AuthImage s;
     AgentFeatures := v; AppliedSpec := AppliedSpec s;
     AppliedAgentEnvVars := AppliedAgentEnvVars s; Conditions := Conditions s |}.

Definition set_AppliedAgentEnvVars (v : slice EnvVar) (s : ClusterStatus) : ClusterStatus :=
  {| Driver := Driver s; AgentImage := AgentImage s; AuthImage := AuthImage s;
     AgentFeatures := AgentFeatures s; AppliedSpec := AppliedSpec s;
     AppliedAgentEnvVars := v; Conditions := Conditions s |}.

Definition set_Conditions (v : list ClusterCondition) (s : ClusterStatus) : ClusterStatus :=
  {| Driver := Driver s; AgentImage := AgentImage s; AuthImage := AuthImage s;
     AgentFeatures := AgentFeatures s; AppliedSpec := AppliedSpec s;
     AppliedAgentEnvVars := AppliedAgentEnvVars s; Conditions := v |}.

(** ** Errors *)

(** Go errors as built by this package.  [MultiErrors] is what
    [types.NewErrors] returns for two non-nil errors, [WithMessage] what
    [errors.WithMessage] returns; errors of the collaborators are [New]
    values or [NotFound] (the API status error that
    [apierrors.IsNotFound] recognises). *)
Inductive error :=
  | New (text : string)
  | NotFound (text : string)
  | MultiErrors (first second : error)
  | WithMessage (cause : error) (message : string).

Definition errors_New (text : string) : error := New text.
Definition types_NewErrors (e1 e2 : error) : error := MultiErrors e1 e2.
Definition errors_WithMessage (e : error) (message : string) : error :=
  WithMessage e message.

Definition apierrors_IsNotFound (e : error) : bool :=
  match e with
  | NotFound _ => true
  | _ => false
  end.

(** [err.Error()]. *)
Fixpoint error_Error (e : error) : string :=
  match e with
  | New text => text
  | NotFound text => text
  | MultiErrors e1 e2 => error_Error e1 ++ ", " ++ error_Error e2
  | WithMessage cause message => message ++ ": " ++ error_Error cause
  end.

(** [e] carries [part] somewhere inside it. *)
Fixpoint error_contains (part e : error) : Prop :=
  part = e ∨
  match e with
  | MultiErrors e1 e2 => error_contains part e1 ∨ error_contains part e2
  | WithMessage cause _ => error_contains part cause
  | _ => False
  end.

(** ** Constants

    The driver and condition names are declared in the API package. *)

Definition AgentForceDeployAnn : string := "io.cattle.agent.force.deploy".
Definition ClusterDriverRKE : string := "rancherKubernetesEngine".
Definition ClusterConditionProvisioned : string := "Provisioned".
Definition ClusterConditionSystemAccountCreated : string := "SystemAccountCreated".
Definition ClusterConditionAgentDeployed : string := "AgentDeployed".

Definition controlPlaneLabels : list (string * string) :=
  [ ("node-role.kubernetes.io/master", "true");
    ("node-role.kubernetes.io/controlplane", "true");
    ("node-role.kubernetes.io/control-plane", "true") ].

(** The two manifests of [systemtemplate] that get deleted. *)
Inductive DaemonSetManifest := AuthDaemonSet | NodeAgentDaemonSet.

(** ** Effects

    What the controller does to the outside world is recorded, in order, in a
    trace.  Of the log statements, those announcing that a function was
    called are recorded. *)
Inductive Event :=
  | EvTracef (message : string)
  | EvRemoveSystemAccount (key : string)
  | EvCreateSystemAccount (name : string)
  | EvListNodes (name : string)
  | EvGetSystemUser (name : string)
  | EvEnsureToken (tokenName user : string)
  | EvGetOrCreateSystemClusterToken (name : string)
  | EvEnqueueAfter (name : string) (seconds : Z)
  | EvSystemTemplate (agentImage authImage name : string)
  | EvApply (yaml : string) (kubeConfig : KubeConfig)
  | EvSleep (seconds : Z)
  | EvDelete (manifest : DaemonSetManifest) (kubeConfig : KubeConfig)
  | EvUserContext (name : string)
  | EvGetDaemonSet (name : string)
  | EvGetDeployment (name : string)
  | EvUpdate (cluster : Cluster).

(** The process-wide state: both caches, and the trace so far.
    [agentImages] holds one map per image kind. *)
Record World := {
  agentImages_nodeImage : gmap string string;
  agentImages_clusterImage : gmap string string;
  controlPlaneTaints : gmap string (slice Taint);
  trace : list Event;
}.

(** The collaborators.  Code of other packages ([util.GetPrivateRepo],
    [taints.GetToDiffTaints], [image.ResolveWithCluster] over a setting,
    the settings, the template renderer) is a function of its arguments; a
    remote call may also answer by the trace so far, so that the same call
    can fail first and succeed later. *)
Record Env := {
  GetPrivateRepo : Cluster → option PrivateRegistry;
  GetToDiffTaints : slice Taint → slice Taint → list Taint * list Taint;
  ResolveAgentImage : Cluster → string;
  ResolveAuthImage : Cluster → string;
  ServerURL : string;
  SystemTemplate :
    string → string → string → string → string → bool → Cluster →
    gomap bool → slice Taint → string * option error;
  ClusterManager_KubeConfig : string → string → KubeConfig;
  RemoveSystemAccount : list Event → string → option error;
  CreateSystemAccount : list Event → Cluster → option error;
  nodeLister_List : list Event → string → list Node * option error;
  GetSystemUser : list Event → string → string * option error;
  EnsureToken : list Event → string → string → string * option error;
  GetOrCreateSystemClusterToken : list Event → string → string * option error;
  kubectl_Apply : list Event → string → KubeConfig → string * option error;
  kubectl_Delete :
    list Event → DaemonSetManifest → KubeConfig → string * option error;
  UserContext : list Event → string → option error;
  DaemonSets_Get : list Event → string → list Container * option error;
  Deployments_Get : list Event → string → list Container * option error;
  clusters_Update : list Event → Cluster → option error;
}.

(** A computation either panics or returns a value and the new state. *)
Inductive Outcome (A : Type) :=
  | Panic
  | Ret (a : A) (w : World).
Arguments Panic {A}.
Arguments Ret {A} a w.

Definition M (A : Type) : Type := World → Outcome A.

#[global] Instance M_ret : MRet M := λ A a w, Ret a w.
#[global] Instance M_bind : MBind M := λ A B f m w,
  match m w with
  | Panic => Panic
  | Ret a w' => f a w'
  end.

Definition panic {A} : M A := λ _, Panic.

Definition record (e : Event) (w : World) : World :=
  {| agentImages_nodeImage := agentImages_nodeImage w;
     agentImages_clusterImage := agentImages_clusterImage w;
     controlPlaneTaints := controlPlaneTaints w;
     trace := trace w ++ [e] |}.

(** A call to a collaborator: its answer is taken on the trace before the
    call, and the call is recorded. *)
Definition call {A} (e : Event) (answer : list Event → A) : M A :=
  λ w, Ret (answer (trace w)) (record e w).

Definition logrus_Tracef (message : string) : M unit :=
  call (EvTracef message) (λ _, ()).

Definition time_Sleep (seconds : Z) : M unit :=
  call (EvSleep seconds) (λ _, ()).

(** ** Conditions

    The condition helper comes with the controller framework and is not part
    of src/; the controller uses its [IsTrue], [Message], [Do] and
    [DoUntilTrue].  The conditions of a cluster are kept, as in its status,
    as a list of entries found by their type. *)

Definition cond_new (name : string) : ClusterCondition :=
  {| Cond_Type := name; Cond_Status := EmptyString; Cond_Message := EmptyString |}.

Fixpoint cond_find (name : string) (conds : list ClusterCondition)
    : option ClusterCondition :=
  match conds with
  | [] => None
  | c :: rest =>
      if bool_decide (Cond_Type c = name) then Some c else cond_find name rest
  end.

Fixpoint cond_update (name : string) (f : ClusterCondition → ClusterCondition)
    (conds : list ClusterCondition) : list ClusterCondition :=
  match conds with
  | [] => [f (cond_new name)]
  | c :: rest =>
      if bool_decide (Cond_Type c = name) then f c :: rest
      else c :: cond_update name f rest
  end.

(** Modelled from the spec: the status of a condition that has no entry yet
    is empty, so that the condition is not yet true. *)
Definition cond_GetStatus (name : string) (c : Cluster) : string :=
  match cond_find name (Conditions (Status c)) with
  | Some cc => Cond_Status cc
  | None => EmptyString
  end.

(** Modelled from the spec: a condition is a named milestone with a
    boolean-true terminal state and a message; [IsTrue] holds when its
    status reads [True]. *)
Definition cond_IsTrue (name : string) (c : Cluster) : bool :=
  bool_decide (cond_GetStatus name c = "True").

(** Modelled from the spec: setting the status, or the message, of a
    condition writes its entry, a new one when there is none. *)
Definition cond_SetStatus (name status : string) (c : Cluster) : Cluster :=
  set_Status (λ s, set_Conditions
    (cond_update name (λ cc, {| Cond_Type := Cond_Type cc; Cond_Status := status;
                                Cond_Message := Cond_Message cc |})
                 (Conditions s)) s) c.

(** Modelled from the spec: [Message] records the condition's diagnostic
    message. *)
Definition cond_Message (name : string) (c : Cluster) (message : string) : Cluster :=
  set_Status (λ s, set_Conditions
    (cond_update name (λ cc, {| Cond_Type := Cond_Type cc;
                                Cond_Status := Cond_Status cc;
                                Cond_Message := message |})
                 (Conditions s)) s) c.

(** Modelled from the spec: [Do] runs the action on the object; on success the
    condition becomes true, on failure it is marked not-yet-true with the
    error as its message, and the error is handed back. *)
Definition cond_Do (name : string) (c : Cluster)
    (action : Cluster → M (Cluster * option error)) : M (Cluster * option error) :=
  '(c', err) ← action c;
  match err with
  | Some e =>
      mret (cond_Message name (cond_SetStatus name "False" c') (error_Error e), Some e)
  | None => mret (cond_SetStatus name "True" c', None)
  end.

(** Modelled from the spec: [DoUntilTrue] invokes the action only while the
    condition is not true. *)
Definition cond_DoUntilTrue (name : string) (c : Cluster)
    (action : Cluster → M (Cluster * option error)) : M (Cluster * option error) :=
  if cond_IsTrue name c then mret (c, None) else cond_Do name c action.

(** ** The caches *)

Definition getAgentImages (name : string) : M (string * string) :=
  λ w, Ret (default EmptyString (agentImages_nodeImage w !! name),
            default EmptyString (agentImages_clusterImage w !! name)) w.

Definition agentImagesCached (name : string) : M bool :=
  '(na, ca) ← getAgentImages name;
  mret (negb (bool_decide (na = EmptyString)) && negb (bool_decide (ca = EmptyString))).

Definition controlPlaneTaintsCached (name : string) : M bool :=
  λ w, Ret (bool_decide (is_Some (controlPlaneTaints w !! name))) w.

Definition getCachedTaints (name : string) : M (slice Taint) :=
  λ w, Ret (match controlPlaneTaints w !! name with
            | Some cached => cached
            | None => None
            end) w.

Definition setAgentImages (name na ca : string) : M unit :=
  λ w, Ret () {| agentImages_nodeImage := <[name := na]> (agentImages_nodeImage w);
                 agentImages_clusterImage := <[name := ca]> (agentImages_clusterImage w);
                 controlPlaneTaints := controlPlaneTaints w;
                 trace := trace w |}.

Definition setControlPlaneTaints (name : string) (taints : slice Taint) : M unit :=
  λ w, Ret () {| agentImages_nodeImage := agentImages_nodeImage w;
                 agentImages_clusterImage := agentImages_clusterImage w;
                 controlPlaneTaints := <[name := taints]> (controlPlaneTaints w);
                 trace := trace w |}.

Definition deleteAgentImages (name : string) : M unit :=
  λ w, Ret () {| agentImages_nodeImage := delete name (agentImages_nodeImage w);
                 agentImages_clusterImage := delete name (agentImages_clusterImage w);
                 controlPlaneTaints := controlPlaneTaints w;
                 trace := trace w |}.

Definition deleteControlPlaneTaints (name : string) : M unit :=
  λ w, Ret () {| agentImages_nodeImage := agentImages_nodeImage w;
                 agentImages_clusterImage := agentImages_clusterImage w;
                 controlPlaneTaints := delete name (controlPlaneTaints w);
                 trace := trace w |}.

Definition clearAgentImages (name : string) : M unit :=
  _ ← logrus_Tracef ("clusterDeploy: clearAgentImages called for [" ++ name ++ "]");
  deleteAgentImages name.

Definition clearControlPlaneTaints (name : string) : M unit :=
  _ ← logrus_Tracef ("clusterDeploy: clearControlPlaneTaints called for [" ++ name ++ "]");
  deleteControlPlaneTaints name.

(** ** Output formatting *)

Definition dquote : string := String (Ascii.ascii_of_nat 34) EmptyString.

(** [strings.Index(s, substr)]. *)
Fixpoint strings_Index (s substr : string) : option nat :=
  if String.prefix substr s then Some 0%nat
  else match s with
       | EmptyString => None
       | String _ s' => S <$> strings_Index s' substr
       end.

(** [strings.Replace(s, "\n", " ", -1)]. *)
Fixpoint replace_newlines (s : string) : string :=
  match s with
  | EmptyString => EmptyString
  | String c s' =>
      String (if Ascii.eqb c (Ascii.ascii_of_nat 10) then Ascii.ascii_of_nat 32 else c)
             (replace_newlines s')
  end.

(** [strings.Replace(s, old, new, 1)]: an empty [old] matches at the start. *)
Definition strings_Replace1 (s old new : string) : string :=
  match strings_Index s old with
  | Some i =>
      String.substring 0 i s ++ new ++
      String.substring (i + String.length old)
                       (String.length s - (i + String.length old)) s
  | None => s
  end.

(** The submatch of the token pattern: what stands between the first
    occurrence of the token key and the next quote. *)
Definition tokenSubmatch (log : string) : option string :=
  let key := dquote ++ "token" ++ dquote ++ ":" ++ dquote in
  match strings_Index log key with
  | Some i =>
      let rest := String.substring (i + String.length key)
                    (String.length log - (i + String.length key)) log in
      match strings_Index rest dquote with
      | Some j => Some (String.substring 0 j rest)
      | None => None
      end
  | None => None
  end.

Definition formatKubectlApplyOutput (log : string) : string :=
  let log := replace_newlines log in
  match tokenSubmatch log with
  | Some token => strings_Replace1 log token "REDACTED"
  | None => log
  end.

(** ** The controller *)

Definition getDesiredImage (cluster : Cluster) : string :=
  if negb (bool_decide (AgentImageOverride (Spec cluster) = EmptyString))
  then AgentImageOverride (Spec cluster)
  else DesiredAgentImage (Spec cluster).

(** The node carries one of the control-plane labels with its value. *)
Definition controlPlaneLabelFound (node : Node) : bool :=
  existsb (λ '(controlPlaneLabelKey, controlPlaneLabelValue),
             go_has (NodeLabels node) controlPlaneLabelKey &&
             bool_decide (go_index EmptyString (NodeLabels node) controlPlaneLabelKey
                          = controlPlaneLabelValue))
          controlPlaneLabels.

(** [for _, taintStr := range toAdd]: append what is not Kubernetes-internal. *)
Fixpoint appendTaints (toAdd : list Taint) (allTaints : slice Taint) : slice Taint :=
  match toAdd with
  | [] => allTaints
  | taintStr :: rest =>
      if negb (strings_HasPrefix (Taint_Key taintStr) "node.kubernetes.io")
      then appendTaints rest (Some (elems allTaints ++ [taintStr])%list)
      else appendTaints rest allTaints
  end.

Section Controller.

Context (env : Env).

(** The private-registry comparison of [redeployAgent] (its [repoChange]).
    [appliedRepo] is the address of the first recorded registry. *)
Definition repoChange (cluster : Cluster) : bool :=
  match RKEConfig (Spec cluster) with
  | Some _ =>
      match RKEConfig (AppliedSpec (Status cluster)) with
      | Some applied =>
          match elems (PrivateRegistries applied) with
          | first :: _ =>
              let desiredRepo := GetPrivateRepo env cluster in
              let appliedRepo := Some first in
              let repoChange := false in
              let repoChange :=
                if bool_decide (desiredRepo ≠ None) && bool_decide (appliedRepo ≠ None)
                   && negb (reflect_DeepEqual desiredRepo appliedRepo)
                then true else repoChange in
              let repoChange :=
                if (bool_decide (desiredRepo = None) && bool_decide (appliedRepo ≠ None))
                   || (bool_decide (desiredRepo ≠ None) && bool_decide (appliedRepo = None))
                then true else repoChange in
              repoChange
          | [] => false
          end
      | None => false
      end
  | None => false
  end.

Definition redeployAgent (cluster : Cluster) (desiredAgent desiredAuth : string)
    (desiredFeatures : gomap bool) (desiredTaints : slice Taint) : M bool :=
  _ ← logrus_Tracef ("clusterDeploy: redeployAgent called for cluster ["
                     ++ Name cluster ++ "]");
  if negb (cond_IsTrue ClusterConditionAgentDeployed cluster) then mret true
  else
    let forceDeploy :=
      bool_decide (go_index EmptyString (Annotations cluster) AgentForceDeployAnn = "true") in
    let imageChange :=
      negb (bool_decide (AgentImage (Status cluster) = desiredAgent))
      || negb (bool_decide (AuthImage (Status cluster) = desiredAuth)) in
    let agentFeaturesChanged :=
      agentFeaturesChanged desiredFeatures (AgentFeatures (Status cluster)) in
    let repoChange := repoChange cluster in
    if forceDeploy || imageChange || repoChange || agentFeaturesChanged then mret true
    else
      '(na, ca) ← getAgentImages (Name cluster);
      if (negb (bool_decide (AgentImage (Status cluster) = na))
          && bool_decide (Driver (Status cluster) = ClusterDriverRKE))
         || negb (bool_decide (AgentImage (Status cluster) = ca))
      then
        _ ← clearAgentImages (Name cluster);
        mret true
      else
        currentTaints ← getCachedTaints (Name cluster);
        let '(toAdd, toDelete) := GetToDiffTaints env currentTaints desiredTaints in
        if bool_decide (0 < length toAdd)%nat || bool_decide (0 < length toDelete)%nat
        then
          _ ← clearControlPlaneTaints (Name cluster);
          mret true
        else if negb (reflect_DeepEqual (AgentEnvVars (Spec cluster))
                                        (AppliedAgentEnvVars (Status cluster)))
        then mret true
        else mret false.

(** The loop over the nodes in [getControlPlaneTaints]. *)
Fixpoint collectTaints (nodes : list Node) (allTaints : slice Taint) : slice Taint :=
  match nodes with
  | [] => allTaints
  | node :: rest =>
      if controlPlaneLabelFound node then
        let '(toAdd, _) := GetToDiffTaints env allTaints (NodeTaints node) in
        collectTaints rest (appendTaints toAdd allTaints)
      else collectTaints rest allTaints
  end.

Definition getControlPlaneTaints (name : string) : M (slice Taint * option error) :=
  '(nodes, err) ← call (EvListNodes name) (λ h, nodeLister_List env h name);
  match err with
  | Some e => mret (None, Some e)
  | None => mret (collectTaints nodes None, None)
  end.

Definition cacheControlPlaneTaints (name : string) : M (option error) :=
  '(taints, err) ← getControlPlaneTaints name;
  match err with
  | Some e => mret (Some e)
  | None =>
      _ ← setControlPlaneTaints name taints;
      mret None
  end.

Definition getKubeConfig (cluster : Cluster) : M (KubeConfig + error) :=
  _ ← logrus_Tracef ("clusterDeploy: getKubeConfig called for cluster ["
                     ++ Name cluster ++ "]");
  '(user, err) ← call (EvGetSystemUser (Name cluster))
                      (λ h, GetSystemUser env h (Name cluster));
  match err with
  | Some e => mret (inr e)
  | None =>
      '(token, err) ← call (EvEnsureToken ("agent-" ++ user) user)
                           (λ h, EnsureToken env h ("agent-" ++ user) user);
      match err with
      | Some e => mret (inr e)
      | None => mret (inl (ClusterManager_KubeConfig env (Name cluster) token))
      end
  end.

Definition getYAML (cluster : Cluster) (agentImage authImage : string)
    (features : gomap bool) (taints : slice Taint) : M (string * option error) :=
  '(token, err) ← call (EvGetOrCreateSystemClusterToken (Name cluster))
                       (λ h, GetOrCreateSystemClusterToken env h (Name cluster));
  match err with
  | Some e => mret (EmptyString, Some e)
  | None =>
      let url := ServerURL env in
      if bool_decide (url = EmptyString) then
        _ ← call (EvEnqueueAfter (Name cluster) 1) (λ _, ());
        mret (EmptyString, Some (errors_New "waiting for server-url setting to be set"))
      else
        call (EvSystemTemplate agentImage authImage (Name cluster))
             (λ _, SystemTemplate env agentImage authImage (Name cluster) token url
                     (WindowsPreferedCluster (Spec cluster)) cluster features taints)
  end.

(** [for _, c := range containers { if c.Name == name { return c.Image } }]. *)
Definition containerImage (name : string) (containers : list Container) : string :=
  match List.find (λ c, bool_decide (Container_Name c = name)) containers with
  | Some c => Container_Image c
  | None => EmptyString
  end.

Definition getClusterAgentImage (name : string) : M (string * option error) :=
  err ← call (EvUserContext name) (λ h, UserContext env h name);
  match err with
  | Some e => mret (EmptyString, Some e)
  | None =>
      '(containers, err) ← call (EvGetDeployment name) (λ h, Deployments_Get env h name);
      match err with
      | Some e =>
          if negb (apierrors_IsNotFound e) then mret (EmptyString, Some e)
          else mret (EmptyString, None)
      | None => mret (containerImage "cluster-register" containers, None)
      end
  end.

Definition getNodeAgentImage (name : string) : M (string * option error) :=
  err ← call (EvUserContext name) (λ h, UserContext env h name);
  match err with
  | Some e => mret (EmptyString, Some e)
  | None =>
      '(containers, err) ← call (EvGetDaemonSet name) (λ h, DaemonSets_Get env h name);
      match err with
      | Some e =>
          if negb (apierrors_IsNotFound e) then mret (EmptyString, Some e)
          else mret (EmptyString, None)
      | None => mret (containerImage "agent" containers, None)
      end
  end.

Definition cacheAgentImages (name : string) : M (option error) :=
  '(na, err) ← getNodeAgentImage name;
  match err with
  | Some e => mret (Some e)
  | None =>
      '(ca, err) ← getClusterAgentImage name;
      match err with
      | Some e => mret (Some e)
      | None =>
          _ ← setAgentImages name na ca;
          mret None
      end
  end.

(** The bounded loop of [deployAgent]: [attempts] more passes of
    [for i := 0; i < 5; i++], entered with the current [output] and [err]. *)
Fixpoint applyLoop (attempts : nat) (yaml : string) (kubeConfig : KubeConfig)
    (output : string) (err : option error) : M (string * option error) :=
  match attempts with
  | O => mret (output, err)
  | S attempts' =>
      '(output, err) ← call (EvApply yaml kubeConfig)
                            (λ h, kubectl_Apply env h yaml kubeConfig);
      match err with
      | None => mret (output, None)
      | Some e =>
          _ ← time_Sleep 5;
          applyLoop attempts' yaml kubeConfig output (Some e)
      end
  end.

Definition authNotFoundError : string :=
  "daemonsets.apps " ++ dquote ++ "kube-api-auth" ++ dquote ++ " not found".
Definition nodeAgentNotFoundError : string :=
  "daemonsets.apps " ++ dquote ++ "cattle-node-agent" ++ dquote ++ " not found".

(** What both deletions do with their result: an error is escalated,
    joined with the output, unless the output reports the resource as not
    found. *)
Definition deleteFailed (err : option error) (output notFound : string)
    : option error :=
  match err with
  | Some e =>
      if negb (strings_Contains output notFound)
      then Some (errors_WithMessage (types_NewErrors e (errors_New output))
                                    "kubectl delete failed")
      else None
  | None => None
  end.

(** The guard on the removal of the authentication workload. *)
Definition authRemovalDue (cluster : Cluster) : bool :=
  negb (LocalClusterAuthEndpoint_Enabled (Spec cluster))
  && LocalClusterAuthEndpoint_Enabled (AppliedSpec (Status cluster))
  && negb (bool_decide (AuthImage (Status cluster) = EmptyString)).

(** The second removal, of the node agent workload, and the end of the
    action: the last output becomes the condition's message. *)
Definition removeNodeAgent (cluster : Cluster) (kubeConfig : KubeConfig)
    (output : string) : M (Cluster * option error) :=
  if negb (bool_decide (Driver (Status cluster) = ClusterDriverRKE)) then
    '(output, err) ← call (EvDelete NodeAgentDaemonSet kubeConfig)
                          (λ h, kubectl_Delete env h NodeAgentDaemonSet kubeConfig);
    match deleteFailed err output nodeAgentNotFoundError with
    | Some failure => mret (cluster, Some failure)
    | None => mret (cond_Message ClusterConditionAgentDeployed cluster output, None)
    end
  else mret (cond_Message ClusterConditionAgentDeployed cluster output, None).

(** The removal of the two legacy companion resources, as it follows a
    successful apply inside the action of [deployAgent]: [output] is the
    output of the apply, and the error at that point is nil. *)
Definition removeCompanions (cluster : Cluster) (kubeConfig : KubeConfig)
    (output : string) : M (Cluster * option error) :=
  '(output, err) ←
    (if authRemovalDue cluster
     then call (EvDelete AuthDaemonSet kubeConfig)
               (λ h, kubectl_Delete env h AuthDaemonSet kubeConfig)
     else mret (output, None));
  match deleteFailed err output authNotFoundError with
  | Some failure => mret (cluster, Some failure)
  | None => removeNodeAgent cluster kubeConfig output
  end.

(** The action [deployAgent] hands to the AgentDeployed condition. *)
Definition applyAgent (desiredAgent desiredAuth : string)
    (desiredFeatures : gomap bool) (desiredTaints : slice Taint)
    (kubeConfig : KubeConfig) (cluster : Cluster) : M (Cluster * option error) :=
  '(yaml, err) ← getYAML cluster desiredAgent desiredAuth desiredFeatures desiredTaints;
  match err with
  | Some e => mret (cluster, Some e)
  | None =>
      '(output, err) ← applyLoop 5 yaml kubeConfig EmptyString None;
      match err with
      | Some e =>
          mret (cluster,
                Some (errors_WithMessage
                        (types_NewErrors e (errors_New (formatKubectlApplyOutput output)))
                        "Error while applying agent YAML, it will be retried automatically"))
      | None =>
          removeCompanions (cond_Message ClusterConditionAgentDeployed cluster output)
                           kubeConfig output
      end
  end.

(** [m[k] = v]: a write to a nil map panics. *)
Definition go_assign {V} (m : gomap V) (k : string) (v : V) : M (gomap V) :=
  match m with
  | Some g => mret (Some (<[k := v]> g))
  | None => panic
  end.

(** The image asked for, or the resolved setting when none or [fixed]. *)
Definition desiredAgentImage (cluster : Cluster) : string :=
  let desiredAgent := getDesiredImage cluster in
  if bool_decide (desiredAgent = EmptyString) || bool_decide (desiredAgent = "fixed")
  then ResolveAgentImage env cluster
  else desiredAgent.

Definition desiredAuthImage (cluster : Cluster) : string :=
  if LocalClusterAuthEndpoint_Enabled (Spec cluster) then
    let desiredAuth := DesiredAuthImage (Spec cluster) in
    if bool_decide (desiredAuth = EmptyString) || bool_decide (desiredAuth = "fixed")
    then ResolveAuthImage env cluster
    else desiredAuth
  else EmptyString.

(** The writes that end [deployAgent] once the apply and the cache refresh
    have succeeded. *)
Definition commitState (cluster : Cluster) (desiredAgent desiredAuth : string)
    (desiredFeatures : gomap bool) : M Cluster :=
  let cluster := set_Status (set_AgentImage desiredAgent) cluster in
  let cluster := set_Status (set_AgentFeatures desiredFeatures) cluster in
  let cluster :=
    if bool_decide (DesiredAgentImage (Spec cluster) = "fixed")
    then set_Spec (set_DesiredAgentImage desiredAgent) cluster else cluster in
  let cluster := set_Status (set_AuthImage desiredAuth) cluster in
  let cluster :=
    if bool_decide (DesiredAuthImage (Spec cluster) = "fixed")
    then set_Spec (set_DesiredAuthImage desiredAuth) cluster else cluster in
  cluster ←
    (if bool_decide (go_index EmptyString (Annotations cluster) AgentForceDeployAnn = "true")
     then ann ← go_assign (Annotations cluster) AgentForceDeployAnn "false";
          mret (set_Annotations ann cluster)
     else mret cluster);
  mret (set_Status (set_AppliedAgentEnvVars (AgentEnvVars (Spec cluster))) cluster).

Definition deployAgent (cluster : Cluster) : M (Cluster * option error) :=
  if Internal (Spec cluster) then mret (cluster, None)
  else
    _ ← logrus_Tracef ("clusterDeploy: deployAgent called for [" ++ Name cluster ++ "]");
    let desiredAgent := desiredAgentImage cluster in
    let desiredAuth := desiredAuthImage cluster in
    let desiredFeatures : gomap bool := Some ∅ in
    '(desiredTaints, err) ← getControlPlaneTaints (Name cluster);
    match err with
    | Some e => mret (cluster, Some e)
    | None =>
        redeploy ← redeployAgent cluster desiredAgent desiredAuth
                                 desiredFeatures desiredTaints;
        if negb redeploy then mret (cluster, None)
        else
          kubeConfig ← getKubeConfig cluster;
          match kubeConfig with
          | inr e => mret (cluster, Some e)
          | inl kubeConfig =>
              '(cluster, err) ←
                cond_Do ClusterConditionAgentDeployed cluster
                  (applyAgent desiredAgent desiredAuth desiredFeatures
                              desiredTaints kubeConfig);
              match err with
              | Some e => mret (cluster, Some e)
              | None =>
                  err ← cacheAgentImages (Name cluster);
                  match err with
                  | Some e => mret (cluster, Some e)
                  | None =>
                      cluster ← commitState cluster desiredAgent desiredAuth
                                            desiredFeatures;
                      mret (cluster, None)
                  end
              end
          end
    end.

Definition setNetworkPolicyAnn (cluster : Cluster) : M (Cluster * option error) :=
  match EnableNetworkPolicy (Spec cluster) with
  | Some _ => mret (cluster, None)
  | None =>
      match RKEConfig (Spec cluster) with
      | Some rke =>
          if bool_decide (Network_Plugin rke = "canal") then
            let cluster := set_Spec (set_EnableNetworkPolicy (Some true)) cluster in
            ann ← go_assign (Annotations cluster)
                    "networking.management.cattle.io/enable-network-policy" "true";
            mret (set_Annotations ann cluster, None)
          else mret (cluster, None)
      | None => mret (cluster, None)
      end
  end.

Definition doSync (cluster : Cluster) : M (Cluster * option error) :=
  _ ← logrus_Tracef ("clusterDeploy: doSync called for cluster [" ++ Name cluster ++ "]");
  if negb (cond_IsTrue ClusterConditionProvisioned cluster) then mret (cluster, None)
  else
    '(nodes, err) ← call (EvListNodes (Name cluster))
                         (λ h, nodeLister_List env h (Name cluster));
    match err with
    | Some e => mret (cluster, Some e)
    | None =>
        if bool_decide (length nodes = 0%nat) then mret (cluster, None)
        else
          '(cluster, err) ←
            cond_DoUntilTrue ClusterConditionSystemAccountCreated cluster
              (λ c, err ← call (EvCreateSystemAccount (Name c))
                               (λ h, CreateSystemAccount env h c);
                    mret (c, err));
          match err with
          | Some e => mret (cluster, Some e)
          | None =>
              err ← (if negb (bool_decide (AgentImage (Status cluster) = EmptyString))
                     then cached ← agentImagesCached (Name cluster);
                          if negb cached then cacheAgentImages (Name cluster)
                          else mret None
                     else mret None);
              match err with
              | Some e => mret (cluster, Some e)
              | None =>
                  cached ← controlPlaneTaintsCached (Name cluster);
                  err ← (if negb cached then cacheControlPlaneTaints (Name cluster)
                         else mret None);
                  match err with
                  | Some e => mret (cluster, Some e)
                  | None =>
                      '(cluster, err) ← deployAgent cluster;
                      match err with
                      | Some e => mret (cluster, Some e)
                      | None => setNetworkPolicyAnn cluster
                      end
                  end
              end
          end
    end.

(** The normalisation [sync] applies to its working copy before [doSync]:
    for the RKE driver the authentication strategy follows the
    auth-endpoint toggle.  The engine configuration is dereferenced
    unguarded. *)
Definition authStrategy (cluster : Cluster) : string :=
  if LocalClusterAuthEndpoint_Enabled (Spec cluster) then "x509|webhook" else "x509".

Definition setAuthStrategy (cluster : Cluster) : M Cluster :=
  if bool_decide (Driver (Status cluster) = ClusterDriverRKE) then
    match RKEConfig (Spec cluster) with
    | Some rke =>
        mret (set_Spec (set_RKEConfig
                (Some (set_Strategy (authStrategy cluster) rke))) cluster)
    | None => panic
    end
  else mret cluster.

(** [sync] hands back no object; its result is the error. *)
Definition sync (key : string) (cluster : option Cluster) : M (option error) :=
  _ ← logrus_Tracef ("clusterDeploy: sync called for key [" ++ key ++ "]");
  match cluster with
  | Some original =>
      if bool_decide (DeletionTimestamp original ≠ None) then
        call (EvRemoveSystemAccount key) (λ h, RemoveSystemAccount env h key)
      else
        cluster ← setAuthStrategy original;
        '(cluster, err) ← doSync cluster;
        updateErr ←
          (if negb (reflect_DeepEqual cluster original)
           then call (EvUpdate cluster) (λ h, clusters_Update env h cluster)
           else mret None);
        match err with
        | Some e => mret (Some e)
        | None => mret updateErr
        end
  | None =>
      call (EvRemoveSystemAccount key) (λ h, RemoveSystemAccount env h key)
  end.

End Controller.

(** ** Vocabulary of the properties *)

(** The effective value of a flag: a missing key counts as false. *)
Definition effective (m : gomap bool) (k : string) : bool := go_index false m k.

(** [k] is a key of [m]. *)
Definition present {V} (m : gomap V) (k : string) : Prop := go_has m k = true.

(** The first private registry the last-applied spec records, if any. *)
Definition appliedRepo (c : Cluster) : option PrivateRegistry :=
  match RKEConfig (AppliedSpec (Status c)) with
  | Some applied => head (elems (PrivateRegistries applied))
  | None => None
  end.

(** Two states hold the same caches. *)
Definition sameCaches (w1 w2 : World) : Prop :=
  agentImages_nodeImage w1 = agentImages_nodeImage w2 ∧
  agentImages_clusterImage w1 = agentImages_clusterImage w2 ∧
  controlPlaneTaints w1 = controlPlaneTaints w2.

(** The value a computation returns, if it returns. *)
Definition returned {A} (o : Outcome A) : option A :=
  match o with
  | Ret a _ => Some a
  | Panic => None
  end.

(** The state [w] after the events [evs]. *)
Definition after (evs : list Event) (w : World) : World :=
  {| agentImages_nodeImage := agentImages_nodeImage w;
     agentImages_clusterImage := agentImages_clusterImage w;
     controlPlaneTaints := controlPlaneTaints w;
     trace := trace w ++ evs |}.

(** [n] failed passes of the apply loop: a push, then the delay, each time. *)
Fixpoint failedAttempts (yaml : string) (kubeConfig : KubeConfig) (n : nat)
    : list Event :=
  match n with
  | O => []
  | S n' => failedAttempts yaml kubeConfig n' ++ [EvApply yaml kubeConfig; EvSleep 5]
  end.

Definition isApply (e : Event) : bool :=
  match e with
  | EvApply _ _ => true
  | _ => false
  end.

(** The number of pushes among the events. *)
Definition pushes (evs : list Event) : nat := length (List.filter isApply evs).

(** The steps of [redeployAgent] that read only the cluster object: the
    force-deploy marker, the recorded images, the features and the private
    registry. *)
Definition statusFacetsChanged (env : Env) (cluster : Cluster)
    (desiredAgent desiredAuth : string) (desiredFeatures : gomap bool) : bool :=
  bool_decide (go_index EmptyString (Annotations cluster) AgentForceDeployAnn = "true")
  || (negb (bool_decide (AgentImage (Status cluster) = desiredAgent))
      || negb (bool_decide (AuthImage (Status cluster) = desiredAuth)))
  || repoChange env cluster
  || agentFeaturesChanged desiredFeatures (AgentFeatures (Status cluster)).

(** The cached images, read as [getAgentImages] reads them, disagree with
    the recorded agent image. *)
Definition imageMismatch (cluster : Cluster) (w : World) : bool :=
  let na := default EmptyString (agentImages_nodeImage w !! Name cluster) in
  let ca := default EmptyString (agentImages_clusterImage w !! Name cluster) in
  (negb (bool_decide (AgentImage (Status cluster) = na))
   && bool_decide (Driver (Status cluster) = ClusterDriverRKE))
  || negb (bool_decide (AgentImage (Status cluster) = ca)).

(** The cached taints, read as [getCachedTaints] reads them, differ from the
    desired ones. *)
Definition taintMismatch (env : Env) (cluster : Cluster)
    (desiredTaints : slice Taint) (w : World) : bool :=
  let currentTaints := match controlPlaneTaints w !! Name cluster with
                       | Some cached => cached
                       | None => None
                       end in
  let '(toAdd, toDelete) := GetToDiffTaints env currentTaints desiredTaints in
  bool_decide (0 < length toAdd)%nat || bool_decide (0 < length toDelete)%nat.

(** The state once the image entries, or the taint entry, of [name] are
    deleted and the events [evs] have been recorded. *)
Definition withoutImages (name : string) (evs : list Event) (w : World) : World :=
  {| agentImages_nodeImage := delete name (agentImages_nodeImage w);
     agentImages_clusterImage := delete name (agentImages_clusterImage w);
     controlPlaneTaints := controlPlaneTaints w;
     trace := trace w ++ evs |}.

Definition withoutTaints (name : string) (evs : list Event) (w : World) : World :=
  {| agentImages_nodeImage := agentImages_nodeImage w;
     agentImages_clusterImage := agentImages_clusterImage w;
     controlPlaneTaints := delete name (controlPlaneTaints w);
     trace := trace w ++ evs |}.

Definition redeployCalled (cluster : Cluster) : Event :=
  EvTracef ("clusterDeploy: redeployAgent called for cluster [" ++ Name cluster ++ "]").

Definition syncCalled (key : string) : Event :=
  EvTracef ("clusterDeploy: sync called for key [" ++ key ++ "]").

Definition doSyncCalled (cluster : Cluster) : Event :=
  EvTracef ("clusterDeploy: doSync called for cluster [" ++ Name cluster ++ "]").

(** The cluster with the authentication strategy of its engine
    configuration replaced. *)
Definition withStrategy (strategy : string) (rke : RancherKubernetesEngineConfig)
    (cluster : Cluster) : Cluster :=
  set_Spec (set_RKEConfig (Some (set_Strategy strategy rke))) cluster.

(** What the push answers on its [i]-th retry from the state [w], that is
    after [i] failed passes of the loop. *)
Definition attemptAt (env : Env) (yaml : string) (kubeConfig : KubeConfig)
    (w : World) (i : nat) : string * option error :=
  kubectl_Apply env (trace w ++ failedAttempts yaml kubeConfig i) yaml kubeConfig.

Definition applyErrorMessage : string :=
  "Error while applying agent YAML, it will be retried automatically".

(** What the first removal escalates: nothing when it is not due. *)
Definition authFailure (env : Env) (cluster : Cluster) (kubeConfig : KubeConfig)
    (w : World) : option error :=
  if authRemovalDue cluster then
    let '(output, err) := kubectl_Delete env (trace w) AuthDaemonSet kubeConfig in
    deleteFailed err output authNotFoundError
  else None.

(** The state once the manifest is pushed with success at the first try. *)
Definition pushed (yaml : string) (kubeConfig : KubeConfig) (w : World) : World :=
  after [EvApply yaml kubeConfig] w.

(** ** Sample collaborators and clusters *)

(** Modelled from the spec: [taints.GetToDiffTaints] (package taints, outside
    src/) is a structural set difference: what is desired and not current is
    to add, what is current and not desired is to delete. *)
Definition diffTaints (current desired : slice Taint) : list Taint * list Taint :=
  (List.filter (λ t, negb (bool_decide (t ∈ elems current))) (elems desired),
   List.filter (λ t, negb (bool_decide (t ∈ elems desired))) (elems current)).

(** Modelled from the spec: [util.GetPrivateRepo] (package cluster, outside
    src/) yields the desired primary registry, the first private registry of
    the desired engine configuration, or nil. *)
Definition primaryRepo (c : Cluster) : option PrivateRegistry :=
  match RKEConfig (Spec c) with
  | Some rke => head (elems (PrivateRegistries rke))
  | None => None
  end.

(** Collaborators that all succeed, but for the push and the delete, which
    answer as given. *)
Definition sampleEnv
    (apply : list Event → string * option error)
    (delete : list Event → DaemonSetManifest → string * option error) : Env :=
  {| GetPrivateRepo := primaryRepo;
     GetToDiffTaints := diffTaints;
     ResolveAgentImage := λ _, "rancher/rancher-agent:v2";
     ResolveAuthImage := λ _, "rancher/kube-api-auth:v1";
     ServerURL := "https://rancher.example";
     SystemTemplate := λ agent auth name token url windows cluster features taints,
                         ("manifest " ++ agent, None);
     ClusterManager_KubeConfig := λ name token,
                         {| kube_cluster := name; kube_token := token |};
     RemoveSystemAccount := λ _ _, None;
     CreateSystemAccount := λ _ _, None;
     nodeLister_List := λ _ _, ([], None);
     GetSystemUser := λ _ name, ("u-" ++ name, None);
     EnsureToken := λ _ tokenName _, ("token:" ++ tokenName, None);
     GetOrCreateSystemClusterToken := λ _ name, ("cluster-token:" ++ name, None);
     kubectl_Apply := λ h _ _, apply h;
     kubectl_Delete := λ h manifest _, delete h manifest;
     UserContext := λ _ _, None;
     DaemonSets_Get := λ _ _, ([], None);
     Deployments_Get := λ _ _,
       ([{| Container_Name := "cluster-register";
            Container_Image := "rancher/rancher-agent:v2" |}], None);
     clusters_Update := λ _ _, None |}.

Definition emptyWorld : World :=
  {| agentImages_nodeImage := ∅; agentImages_clusterImage := ∅;
     controlPlaneTaints := ∅; trace := [] |}.

Definition emptySpec : ClusterSpec :=
  {| Internal := false; LocalClusterAuthEndpoint_Enabled := false;
     RKEConfig := None; AgentImageOverride := EmptyString;
     DesiredAgentImage := EmptyString; DesiredAuthImage := EmptyString;
     AgentEnvVars := None; EnableNetworkPolicy := None;
     WindowsPreferedCluster := false |}.

Definition conditionTrue (name : string) : ClusterCondition :=
  {| Cond_Type := name; Cond_Status := "True"; Cond_Message := EmptyString |}.

(** A cluster named [c-1] with the given spec, driver, recorded images,
    last-applied spec and conditions. *)
Definition sampleCluster (spec : ClusterSpec) (driver agent auth : string)
    (applied : ClusterSpec) (conds : list ClusterCondition) : Cluster :=
  {| Name := "c-1"; DeletionTimestamp := None; Annotations := None;
     Spec := spec;
     Status := {| Driver := driver; AgentImage := agent; AuthImage := auth;
                  AgentFeatures := None; AppliedSpec := applied;
                  AppliedAgentEnvVars := None; Conditions := conds |} |}.


Definition agentV2 : string := "rancher/rancher-agent:v2".

(** An imported cluster whose agent is deployed and recorded as [agentV2]. *)
Definition deployedCluster (spec applied : ClusterSpec) : Cluster :=
  sampleCluster spec "imported" agentV2 EmptyString applied
                [conditionTrue ClusterConditionAgentDeployed].

(** The same cluster before its first deploy: no condition is recorded. *)
Definition freshCluster : Cluster :=
  sampleCluster emptySpec "imported" agentV2 EmptyString emptySpec [].

Definition internalSpec : ClusterSpec :=
  {| Internal := true; LocalClusterAuthEndpoint_Enabled := false;
     RKEConfig := None; AgentImageOverride := EmptyString;
     DesiredAgentImage := EmptyString; DesiredAuthImage := EmptyString;
     AgentEnvVars := None; EnableNetworkPolicy := None;
     WindowsPreferedCluster := false |}.

Definition localCluster : Cluster :=
  sampleCluster internalSpec "imported" EmptyString EmptyString emptySpec [].

Definition sampleRegistry : PrivateRegistry :=
  {| Registry_URL := "registry.example"; Registry_User := "puller";
     Registry_Password := "secret"; Registry_IsDefault := true |}.

Definition engineConfig (registries : slice PrivateRegistry) (strategy : string)
    : RancherKubernetesEngineConfig :=
  {| PrivateRegistries := registries; Authentication_Strategy := strategy;
     Network_Plugin := "canal" |}.

(** A spec whose engine configuration lists the given registries. *)
Definition specWith (registries : slice PrivateRegistry) (strategy : string)
    : ClusterSpec :=
  {| Internal := false; LocalClusterAuthEndpoint_Enabled := false;
     RKEConfig := Some (engineConfig registries strategy);
     AgentImageOverride := EmptyString;
     DesiredAgentImage := EmptyString; DesiredAuthImage := EmptyString;
     AgentEnvVars := None; EnableNetworkPolicy := None;
     WindowsPreferedCluster := false |}.

(** A registry is desired, none was applied. *)
Definition registryAdded : Cluster :=
  deployedCluster (specWith (Some [sampleRegistry]) "x509") (specWith None "x509").

(** No registry is desired, one was applied. *)
Definition registryRemoved : Cluster :=
  deployedCluster (specWith None "x509") (specWith (Some [sampleRegistry]) "x509").

Definition quietEnv : Env := sampleEnv (λ _, ("applied", None)) (λ _ _, ("deleted", None)).

(** The caches hold, for [c-1], the images and taints given. *)
Definition cachedWorld (na ca : string) (taints : slice Taint) : World :=
  {| agentImages_nodeImage := {[ "c-1" := na ]};
     agentImages_clusterImage := {[ "c-1" := ca ]};
     controlPlaneTaints := {[ "c-1" := taints ]};
     trace := [] |}.

Definition masterTaint : Taint :=
  {| Taint_Key := "node-role.kubernetes.io/master"; Taint_Value := "true";
     Taint_Effect := "NoSchedule" |}.

(** An RKE cluster that is not provisioned yet, its authentication strategy
    not yet set. *)
Definition provisioningCluster : Cluster :=
  sampleCluster (specWith None EmptyString) ClusterDriverRKE
                EmptyString EmptyString emptySpec [].

Definition sampleKube : KubeConfig :=
  {| kube_cluster := "c-1"; kube_token := "token:agent-u-c-1" |}.

Definition notReady : error := New "namespace cattle-system is forbidden".

(** Scenario 5 of the spec: the push fails four times, then succeeds. *)
Definition flakyEnv : Env :=
  sampleEnv (λ h, if (pushes h <? 4)%nat then ("forbidden", Some notReady)
                  else ("applied", None))
            (λ _ _, ("deleted", None)).

(** The push never succeeds. *)
Definition unreachableEnv : Env :=
  sampleEnv (λ _, ("forbidden", Some notReady)) (λ _ _, ("deleted", None)).

(** Scenario 6 of the spec: the workload to delete is not there. *)
Definition goneEnv : Env :=
  sampleEnv (λ _, ("applied", None))
            (λ _ manifest,
               match manifest with
               | AuthDaemonSet =>
                   ("Error from server (NotFound): " ++ authNotFoundError,
                    Some (New "exit status 1"))
               | NodeAgentDaemonSet =>
                   ("Error from server (NotFound): " ++ nodeAgentNotFoundError,
                    Some (New "exit status 1"))
               end).

(** The delete fails for another reason. *)
Definition refusedEnv : Env :=
  sampleEnv (λ _, ("applied", None))
            (λ _ _, ("Error from server (Forbidden)", Some (New "exit status 1"))).

Definition authEnabledSpec : ClusterSpec :=
  {| Internal := false; LocalClusterAuthEndpoint_Enabled := true;
     RKEConfig := None; AgentImageOverride := EmptyString;
     DesiredAgentImage := EmptyString; DesiredAuthImage := EmptyString;
     AgentEnvVars := None; EnableNetworkPolicy := None;
     WindowsPreferedCluster := false |}.

(** The auth endpoint was applied with an image and is now switched off. *)
Definition authSwitchedOff : Cluster :=
  sampleCluster emptySpec "imported" agentV2 "rancher/kube-api-auth:v1"
                authEnabledSpec [conditionTrue ClusterConditionAgentDeployed].

(** The state once the manifest for [c-1] is rendered. *)
Definition renderedWorld : World :=
  after [EvGetOrCreateSystemClusterToken "c-1";
         EvSystemTemplate agentV2 EmptyString "c-1"] emptyWorld.

Definition sampleYAML : string := "manifest " ++ agentV2.

Definition masterNode : Node :=
  {| NodeName := "n-1";
     NodeLabels := Some {[ "node-role.kubernetes.io/master" := "true" ]};
     NodeTaints := Some [masterTaint;
                         {| Taint_Key := "node.kubernetes.io/unreachable";
                            Taint_Value := EmptyString;
                            Taint_Effect := "NoExecute" |}] |}.

(** The cluster has one control-plane node; the push succeeds at its third
    try, and there is no node agent workload downstream. *)
Definition oneNodeEnv : Env :=
  {| GetPrivateRepo := primaryRepo;
     GetToDiffTaints := diffTaints;
     ResolveAgentImage := λ _, agentV2;
     ResolveAuthImage := λ _, "rancher/kube-api-auth:v1";
     ServerURL := "https://rancher.example";
     SystemTemplate := λ agent auth name token url windows cluster features taints,
                         ("manifest " ++ agent, None);
     ClusterManager_KubeConfig := λ name token,
                         {| kube_cluster := name; kube_token := token |};
     RemoveSystemAccount := λ _ _, None;
     CreateSystemAccount := λ _ _, None;
     nodeLister_List := λ _ _, ([masterNode], None);
     GetSystemUser := λ _ name, ("u-" ++ name, None);
     EnsureToken := λ _ tokenName _, ("token:" ++ tokenName, None);
     GetOrCreateSystemClusterToken := λ _ name, ("cluster-token:" ++ name, None);
     kubectl_Apply := λ h _ _, if (pushes h <? 2)%nat then ("forbidden", Some notReady)
                               else ("applied", None);
     kubectl_Delete := λ _ _ _, ("deleted", None);
     UserContext := λ _ _, None;
     DaemonSets_Get := λ _ _, ([], Some (NotFound "cattle-node-agent"));
     Deployments_Get := λ _ _,
       ([{| Container_Name := "cluster-register"; Container_Image := agentV2 |}], None);
     clusters_Update := λ _ _, None |}.

(** A provisioned, imported cluster before its first deploy. *)
Definition provisionedCluster : Cluster :=
  sampleCluster emptySpec "imported" EmptyString EmptyString emptySpec
                [conditionTrue ClusterConditionProvisioned].

(** ** Vocabulary of the further properties *)

(** The taint is Kubernetes-internal: its key has the reserved prefix. *)
Definition internalTaint (t : Taint) : bool :=
  strings_HasPrefix (Taint_Key t) "node.kubernetes.io".

(** The node carries the label [key] with the value [value]. *)
Definition hasLabel (node : Node) (key value : string) : Prop :=
  ∃ labels, NodeLabels node = Some labels ∧ labels !! key = Some value.

(** The difference function adds only what is desired. *)
Definition addsOnlyDesired (env : Env) : Prop :=
  ∀ current desired t,
    t ∈ (GetToDiffTaints env current desired).1 → t ∈ elems desired.

(** A worker node, tainted, without any control-plane label. *)
Definition workerNode : Node :=
  {| NodeName := "n-2";
     NodeLabels := Some {[ "node-role.kubernetes.io/worker" := "true" ]};
     NodeTaints := Some [{| Taint_Key := "dedicated"; Taint_Value := "gpu";
                            Taint_Effect := "NoSchedule" |}] |}.

(** Collaborators that all succeed, over the given nodes, server URL and
    answer of the node agent workload lookup. *)
Definition envWith (nodes : list Node) (url : string)
    (daemonSet : list Container * option error)
    (apply : list Event → string * option error)
    (delete : list Event → DaemonSetManifest → string * option error) : Env :=
  {| GetPrivateRepo := primaryRepo;
     GetToDiffTaints := diffTaints;
     ResolveAgentImage := λ _, agentV2;
     ResolveAuthImage := λ _, "rancher/kube-api-auth:v1";
     ServerURL := url;
     SystemTemplate := λ agent auth name token url windows cluster features taints,
                         ("manifest " ++ agent, None);
     ClusterManager_KubeConfig := λ name token,
                         {| kube_cluster := name; kube_token := token |};
     RemoveSystemAccount := λ _ _, None;
     CreateSystemAccount := λ _ _, None;
     nodeLister_List := λ _ _, (nodes, None);
     GetSystemUser := λ _ name, ("u-" ++ name, None);
     EnsureToken := λ _ tokenName _, ("token:" ++ tokenName, None);
     GetOrCreateSystemClusterToken := λ _ name, ("cluster-token:" ++ name, None);
     kubectl_Apply := λ h _ _, apply h;
     kubectl_Delete := λ h manifest _, delete h manifest;
     UserContext := λ _ _, None;
     DaemonSets_Get := λ _ _, daemonSet;
     Deployments_Get := λ _ _,
       ([{| Container_Name := "cluster-register"; Container_Image := agentV2 |}], None);
     clusters_Update := λ _ _, None |}.

(** A cluster of workers only. *)
Definition workersEnv : Env :=
  envWith [workerNode; workerNode] "https://rancher.example" ([], None)
          (λ _, ("applied", None)) (λ _ _, ("deleted", None)).

(** The node agent workload is not there downstream. *)
Definition noNodeAgentEnv : Env :=
  envWith [masterNode] "https://rancher.example"
          ([], Some (NotFound "daemonsets.apps cattle-node-agent not found"))
          (λ _, ("applied", None)) (λ _ _, ("deleted", None)).

(** A cluster that is being deleted. *)
Definition deletedCluster : Cluster :=
  {| Name := "c-1"; DeletionTimestamp := Some 1700000000%Z; Annotations := None;
     Spec := emptySpec;
     Status := {| Driver := "imported"; AgentImage := agentV2;
                  AuthImage := EmptyString; AgentFeatures := None;
                  AppliedSpec := emptySpec; AppliedAgentEnvVars := None;
                  Conditions := [conditionTrue ClusterConditionProvisioned] |} |}.

(** The server URL is not configured yet. *)
Definition noURLEnv : Env :=
  envWith [masterNode] EmptyString ([], None)
          (λ _, ("applied", None)) (λ _ _, ("deleted", None)).

(** The string holds a line feed. *)
Fixpoint hasNewline (s : string) : bool :=
  match s with
  | EmptyString => false
  | String c s' => Ascii.eqb c (Ascii.ascii_of_nat 10) || hasNewline s'
  end.

(** The cluster has no network policy setting yet and runs canal. *)
Definition canalUnset (cluster : Cluster) : Prop :=
  EnableNetworkPolicy (Spec cluster) = None ∧
  ∃ rke, RKEConfig (Spec cluster) = Some rke ∧ Network_Plugin rke = "canal".

(** A canal cluster with annotations and no network policy setting. *)
Definition canalCluster : Cluster :=
  {| Name := "c-1"; DeletionTimestamp := None;
     Annotations := Some {[ AgentForceDeployAnn := "true" ]};
     Spec := specWith None "x509";
     Status := {| Driver := ClusterDriverRKE; AgentImage := agentV2;
                  AuthImage := EmptyString; AgentFeatures := None;
                  AppliedSpec := emptySpec; AppliedAgentEnvVars := None;
                  Conditions := [conditionTrue ClusterConditionProvisioned] |} |}.


(** ** Specifications of computations *)

(** From a state in [P], the computation panics or returns a value and a
    state in [Q]. *)
Definition triple {A} (P : World → Prop) (m : M A) (Q : A → World → Prop) : Prop :=
  ∀ w, P w → match m w with
             | Panic => True
             | Ret a w' => Q a w'
             end.

(** The events of a pass other than the push and its delay, the removal of
    the system account and the write-back. *)
Definition passEvent (e : Event) : bool :=
  match e with
  | EvApply _ _ | EvSleep _ | EvRemoveSystemAccount _ | EvUpdate _ => false
  | _ => true
  end.

(** The computation returns, with a value in [Q], having changed no cache
    and recorded pass events only. *)
Definition quiet {A} (m : M A) (Q : A → Prop) : Prop :=
  ∀ w, ∃ a evs, m w = Ret a (after evs w) ∧
                Forall (λ e, passEvent e = true) evs ∧ Q a.

(** [c'] is [c] but for its conditions. *)
Definition sameButConditions (c c' : Cluster) : Prop :=
  Name c' = Name c ∧ DeletionTimestamp c' = DeletionTimestamp c ∧
  Annotations c' = Annotations c ∧ Spec c' = Spec c ∧
  Driver (Status c') = Driver (Status c) ∧
  AgentImage (Status c') = AgentImage (Status c) ∧
  AuthImage (Status c') = AuthImage (Status c) ∧
  AgentFeatures (Status c') = AgentFeatures (Status c) ∧
  AppliedSpec (Status c') = AppliedSpec (Status c) ∧
  AppliedAgentEnvVars (Status c') = AppliedAgentEnvVars (Status c).

(** The seconds slept among the events. *)
Fixpoint sleepSeconds (evs : list Event) : Z :=
  match evs with
  | [] => 0
  | EvSleep seconds :: rest => seconds + sleepSeconds rest
  | _ :: rest => sleepSeconds rest
  end.

(** The write-backs, and the removals of a system account, among the events. *)
Definition isUpdate (e : Event) : bool :=
  match e with
  | EvUpdate _ => true
  | _ => false
  end.

Definition isRemoval (e : Event) : bool :=
  match e with
  | EvRemoveSystemAccount _ => true
  | _ => false
  end.

Definition updates (evs : list Event) : nat := length (List.filter isUpdate evs).
Definition removals (evs : list Event) : nat := length (List.filter isRemoval evs).

(** The image maps hold the same names. *)
Definition imagesAligned (w : World) : Prop :=
  ∀ name, is_Some (agentImages_nodeImage w !! name) ↔
          is_Some (agentImages_clusterImage w !! name).

(** [w'] holds for [name] what [w] holds, in all three maps. *)
Definition sameEntries (name : string) (w w' : World) : Prop :=
  agentImages_nodeImage w' !! name = agentImages_nodeImage w !! name ∧
  agentImages_clusterImage w' !! name = agentImages_clusterImage w !! name ∧
  controlPlaneTaints w' !! name = controlPlaneTaints w !! name.

(** The predicate survives the recording of a pass event. *)
Definition stable (R : World → Prop) : Prop :=
  ∀ e w, passEvent e = true → R w → R (record e w).



(** The caches hold entries for another cluster, [c-2], only. *)
Definition otherClusterWorld : World :=
  {| agentImages_nodeImage := {[ "c-2" := agentV2 ]};
     agentImages_clusterImage := {[ "c-2" := agentV2 ]};
     controlPlaneTaints := {[ "c-2" := Some [masterTaint] ]};
     trace := [] |}.

(** One control-plane node, and a push that never succeeds. *)
Definition stuckEnv : Env :=
  envWith [masterNode] "https://rancher.example" ([], None)
          (λ _, ("forbidden", Some notReady)) (λ _ _, ("deleted", None)).

(** * The catalog operation handler (package catalog)

    [ServeHTTP] routes a chart action to the Helm operations and answers the
    request.  The request carries what the handler reads of it: the user,
    if any, the action, the link, and the namespace and name that
    [nsAndName] extracts.  What the handler does is the list of its calls
    and writes, in order. *)
Module Catalog.

Record Operation := {
  Operation_Name : string;
  Operation_Namespace : string;
}.

Record Request := {
  User : option string;
  Action : string;
  Link : string;
  Namespace : string;
  RequestName : string;
  Body : string;
}.

(** The Helm operations: each action yields an operation or an error. *)
Record Operations := {
  Install : string → string → string → string → string → option Operation * option error;
  Upgrade : string → string → string → string → string → option Operation * option error;
  Uninstall : string → string → string → string → string → option Operation * option error;
  Log : string → string → option error;
}.

Inductive Effect :=
  | Called (action user ns name body imageOverride : string)
  | CalledLog (ns name : string)
  | WriteError (e : error)
  | WriteResponse (status : Z) (operationName operationNamespace : string).

Definition Unauthorized : error := New "Unauthorized".
Definition StatusCreated : Z := 201.

(** [newOperation]: the shell image comes from the cluster registry when one
    is given; [shellImage] is the setting. *)
Definition newOperation (shellImage clusterRegistry : string) : string :=
  if negb (bool_decide (clusterRegistry = EmptyString))
  then clusterRegistry ++ "/" ++ shellImage
  else EmptyString.

Definition ServeHTTP (ops : Operations) (imageOverride : string) (req : Request)
    : list Effect :=
  match User req with
  | None => [WriteError Unauthorized]
  | Some user =>
      let ns := Namespace req in
      let name := RequestName req in
      let '(op, err, called) :=
        if bool_decide (Action req = "install") then
          (Install ops user ns name (Body req) imageOverride,
           [Called "install" user ns name (Body req) imageOverride])
        else if bool_decide (Action req = "upgrade") then
          (Upgrade ops user ns name (Body req) imageOverride,
           [Called "upgrade" user ns name (Body req) imageOverride])
        else if bool_decide (Action req = "uninstall") then
          (Uninstall ops user ns name (Body req) imageOverride,
           [Called "uninstall" user ns name (Body req) imageOverride])
        else ((None, None), []) in
      let '(err, logged) :=
        if bool_decide (Link req = "logs")
        then (Log ops (Namespace req) (RequestName req),
              [CalledLog (Namespace req) (RequestName req)])
        else (err, []) in
      (called ++ logged ++
       match err with
       | Some e => [WriteError e]
       | None =>
           match op with
           | None => []
           | Some op =>
               [WriteResponse StatusCreated (Operation_Name op)
                              (Operation_Namespace op)]
           end
       end)%list
  end.

(** The effect is a write of the answer. *)
Definition isWrite (e : Effect) : bool :=
  match e with
  | WriteError _ | WriteResponse _ _ _ => true
  | _ => false
  end.

(** What the action of the request yields, when it is one of the three. *)
Definition actionResult (ops : Operations) (imageOverride : string) (req : Request)
    (user : string) : option Operation * option error :=
  if bool_decide (Action req = "install") then
    Install ops user (Namespace req) (RequestName req) (Body req) imageOverride
  else if bool_decide (Action req = "upgrade") then
    Upgrade ops user (Namespace req) (RequestName req) (Body req) imageOverride
  else if bool_decide (Action req = "uninstall") then
    Uninstall ops user (Namespace req) (RequestName req) (Body req) imageOverride
  else (None, None).

(** The action of the request is one the handler knows. *)
Definition knownAction (req : Request) : bool :=
  bool_decide (Action req = "install") || bool_decide (Action req = "upgrade")
  || bool_decide (Action req = "uninstall").

(** The answer written for an operation and an error. *)
Definition answer (op : option Operation) (err : option error) : list Effect :=
  match err with
  | Some e => [WriteError e]
  | None =>
      match op with
      | None => []
      | Some op =>
          [WriteResponse StatusCreated (Operation_Name op) (Operation_Namespace op)]
      end
  end.

(** Every action fails, and the log can be read. *)
Definition failingOps : Operations :=
  {| Install := λ _ _ _ _ _, (None, Some (New "chart not found"));
     Upgrade := λ _ _ _ _ _, (None, Some (New "chart not found"));
     Uninstall := λ _ _ _ _ _, (None, Some (New "release not found"));
     Log := λ _ _, None |}.

Definition installRequest (user : option string) (link : string) : Request :=
  {| User := user; Action := "install"; Link := link;
     Namespace := "cattle-system"; RequestName := "rancher-charts";
     Body := "{}" |}.

End Catalog.

(** A cluster that asks for an image of its own. *)
Definition overrideSpec : ClusterSpec :=
  {| Internal := false; LocalClusterAuthEndpoint_Enabled := false;
     RKEConfig := None; AgentImageOverride := "mirror.example/rancher-agent:v2";
     DesiredAgentImage := "fixed"; DesiredAuthImage := "fixed";
     AgentEnvVars := None; EnableNetworkPolicy := None;
     WindowsPreferedCluster := false |}.

Definition deployCalled (cluster : Cluster) : Event :=
  EvTracef ("clusterDeploy: deployAgent called for [" ++ Name cluster ++ "]").

(** * Properties *)

(** ** Feature flags *)

Section FeatureDiff.

Lemma range_mismatch_false entries other :
  range_mismatch entries other = false ↔
  ∀ k v, (k, v) ∈ entries → go_index false other k = v.
Proof.
  induction entries as [|[k v] rest IH]; simpl.
  - split; [intros _ k v Hin; inversion Hin | done].
  - destruct (eqb (go_index false other k) v) eqn:E; simpl.
    + apply eqb_prop in E. rewrite IH. split.
      * intros H k' v' Hin. apply elem_of_cons in Hin as [[= -> ->]|Hin]; auto.
      * intros H k' v' Hin. apply H. by right.
    + split; [done|]. intros H.
      rewrite (H k v) in E by left.
      by rewrite eqb_reflx in E.
Qed.

(** Go leaves the iteration order of a map unspecified: the loop's verdict
    is the same for every order of the same entries. *)
Lemma range_mismatch_order entries entries' other :
  entries ≡ₚ entries' →
  range_mismatch entries other = range_mismatch entries' other.
Proof.
  intros HP.
  destruct (range_mismatch entries other) eqn:E1,
           (range_mismatch entries' other) eqn:E2; try done.
  - pose proof (proj1 (range_mismatch_false _ _) E2) as H2.
    assert (range_mismatch entries other = false) as E; [|congruence].
    apply range_mismatch_false. intros k v Hin. apply H2. by rewrite <- HP.
  - pose proof (proj1 (range_mismatch_false _ _) E1) as H1.
    assert (range_mismatch entries' other = false) as E; [|congruence].
    apply range_mismatch_false. intros k v Hin. apply H1. by rewrite HP.
Qed.

Lemma elem_of_go_range (m : gomap bool) k v :
  (k, v) ∈ go_range m ↔ ∃ g, m = Some g ∧ g !! k = Some v.
Proof.
  destruct m as [g|]; simpl.
  - rewrite elem_of_map_to_list. split.
    + intros Hk. by exists g.
    + by intros (g' & [= <-] & Hk).
  - split; [intros H; inversion H | by intros (g & Hg & _)].
Qed.

Lemma present_spec (m : gomap bool) k :
  present m k ↔ ∃ v, (k, v) ∈ go_range m.
Proof.
  unfold present, go_has. destruct m as [g|]; simpl.
  - rewrite bool_decide_eq_true. unfold is_Some.
    by setoid_rewrite elem_of_map_to_list.
  - split; [done | intros [v H]; inversion H].
Qed.

Lemma effective_of_entry (m : gomap bool) k v :
  (k, v) ∈ go_range m → effective m k = v.
Proof.
  intros (g & -> & Hk)%elem_of_go_range.
  unfold effective, go_index. by rewrite Hk.
Qed.

End FeatureDiff.

(** C2: [agentFeaturesChanged desired actual] is false exactly when every key
    present in either map has the same effective value in both maps, a
    missing key counting as false. *)
Theorem agentFeaturesChanged_false_iff (desired actual : gomap bool) :
  agentFeaturesChanged desired actual = false ↔
  ∀ k, present desired k ∨ present actual k →
       effective desired k = effective actual k.
Proof.
  unfold agentFeaturesChanged.
  destruct (range_mismatch (go_range desired) actual) eqn:E1.
  - split; [done|]. intros H. exfalso.
    assert (range_mismatch (go_range desired) actual = false) as E; [|congruence].
    apply range_mismatch_false. intros k v Hin.
    rewrite <- (effective_of_entry _ _ _ Hin). symmetry. apply H.
    left. apply present_spec. eauto.
  - destruct (range_mismatch (go_range actual) desired) eqn:E2.
    + split; [done|]. intros H. exfalso.
      assert (range_mismatch (go_range actual) desired = false) as E; [|congruence].
      apply range_mismatch_false. intros k v Hin.
      rewrite <- (effective_of_entry _ _ _ Hin). apply H.
      right. apply present_spec. eauto.
    + split; [|done]. intros _ k [Hk|Hk].
      * apply present_spec in Hk as [v Hin].
        rewrite (effective_of_entry _ _ _ Hin).
        symmetry. exact (proj1 (range_mismatch_false _ _) E1 k v Hin).
      * apply present_spec in Hk as [v Hin].
        rewrite (effective_of_entry _ _ _ Hin).
        exact (proj1 (range_mismatch_false _ _) E2 k v Hin).
Qed.

(** ** Running the controller *)

Ltac run :=
  repeat (unfold mbind, M_bind, mret, M_ret, call, logrus_Tracef, time_Sleep,
          panic; simpl).

(** ** The redeploy decision *)

(** The decision, step by step: first deploy, then the facets read off the
    cluster object, then the cached images, then the cached taints, then the
    environment variables. *)
Lemma redeployAgent_steps (env : Env) (cluster : Cluster)
    (desiredAgent desiredAuth : string) (desiredFeatures : gomap bool)
    (desiredTaints : slice Taint) (w : World) :
  redeployAgent env cluster desiredAgent desiredAuth desiredFeatures desiredTaints w =
  if negb (cond_IsTrue ClusterConditionAgentDeployed cluster)
  then Ret true (after [redeployCalled cluster] w)
  else if statusFacetsChanged env cluster desiredAgent desiredAuth desiredFeatures
  then Ret true (after [redeployCalled cluster] w)
  else if imageMismatch cluster w
  then Ret true (withoutImages (Name cluster)
         [redeployCalled cluster;
          EvTracef ("clusterDeploy: clearAgentImages called for [" ++ Name cluster ++ "]")] w)
  else if taintMismatch env cluster desiredTaints w
  then Ret true (withoutTaints (Name cluster)
         [redeployCalled cluster;
          EvTracef ("clusterDeploy: clearControlPlaneTaints called for ["
                    ++ Name cluster ++ "]")] w)
  else Ret (negb (reflect_DeepEqual (AgentEnvVars (Spec cluster))
                                    (AppliedAgentEnvVars (Status cluster))))
           (after [redeployCalled cluster] w).
Proof.
  unfold redeployAgent, statusFacetsChanged, imageMismatch, taintMismatch.
  run.
  destruct (negb (cond_IsTrue _ _)); [done|].
  match goal with |- context [if ?b then Ret true _ else _] => destruct b end;
    [done|].
  unfold getAgentImages; run.
  match goal with |- context [if ?b then _ else _] => destruct b end.
  - unfold clearAgentImages, deleteAgentImages, withoutImages; run.
    by rewrite <- app_assoc.
  - unfold getCachedTaints; run.
    destruct (GetToDiffTaints env _ desiredTaints) as [toAdd toDelete].
    match goal with |- context [if ?b then _ else _] => destruct b end.
    + unfold clearControlPlaneTaints, deleteControlPlaneTaints, withoutTaints; run.
      by rewrite <- app_assoc.
    + by destruct (negb (reflect_DeepEqual _ _)).
Qed.


(** C8: while the AgentDeployed condition is not true, the decision is to
    redeploy, whatever the images, features, taints, registry, environment
    variables and force-deploy marker are. *)
Theorem redeployAgent_first_deploy (env : Env) (cluster : Cluster)
    (desiredAgent desiredAuth : string) (desiredFeatures : gomap bool)
    (desiredTaints : slice Taint) (w : World) :
  cond_IsTrue ClusterConditionAgentDeployed cluster = false →
  redeployAgent env cluster desiredAgent desiredAuth desiredFeatures desiredTaints w
  = Ret true (after [redeployCalled cluster] w).
Proof.
  intros H. unfold redeployAgent. run. by rewrite H.
Qed.

(** A cluster that has never been deployed to is redeployed, although its
    recorded image is the desired one and nothing else differs. *)
Lemma redeployAgent_first_deploy_witness :
  cond_IsTrue ClusterConditionAgentDeployed freshCluster = false ∧
  redeployAgent quietEnv freshCluster agentV2 EmptyString (Some ∅) None
                (cachedWorld agentV2 agentV2 None)
  = Ret true (after [redeployCalled freshCluster] (cachedWorld agentV2 agentV2 None)).
Proof.
  split; [reflexivity|].
  apply redeployAgent_first_deploy. reflexivity.
Defined.

(** C9: the decision depends on its arguments and on the caches only: two
    invocations with the same cluster and desired images, features and
    taints, on states that hold the same caches, both return, and return the
    same boolean. *)
Theorem redeployAgent_deterministic (env : Env) (cluster : Cluster)
    (desiredAgent desiredAuth : string) (desiredFeatures : gomap bool)
    (desiredTaints : slice Taint) (w1 w2 : World) :
  sameCaches w1 w2 →
  ∃ b : bool,
    returned (redeployAgent env cluster desiredAgent desiredAuth
                            desiredFeatures desiredTaints w1) = Some b ∧
    returned (redeployAgent env cluster desiredAgent desiredAuth
                            desiredFeatures desiredTaints w2) = Some b.
Proof.
  intros (Hn & Hc & Ht).
  rewrite !redeployAgent_steps.
  unfold imageMismatch, taintMismatch. rewrite Hn, Hc, Ht.
  destruct (negb (cond_IsTrue _ _)); [by exists true|].
  destruct (statusFacetsChanged _ _ _ _ _); [by exists true|].
  match goal with |- context [if ?b then _ else _] => destruct b end;
    [by exists true|].
  match goal with |- context [if ?b then _ else _] => destruct b end;
    [by exists true|].
  eexists; split; reflexivity.
Qed.

(** Two passes over an up-to-date cluster, the second after the first has
    recorded its events: both decide not to redeploy. *)
Lemma redeployAgent_deterministic_witness :
  sameCaches (cachedWorld agentV2 agentV2 None)
             (after [redeployCalled (deployedCluster emptySpec emptySpec)]
                    (cachedWorld agentV2 agentV2 None)) ∧
  ∃ b : bool,
    returned (redeployAgent quietEnv (deployedCluster emptySpec emptySpec)
                agentV2 EmptyString (Some ∅) None
                (cachedWorld agentV2 agentV2 None)) = Some b ∧
    returned (redeployAgent quietEnv (deployedCluster emptySpec emptySpec)
                agentV2 EmptyString (Some ∅) None
                (after [redeployCalled (deployedCluster emptySpec emptySpec)]
                       (cachedWorld agentV2 agentV2 None))) = Some b.
Proof.
  split; [by repeat split|].
  apply redeployAgent_deterministic. by repeat split.
Defined.

(** Scenario 2 of the spec: deployed, same images, no features, same taints,
    same environment variables, no force-deploy marker: no redeploy. *)
Example redeployAgent_up_to_date :
  returned (redeployAgent quietEnv (deployedCluster emptySpec emptySpec)
              agentV2 EmptyString (Some ∅) None (cachedWorld agentV2 agentV2 None))
  = Some false.
Proof. vm_compute. reflexivity. Qed.

(** The boundary of the determinism above: a pass that finds the cached
    taints stale deletes them, and on the caches it leaves behind the same
    call decides otherwise. *)
Example redeployAgent_after_invalidation :
  ∃ w',
    redeployAgent quietEnv (deployedCluster emptySpec emptySpec)
      agentV2 EmptyString (Some ∅) None
      (cachedWorld agentV2 agentV2 (Some [masterTaint])) = Ret true w' ∧
    returned (redeployAgent quietEnv (deployedCluster emptySpec emptySpec)
                agentV2 EmptyString (Some ∅) None w') = Some false.
Proof. eexists. split; vm_compute; reflexivity. Qed.

(** ** The private registry *)

Lemma repoChange_applied (env : Env) (c : Cluster)
    (desired : RancherKubernetesEngineConfig) (applied : PrivateRegistry) :
  RKEConfig (Spec c) = Some desired →
  appliedRepo c = Some applied →
  repoChange env c = negb (bool_decide (GetPrivateRepo env c = Some applied)).
Proof.
  unfold repoChange, appliedRepo. intros -> Happlied.
  destruct (RKEConfig (AppliedSpec (Status c))) as [rke|]; [|done].
  destruct (elems (PrivateRegistries rke)) as [|first rest]; [done|].
  simpl in Happlied. injection Happlied as ->.
  unfold reflect_DeepEqual.
  destruct (GetPrivateRepo env c) as [desiredRepo|]; simpl.
  - destruct (decide (Some desiredRepo = Some applied)) as [Heq|Hne].
    + by rewrite !bool_decide_eq_true_2.
    + by rewrite !bool_decide_eq_false_2.
  - done.
Qed.

(** What [repoChange] computes.  The registries are compared only when the
    last-applied spec records one.  When it records none, no private-registry
    change is reported, whether a registry is desired or not (so none is
    reported when both are nil), and none is reported when the desired spec
    has no engine configuration; when the last-applied spec records one and
    the desired spec has an engine configuration, a change is reported
    exactly when the desired registry is nil or differs from the recorded
    one. *)
Theorem repoChange_needs_applied_registry (env : Env) (c : Cluster) :
  (appliedRepo c = None → repoChange env c = false) ∧
  (RKEConfig (Spec c) = None → repoChange env c = false) ∧
  (∀ desired applied,
     RKEConfig (Spec c) = Some desired →
     appliedRepo c = Some applied →
     (repoChange env c = true ↔ GetPrivateRepo env c ≠ Some applied)).
Proof.
  split.
  - unfold repoChange, appliedRepo. intros Hnone.
    destruct (RKEConfig (Spec c)); [|done].
    destruct (RKEConfig (AppliedSpec (Status c))) as [rke|]; [|done].
    by destruct (elems (PrivateRegistries rke)).
  - split; [unfold repoChange; by intros ->|].
    intros desired applied Hspec Happlied.
    rewrite (repoChange_applied env c desired applied Hspec Happlied).
    rewrite negb_true_iff, bool_decide_eq_false. done.
Qed.

(** C1, at a deployed cluster whose desired spec lists a private registry
    while its last-applied spec lists none: the desired registry is non-nil
    and no applied registry is recorded, yet [repoChange] is false, and with
    nothing else changed the decision is not to redeploy.  The source does
    test for this case ([desiredRepo != nil && appliedRepo == nil] sets
    [repoChange]), but inside the guard on the recorded registries, where
    [appliedRepo] is the address of the first of them and is never nil. *)
Lemma repoChange_registry_added :
  GetPrivateRepo quietEnv registryAdded = Some sampleRegistry ∧
  appliedRepo registryAdded = None ∧
  repoChange quietEnv registryAdded = false ∧
  returned (redeployAgent quietEnv registryAdded agentV2 EmptyString (Some ∅) None
              (cachedWorld agentV2 agentV2 None)) = Some false.
Proof. repeat split; vm_compute; reflexivity. Qed.

(** The sibling case, which the same test does report: the recorded registry
    is no longer desired. *)
Lemma repoChange_needs_applied_registry_witness :
  RKEConfig (Spec registryRemoved) = Some (engineConfig None "x509") ∧
  appliedRepo registryRemoved = Some sampleRegistry ∧
  (repoChange quietEnv registryRemoved = true ↔
   GetPrivateRepo quietEnv registryRemoved ≠ Some sampleRegistry).
Proof.
  split; [reflexivity|]. split; [reflexivity|].
  apply (proj2 (proj2 (repoChange_needs_applied_registry quietEnv registryRemoved))
               (engineConfig None "x509") sampleRegistry); reflexivity.
Defined.

Example repoChange_registry_removed :
  repoChange quietEnv registryRemoved = true.
Proof. vm_compute. reflexivity. Qed.

(** ** The local cluster *)

(** C10: for a cluster marked internal, [deployAgent] returns success at
    once: the cluster comes back as it was, and so does the state, with its
    caches and its trace, so that no decision was evaluated, nothing was
    rendered or applied, and no collaborator was called. *)
Theorem deployAgent_internal (env : Env) (cluster : Cluster) (w : World) :
  Internal (Spec cluster) = true →
  deployAgent env cluster w = Ret (cluster, None) w.
Proof.
  intros Hinternal. unfold deployAgent. rewrite Hinternal. reflexivity.
Qed.

Lemma deployAgent_internal_witness :
  Internal (Spec localCluster) = true ∧
  deployAgent quietEnv localCluster (cachedWorld agentV2 agentV2 None)
  = Ret (localCluster, None) (cachedWorld agentV2 agentV2 None).
Proof.
  split; [reflexivity|]. apply deployAgent_internal. reflexivity.
Defined.

(** ** The caches *)

Lemma clearAgentImages_run (name : string) (w : World) :
  clearAgentImages name w
  = Ret () (withoutImages name
      [EvTracef ("clusterDeploy: clearAgentImages called for [" ++ name ++ "]")] w).
Proof. unfold clearAgentImages, deleteAgentImages. run. reflexivity. Qed.

Lemma clearControlPlaneTaints_run (name : string) (w : World) :
  clearControlPlaneTaints name w
  = Ret () (withoutTaints name
      [EvTracef ("clusterDeploy: clearControlPlaneTaints called for [" ++ name ++ "]")] w).
Proof. unfold clearControlPlaneTaints, deleteControlPlaneTaints. run. reflexivity. Qed.

(** Once the image entries of [name] are deleted, the cache reads as empty
    strings and counts as not cached. *)
Lemma withoutImages_reads (name : string) (evs : list Event) (w : World) :
  agentImages_nodeImage (withoutImages name evs w) !! name = None ∧
  agentImages_clusterImage (withoutImages name evs w) !! name = None ∧
  returned (getAgentImages name (withoutImages name evs w))
    = Some (EmptyString, EmptyString) ∧
  returned (agentImagesCached name (withoutImages name evs w)) = Some false.
Proof.
  unfold agentImagesCached, getAgentImages. run.
  rewrite !lookup_delete_eq. done.
Qed.

(** Once the taint entry of [name] is deleted, it counts as not cached. *)
Lemma withoutTaints_reads (name : string) (evs : list Event) (w : World) :
  controlPlaneTaints (withoutTaints name evs w) !! name = None ∧
  returned (getCachedTaints name (withoutTaints name evs w)) = Some None ∧
  returned (controlPlaneTaintsCached name (withoutTaints name evs w)) = Some false.
Proof.
  unfold getCachedTaints, controlPlaneTaintsCached. simpl.
  rewrite !lookup_delete_eq. by repeat split.
Qed.

(** C3, as the code has it.  Clearing deletes the entries: the maps hold
    nothing for the name, [getAgentImages] returns empty strings,
    [getCachedTaints] returns nil, and both presence checks report not
    cached; a decision that returns true for an image or taint mismatch
    leaves the corresponding entry absent.  A set is read back as it was
    made, and [agentImagesCached] reports cached exactly when both images are
    non-empty, [controlPlaneTaintsCached] for any list, nil included.  Hence
    the gets do not tell a cached empty value from an absent entry: with
    empty strings cached, [getAgentImages] and [agentImagesCached] answer as
    they do once the entry is cleared, and with a nil list cached so does
    [getCachedTaints]; only [controlPlaneTaintsCached] tells the two
    apart. *)
Theorem cache_clear_removes_entry (env : Env) (cluster : Cluster)
    (desiredAgent desiredAuth : string) (desiredFeatures : gomap bool)
    (desiredTaints : slice Taint) (name : string) (w : World) :
  (∃ w', clearAgentImages name w = Ret () w' ∧
         agentImages_nodeImage w' !! name = None ∧
         agentImages_clusterImage w' !! name = None ∧
         returned (getAgentImages name w') = Some (EmptyString, EmptyString) ∧
         returned (agentImagesCached name w') = Some false) ∧
  (∃ w', clearControlPlaneTaints name w = Ret () w' ∧
         controlPlaneTaints w' !! name = None ∧
         returned (getCachedTaints name w') = Some None ∧
         returned (controlPlaneTaintsCached name w') = Some false) ∧
  (∀ taints : slice Taint,
     ∃ w', setControlPlaneTaints name taints w = Ret () w' ∧
           controlPlaneTaints w' !! name = Some taints ∧
           returned (getCachedTaints name w') = Some taints ∧
           returned (controlPlaneTaintsCached name w') = Some true) ∧
  (cond_IsTrue ClusterConditionAgentDeployed cluster = true →
   statusFacetsChanged env cluster desiredAgent desiredAuth desiredFeatures = false →
   imageMismatch cluster w = true →
   ∃ w', redeployAgent env cluster desiredAgent desiredAuth desiredFeatures
                       desiredTaints w = Ret true w' ∧
         agentImages_nodeImage w' !! Name cluster = None ∧
         agentImages_clusterImage w' !! Name cluster = None ∧
         returned (agentImagesCached (Name cluster) w') = Some false) ∧
  (cond_IsTrue ClusterConditionAgentDeployed cluster = true →
   statusFacetsChanged env cluster desiredAgent desiredAuth desiredFeatures = false →
   imageMismatch cluster w = false →
   taintMismatch env cluster desiredTaints w = true →
   ∃ w', redeployAgent env cluster desiredAgent desiredAuth desiredFeatures
                       desiredTaints w = Ret true w' ∧
         controlPlaneTaints w' !! Name cluster = None ∧
         returned (controlPlaneTaintsCached (Name cluster) w') = Some false) ∧
  (∀ na ca : string,
     ∃ w', setAgentImages name na ca w = Ret () w' ∧
           agentImages_nodeImage w' !! name = Some na ∧
           agentImages_clusterImage w' !! name = Some ca ∧
           returned (getAgentImages name w') = Some (na, ca) ∧
           returned (agentImagesCached name w')
           = Some (negb (bool_decide (na = EmptyString))
                   && negb (bool_decide (ca = EmptyString)))) ∧
  (∃ cached cleared,
     setAgentImages name EmptyString EmptyString w = Ret () cached ∧
     clearAgentImages name w = Ret () cleared ∧
     agentImages_nodeImage cached !! name = Some EmptyString ∧
     agentImages_clusterImage cached !! name = Some EmptyString ∧
     agentImages_nodeImage cleared !! name = None ∧
     agentImages_clusterImage cleared !! name = None ∧
     returned (getAgentImages name cached) = returned (getAgentImages name cleared) ∧
     returned (agentImagesCached name cached)
     = returned (agentImagesCached name cleared)) ∧
  (∃ cached cleared,
     setControlPlaneTaints name None w = Ret () cached ∧
     clearControlPlaneTaints name w = Ret () cleared ∧
     controlPlaneTaints cached !! name = Some None ∧
     controlPlaneTaints cleared !! name = None ∧
     returned (getCachedTaints name cached) = returned (getCachedTaints name cleared) ∧
     returned (controlPlaneTaintsCached name cached) = Some true ∧
     returned (controlPlaneTaintsCached name cleared) = Some false).
Proof.
  split; [|split; [|split; [|split; [|split; [|split; [|split]]]]]].
  - eexists. split; [apply clearAgentImages_run|].
    apply withoutImages_reads.
  - eexists. split; [apply clearControlPlaneTaints_run|].
    apply withoutTaints_reads.
  - intros taints. eexists. split; [reflexivity|].
    unfold getCachedTaints, controlPlaneTaintsCached. simpl.
    rewrite !lookup_insert_eq. by repeat split.
  - intros Hdeployed Hfacets Himages.
    rewrite redeployAgent_steps, Hdeployed, Hfacets, Himages. simpl.
    eexists. split; [reflexivity|].
    destruct (withoutImages_reads (Name cluster)
      [redeployCalled cluster;
       EvTracef ("clusterDeploy: clearAgentImages called for [" ++ Name cluster ++ "]")] w)
      as (Hn & Hc & _ & Hcached).
    by repeat split.
  - intros Hdeployed Hfacets Himages Htaints.
    rewrite redeployAgent_steps, Hdeployed, Hfacets, Himages, Htaints. simpl.
    eexists. split; [reflexivity|].
    destruct (withoutTaints_reads (Name cluster)
      [redeployCalled cluster;
       EvTracef ("clusterDeploy: clearControlPlaneTaints called for ["
                 ++ Name cluster ++ "]")] w)
      as (Habsent & _ & Hcached).
    by split.
  - intros na ca. eexists. split; [reflexivity|].
    unfold agentImagesCached, getAgentImages. run.
    rewrite !lookup_insert_eq. done.
  - eexists. eexists. split; [reflexivity|].
    split; [apply clearAgentImages_run|].
    destruct (withoutImages_reads name
      [EvTracef ("clusterDeploy: clearAgentImages called for [" ++ name ++ "]")] w)
      as (Hn & Hc & Hget & Hcached).
    rewrite Hget, Hcached.
    unfold agentImagesCached, getAgentImages. run.
    rewrite !lookup_insert_eq. done.
  - eexists. eexists. split; [reflexivity|].
    split; [apply clearControlPlaneTaints_run|].
    destruct (withoutTaints_reads name
      [EvTracef ("clusterDeploy: clearControlPlaneTaints called for [" ++ name ++ "]")] w)
      as (Habsent & Hget & Hcached).
    rewrite Hget.
    unfold getCachedTaints, controlPlaneTaintsCached. simpl.
    rewrite !lookup_insert_eq. by repeat split.
Qed.

(** An entry caching empty values ([cacheAgentImages] stores empty strings
    when the workloads are not found, [cacheControlPlaneTaints] a nil list
    when no control-plane node is tainted) reads, through the gets, exactly
    as the absent entry that clearing leaves behind. *)
Lemma cache_get_cannot_tell_empty_from_absent :
  ∃ cleared,
    clearAgentImages "c-1" (cachedWorld EmptyString EmptyString None) = Ret () cleared ∧
    agentImages_nodeImage (cachedWorld EmptyString EmptyString None) !! "c-1"
      = Some EmptyString ∧
    agentImages_nodeImage cleared !! "c-1" = None ∧
    returned (getAgentImages "c-1" cleared)
      = returned (getAgentImages "c-1" (cachedWorld EmptyString EmptyString None)) ∧
    returned (agentImagesCached "c-1" cleared)
      = returned (agentImagesCached "c-1" (cachedWorld EmptyString EmptyString None)) ∧
    returned (getCachedTaints "c-1" emptyWorld)
      = returned (getCachedTaints "c-1" (cachedWorld EmptyString EmptyString None)).
Proof. eexists. repeat split; vm_compute; reflexivity. Qed.

(** A deployed cluster whose cached cluster-agent image is out of date, and
    one whose cached taints are: the decision is to redeploy, and the entry
    is gone. *)
Lemma cache_clear_removes_entry_witness :
  (∃ w', redeployAgent quietEnv (deployedCluster emptySpec emptySpec)
           agentV2 EmptyString (Some ∅) None
           (cachedWorld agentV2 "rancher/rancher-agent:v1" None) = Ret true w' ∧
         agentImages_nodeImage w' !! "c-1" = None ∧
         agentImages_clusterImage w' !! "c-1" = None ∧
         returned (agentImagesCached "c-1" w') = Some false) ∧
  (∃ w', redeployAgent quietEnv (deployedCluster emptySpec emptySpec)
           agentV2 EmptyString (Some ∅) None
           (cachedWorld agentV2 agentV2 (Some [masterTaint])) = Ret true w' ∧
         controlPlaneTaints w' !! "c-1" = None ∧
         returned (controlPlaneTaintsCached "c-1" w') = Some false).
Proof.
  split.
  - apply (proj1 (proj2 (proj2 (proj2
      (cache_clear_removes_entry quietEnv (deployedCluster emptySpec emptySpec)
         agentV2 EmptyString (Some ∅) None "c-1"
         (cachedWorld agentV2 "rancher/rancher-agent:v1" None))))));
      reflexivity.
  - apply (proj1 (proj2 (proj2 (proj2 (proj2
      (cache_clear_removes_entry quietEnv (deployedCluster emptySpec emptySpec)
         agentV2 EmptyString (Some ∅) None "c-1"
         (cachedWorld agentV2 agentV2 (Some [masterTaint]))))))));
      reflexivity.
Defined.

(** ** The reconcile pass *)

Lemma doSync_not_provisioned (env : Env) (cluster : Cluster) (w : World) :
  cond_IsTrue ClusterConditionProvisioned cluster = false →
  doSync env cluster w = Ret (cluster, None) (after [doSyncCalled cluster] w).
Proof.
  intros Hprov. unfold doSync. run. by rewrite Hprov.
Qed.

Lemma set_Strategy_same (rke : RancherKubernetesEngineConfig) :
  set_Strategy (Authentication_Strategy rke) rke = rke.
Proof. by destruct rke. Qed.

Lemma withStrategy_same (rke : RancherKubernetesEngineConfig) (cluster : Cluster) :
  RKEConfig (Spec cluster) = Some rke →
  withStrategy (Authentication_Strategy rke) rke cluster = cluster.
Proof.
  intros Hrke. unfold withStrategy. rewrite set_Strategy_same.
  destruct cluster as [n d a sp st]. destruct sp. simpl in *. by subst.
Qed.

Lemma withStrategy_changed (strategy : string)
    (rke : RancherKubernetesEngineConfig) (cluster : Cluster) :
  RKEConfig (Spec cluster) = Some rke →
  Authentication_Strategy rke ≠ strategy →
  withStrategy strategy rke cluster ≠ cluster.
Proof.
  intros Hrke Hne Heq. apply Hne.
  assert (RKEConfig (Spec (withStrategy strategy rke cluster)) = Some rke) as H
    by (by rewrite Heq).
  simpl in H. by injection H as <-.
Qed.

(** C5, as the code has it.  While the Provisioned condition is not true,
    [doSync] returns success and leaves its cluster as it was.  [sync] has by
    then set the authentication strategy of an RKE cluster on its working
    copy: when the driver is not RKE, or the strategy already is the one the
    auth-endpoint toggle asks for, the copy equals the original, nothing is
    written back and the pass returns success, having called no collaborator;
    otherwise the copy, which differs in that strategy only, is written back
    and the pass returns what the write returns. *)
Theorem sync_not_provisioned (env : Env) (key : string) (cluster : Cluster)
    (w : World) :
  DeletionTimestamp cluster = None →
  cond_IsTrue ClusterConditionProvisioned cluster = false →
  doSync env cluster w = Ret (cluster, None) (after [doSyncCalled cluster] w) ∧
  (Driver (Status cluster) ≠ ClusterDriverRKE →
   sync env key (Some cluster) w
   = Ret None (after [syncCalled key; doSyncCalled cluster] w)) ∧
  (∀ rke,
     Driver (Status cluster) = ClusterDriverRKE →
     RKEConfig (Spec cluster) = Some rke →
     Authentication_Strategy rke = authStrategy cluster →
     sync env key (Some cluster) w
     = Ret None (after [syncCalled key; doSyncCalled cluster] w)) ∧
  (∀ rke,
     Driver (Status cluster) = ClusterDriverRKE →
     RKEConfig (Spec cluster) = Some rke →
     Authentication_Strategy rke ≠ authStrategy cluster →
     let copy := withStrategy (authStrategy cluster) rke cluster in
     sync env key (Some cluster) w
     = Ret (clusters_Update env
              (trace (after [syncCalled key; doSyncCalled cluster] w)) copy)
           (after [syncCalled key; doSyncCalled cluster; EvUpdate copy] w)).
Proof.
  intros Hlive Hprov.
  split; [by apply doSync_not_provisioned|].
  assert (∀ w0, sync env key (Some cluster) w0 =
    match setAuthStrategy cluster (after [syncCalled key] w0) with
    | Panic => Panic
    | Ret copy w1 =>
        match doSync env copy w1 with
        | Panic => Panic
        | Ret (copy', err) w2 =>
            if negb (reflect_DeepEqual copy' cluster)
            then Ret (match err with
                      | Some e => Some e
                      | None => clusters_Update env (trace w2) copy'
                      end) (after [EvUpdate copy'] w2)
            else Ret err w2
        end
    end) as Hsync.
  { intros w0. unfold sync. run. rewrite Hlive. simpl.
    destruct (setAuthStrategy cluster _) as [|copy w1]; [done|].
    destruct (doSync env copy w1) as [|[copy' err] w2]; [done|].
    destruct (negb (reflect_DeepEqual copy' cluster)); simpl.
    - by destruct err.
    - by destruct err. }
  split; [|split].
  - intros Hdriver. rewrite Hsync. unfold setAuthStrategy.
    rewrite bool_decide_eq_false_2 by done. run.
    rewrite doSync_not_provisioned by done.
    unfold reflect_DeepEqual. rewrite bool_decide_eq_true_2 by done. simpl.
    unfold after. simpl. by rewrite <- app_assoc.
  - intros rke Hdriver Hrke Hsame. rewrite Hsync. unfold setAuthStrategy.
    rewrite bool_decide_eq_true_2 by done. rewrite Hrke. run.
    rewrite <- Hsame.
    change (set_Spec (set_RKEConfig (Some (set_Strategy (Authentication_Strategy rke) rke)))
              cluster) with (withStrategy (Authentication_Strategy rke) rke cluster).
    rewrite withStrategy_same by done.
    rewrite doSync_not_provisioned by done.
    unfold reflect_DeepEqual. rewrite bool_decide_eq_true_2 by done. simpl.
    unfold after. simpl. by rewrite <- app_assoc.
  - intros rke Hdriver Hrke Hdiff copy. rewrite Hsync. unfold setAuthStrategy.
    rewrite bool_decide_eq_true_2 by done. rewrite Hrke. run.
    change (set_Spec (set_RKEConfig (Some (set_Strategy (authStrategy cluster) rke)))
              cluster) with copy.
    rewrite doSync_not_provisioned by done.
    unfold reflect_DeepEqual.
    rewrite bool_decide_eq_false_2 by (by apply withStrategy_changed).
    simpl. unfold after, doSyncCalled. simpl. by rewrite <- !app_assoc.
Qed.

(** An RKE cluster still being provisioned, its strategy unset: the pass
    sets the strategy on its copy and writes the copy back. *)
Lemma sync_not_provisioned_writes_back :
  DeletionTimestamp provisioningCluster = None ∧
  cond_IsTrue ClusterConditionProvisioned provisioningCluster = false ∧
  ∃ copy,
    copy ≠ provisioningCluster ∧
    sync quietEnv "c-1" (Some provisioningCluster) emptyWorld
    = Ret None (after [syncCalled "c-1"; doSyncCalled provisioningCluster;
                       EvUpdate copy] emptyWorld).
Proof.
  split; [reflexivity|]. split; [reflexivity|].
  exists (withStrategy "x509" (engineConfig None EmptyString) provisioningCluster).
  split; [intros Heq; discriminate Heq | vm_compute; reflexivity].
Qed.

(** An imported cluster that is not provisioned yet: nothing is written. *)
Lemma sync_not_provisioned_witness :
  DeletionTimestamp freshCluster = None ∧
  cond_IsTrue ClusterConditionProvisioned freshCluster = false ∧
  sync quietEnv "c-1" (Some freshCluster) emptyWorld
  = Ret None (after [syncCalled "c-1"; doSyncCalled freshCluster] emptyWorld).
Proof.
  split; [reflexivity|]. split; [reflexivity|].
  apply (proj1 (proj2 (sync_not_provisioned quietEnv "c-1" freshCluster emptyWorld
                         eq_refl eq_refl))).
  intros Heq. discriminate Heq.
Defined.

(** ** The apply loop *)

Lemma after_nil (w : World) : after [] w = w.
Proof. destruct w. unfold after. simpl. by rewrite app_nil_r. Qed.

Lemma after_after (evs evs' : list Event) (w : World) :
  after evs' (after evs w) = after (evs ++ evs') w.
Proof. unfold after. simpl. by rewrite app_assoc. Qed.

Lemma record_after (e : Event) (evs : list Event) (w : World) :
  record e (after evs w) = after (evs ++ [e]) w.
Proof. unfold record, after. simpl. by rewrite app_assoc. Qed.

Lemma pushes_app (evs evs' : list Event) :
  pushes (evs ++ evs') = (pushes evs + pushes evs')%nat.
Proof. unfold pushes. by rewrite List.filter_app, length_app. Qed.

Lemma pushes_failedAttempts (yaml : string) (kubeConfig : KubeConfig) (n : nat) :
  pushes (failedAttempts yaml kubeConfig n) = n.
Proof.
  induction n as [|n IH]; [done|].
  simpl. rewrite pushes_app, IH. unfold pushes. simpl. lia.
Qed.

(** The loop with [n] passes left after [done] failed ones: either a later
    pass succeeds and ends the loop, or all [n] fail and the loop ends
    with the last failure (with what it was entered with when [n] is 0). *)
Lemma applyLoop_from (env : Env) (yaml : string) (kubeConfig : KubeConfig)
    (w : World) (n : nat) :
  ∀ (done : nat) (output0 : string) (err0 : option error),
    (∃ j output,
        (j < n)%nat ∧
        (∀ i, (done ≤ i < done + j)%nat →
              ∃ o e, attemptAt env yaml kubeConfig w i = (o, Some e)) ∧
        attemptAt env yaml kubeConfig w (done + j) = (output, None) ∧
        applyLoop env n yaml kubeConfig output0 err0
                  (after (failedAttempts yaml kubeConfig done) w)
        = Ret (output, None)
              (after (failedAttempts yaml kubeConfig (done + j)
                      ++ [EvApply yaml kubeConfig]) w)) ∨
    ((∀ i, (done ≤ i < done + n)%nat →
           ∃ o e, attemptAt env yaml kubeConfig w i = (o, Some e)) ∧
     ∃ output err,
       (n = 0%nat ∧ output = output0 ∧ err = err0 ∨
        ∃ n' e, n = S n' ∧ err = Some e ∧
                attemptAt env yaml kubeConfig w (done + n') = (output, Some e)) ∧
       applyLoop env n yaml kubeConfig output0 err0
                 (after (failedAttempts yaml kubeConfig done) w)
       = Ret (output, err) (after (failedAttempts yaml kubeConfig (done + n)) w)).
Proof.
  induction n as [|n IH]; intros done output0 err0.
  - right. split; [intros i Hi; lia|].
    exists output0, err0. split; [by left|].
    simpl. by rewrite Nat.add_0_r.
  - simpl. run.
    change (kubectl_Apply env (trace w ++ failedAttempts yaml kubeConfig done)
                          yaml kubeConfig)
      with (attemptAt env yaml kubeConfig w done).
    destruct (attemptAt env yaml kubeConfig w done) as [o [e|]] eqn:Hdone.
    + rewrite !record_after, <- app_assoc. simpl.
      change (failedAttempts yaml kubeConfig done
              ++ [EvApply yaml kubeConfig; EvSleep 5])%list
        with (failedAttempts yaml kubeConfig (S done)).
      destruct (IH (S done) o (Some e))
        as [(j & output & Hj & Hfail & Hok & Hrun)
           |(Hfail & output & err & Hlast & Hrun)].
      * left. exists (S j), output. split; [lia|].
        replace (done + S j)%nat with (S done + j)%nat by lia.
        split; [|by split].
        intros i Hi. destruct (decide (i = done)) as [->|Hne]; [by eauto|].
        apply Hfail. lia.
      * right. split.
        { intros i Hi. destruct (decide (i = done)) as [->|Hne]; [by eauto|].
          apply Hfail. lia. }
        replace (done + S n)%nat with (S done + n)%nat by lia.
        exists output, err. split; [|done].
        right. destruct Hlast as [(-> & -> & ->)|(n' & e' & -> & -> & Hat)].
        -- exists 0%nat, e. rewrite Nat.add_0_r. by repeat split.
        -- exists (S n'), e'. repeat split; [].
           by replace (done + S n')%nat with (S done + n')%nat by lia.
    + left. exists 0%nat, o. rewrite Nat.add_0_r. split; [lia|].
      split; [intros i Hi; lia|]. split; [done|].
      by rewrite record_after.
Qed.

Lemma deleteFailed_message (err : option error) (output notFound : string)
    (failure : error) :
  deleteFailed err output notFound = Some failure →
  ∃ cause, failure = WithMessage cause "kubectl delete failed".
Proof.
  unfold deleteFailed. destruct err as [e|]; [|done].
  destruct (negb (strings_Contains output notFound)); [|done].
  intros [= <-]. by eexists.
Qed.

(** The cleanup always returns, and an error it returns is a failed delete. *)
Lemma removeCompanions_returns (env : Env) (cluster : Cluster)
    (kubeConfig : KubeConfig) (output : string) (w : World) :
  ∃ cluster' err w',
    removeCompanions env cluster kubeConfig output w = Ret (cluster', err) w' ∧
    ∀ failure, err = Some failure →
               ∃ cause, failure = WithMessage cause "kubectl delete failed".
Proof.
  unfold removeCompanions, removeNodeAgent. run.
  destruct (authRemovalDue cluster); run.
  - destruct (kubectl_Delete env (trace w) AuthDaemonSet kubeConfig) as [o1 e1].
    destruct (deleteFailed e1 o1 authNotFoundError) as [f1|] eqn:H1.
    + do 3 eexists. split; [done|]. intros ? [= <-].
      by eapply deleteFailed_message.
    + destruct (negb (bool_decide _)); run; [|by do 3 eexists].
      destruct (kubectl_Delete env _ NodeAgentDaemonSet kubeConfig) as [o2 e2].
      destruct (deleteFailed e2 o2 nodeAgentNotFoundError) as [f2|] eqn:H2;
        [|by do 3 eexists].
      do 3 eexists. split; [done|]. intros ? [= <-].
      by eapply deleteFailed_message.
  - destruct (negb (bool_decide _)); run; [|by do 3 eexists].
    destruct (kubectl_Delete env _ NodeAgentDaemonSet kubeConfig) as [o2 e2].
    destruct (deleteFailed e2 o2 nodeAgentNotFoundError) as [f2|] eqn:H2;
      [|by do 3 eexists].
    do 3 eexists. split; [done|]. intros ? [= <-].
    by eapply deleteFailed_message.
Qed.

(** The action, once the manifest is rendered: the loop, then either the
    escalation of its error or the cleanup. *)
Lemma applyAgent_rendered (env : Env) (cluster : Cluster)
    (desiredAgent desiredAuth : string) (desiredFeatures : gomap bool)
    (desiredTaints : slice Taint) (kubeConfig : KubeConfig)
    (yaml : string) (w0 w : World) :
  getYAML env cluster desiredAgent desiredAuth desiredFeatures desiredTaints w0
  = Ret (yaml, None) w →
  applyAgent env desiredAgent desiredAuth desiredFeatures desiredTaints
             kubeConfig cluster w0
  = match applyLoop env 5 yaml kubeConfig EmptyString None w with
    | Panic => Panic
    | Ret (output, Some e) w' =>
        Ret (cluster,
             Some (WithMessage (MultiErrors e (New (formatKubectlApplyOutput output)))
                               applyErrorMessage)) w'
    | Ret (output, None) w' =>
        removeCompanions env (cond_Message ClusterConditionAgentDeployed cluster output)
                         kubeConfig output w'
    end.
Proof.
  intros Hyaml. unfold applyAgent.
  unfold mbind at 1. unfold M_bind at 1. rewrite Hyaml.
  unfold mbind at 1. unfold M_bind at 1.
  destruct (applyLoop env 5 yaml kubeConfig EmptyString None w)
    as [|[output [e|]] w']; done.
Qed.

(** C6: the loop pushes at most five times, waits five seconds after each
    failed push and so between any two pushes, stops at the first push that
    succeeds, and hands back an error only when all five pushes failed; that
    error, and no other, is what the action escalates as the failed apply. *)
Theorem applyLoop_at_most_five (env : Env) (cluster : Cluster)
    (desiredAgent desiredAuth : string) (desiredFeatures : gomap bool)
    (desiredTaints : slice Taint) (kubeConfig : KubeConfig)
    (yaml : string) (w0 w : World) :
  getYAML env cluster desiredAgent desiredAuth desiredFeatures desiredTaints w0
  = Ret (yaml, None) w →
  ∃ (failed : nat) (output : string) (err : option error),
    (failed < 5)%nat ∧
    (∀ i, (i < failed)%nat →
          ∃ o e, attemptAt env yaml kubeConfig w i = (o, Some e)) ∧
    attemptAt env yaml kubeConfig w failed = (output, err) ∧
    (is_Some err → failed = 4%nat) ∧
    let events := (failedAttempts yaml kubeConfig failed
                   ++ EvApply yaml kubeConfig
                      :: match err with
                         | Some _ => [EvSleep 5]
                         | None => []
                         end)%list in
    applyLoop env 5 yaml kubeConfig EmptyString None w
    = Ret (output, err) (after events w) ∧
    pushes events = S failed ∧
    (is_Some err ↔
     ∃ cluster' cause w',
       applyAgent env desiredAgent desiredAuth desiredFeatures desiredTaints
                  kubeConfig cluster w0
       = Ret (cluster', Some (WithMessage cause applyErrorMessage)) w').
Proof.
  intros Hyaml.
  pose proof (applyAgent_rendered env cluster desiredAgent desiredAuth
                desiredFeatures desiredTaints kubeConfig yaml w0 w Hyaml) as Hact.
  destruct (applyLoop_from env yaml kubeConfig w 5 0 EmptyString None)
    as [(j & output & Hj & Hfail & Hok & Hrun)
       |(Hfail & output & err & Hlast & Hrun)];
    simpl failedAttempts in Hrun at 1; rewrite after_nil in Hrun; simpl in *.
  - exists j, output, None. split; [done|].
    split; [intros i Hi; apply Hfail; lia|]. split; [done|].
    split; [by intros [? ?]|]. split; [done|].
    split; [rewrite pushes_app, pushes_failedAttempts; unfold pushes; simpl; lia|].
    split; [by intros [? ?]|].
    intros (cluster' & cause & w' & Hesc). exfalso.
    rewrite Hrun in Hact.
    destruct (removeCompanions_returns env
                (cond_Message ClusterConditionAgentDeployed cluster output)
                kubeConfig output
                (after (failedAttempts yaml kubeConfig j ++ [EvApply yaml kubeConfig]) w))
      as (c2 & err2 & w2 & Hrem & Hmsg).
    rewrite Hrem, Hesc in Hact. injection Hact as -> <- ->.
    destruct (Hmsg _ eq_refl) as [cause' Hcause]. discriminate Hcause.
  - destruct Hlast as [(? & _)|(n' & e & [= <-] & -> & Hat)]; [done|].
    exists 4%nat, output, (Some e). split; [lia|].
    split; [intros i Hi; apply Hfail; lia|]. split; [done|].
    split; [done|]. split; [exact Hrun|].
    split; [rewrite pushes_app, pushes_failedAttempts; unfold pushes; simpl; lia|].
    split; [|by eauto]. intros _.
    rewrite Hrun in Hact. eauto.
Qed.

(** Scenario 5 of the spec: four failed pushes, a delay after each, and the
    fifth push succeeds. *)
Lemma applyLoop_at_most_five_witness :
  getYAML flakyEnv (deployedCluster emptySpec emptySpec) agentV2 EmptyString
          (Some ∅) None emptyWorld
  = Ret (sampleYAML, None) renderedWorld ∧
  ∃ (failed : nat) (output : string) (err : option error),
    (failed < 5)%nat ∧
    attemptAt flakyEnv sampleYAML sampleKube renderedWorld failed = (output, err) ∧
    (is_Some err → failed = 4%nat) ∧
    returned (applyLoop flakyEnv 5 sampleYAML sampleKube EmptyString None
                        renderedWorld) = Some (output, err).
Proof.
  assert (getYAML flakyEnv (deployedCluster emptySpec emptySpec) agentV2 EmptyString
                  (Some ∅) None emptyWorld
          = Ret (sampleYAML, None) renderedWorld) as Hyaml by reflexivity.
  split; [exact Hyaml|].
  destruct (applyLoop_at_most_five flakyEnv (deployedCluster emptySpec emptySpec)
              agentV2 EmptyString (Some ∅) None sampleKube
              sampleYAML emptyWorld renderedWorld Hyaml)
    as (failed & output & err & Hlt & _ & Hat & Hfive & Hrun & _).
  exists failed, output, err. repeat split; try assumption.
  rewrite Hrun. reflexivity.
Defined.

Example applyLoop_fifth_push_succeeds :
  ∃ w', applyLoop flakyEnv 5 "m" sampleKube EmptyString None emptyWorld
        = Ret ("applied", None) w' ∧
        trace w' = (failedAttempts "m" sampleKube 4 ++ [EvApply "m" sampleKube])%list.
Proof. eexists. split; vm_compute; reflexivity. Qed.

Example applyLoop_gives_up :
  ∃ w', applyLoop unreachableEnv 5 "m" sampleKube EmptyString None emptyWorld
        = Ret ("forbidden", Some notReady) w' ∧
        trace w' = failedAttempts "m" sampleKube 5.
Proof. eexists. split; vm_compute; reflexivity. Qed.

(** ** The companion resources *)

Lemma authRemovalDue_cond_Message (c : Cluster) (name message : string) :
  authRemovalDue (cond_Message name c message) = authRemovalDue c.
Proof. reflexivity. Qed.

(** The removals the cleanup attempts, read off its events. *)
Lemma removeCompanions_attempts (env : Env) (cluster : Cluster)
    (kubeConfig : KubeConfig) (output : string) (w : World) :
  ∃ cluster' err events,
    removeCompanions env cluster kubeConfig output w
    = Ret (cluster', err) (after events w) ∧
    (EvDelete AuthDaemonSet kubeConfig ∈ events ↔ authRemovalDue cluster = true) ∧
    (EvDelete NodeAgentDaemonSet kubeConfig ∈ events ↔
     Driver (Status cluster) ≠ ClusterDriverRKE ∧
     authFailure env cluster kubeConfig w = None).
Proof.
  unfold removeCompanions, removeNodeAgent, authFailure. run.
  destruct (authRemovalDue cluster); run.
  - destruct (kubectl_Delete env (trace w) AuthDaemonSet kubeConfig) as [o1 e1].
    destruct (deleteFailed e1 o1 authNotFoundError) as [f1|].
    + exists cluster, (Some f1), [EvDelete AuthDaemonSet kubeConfig].
      split; [done|]. split; [split; [done | intros _; set_solver]|].
      split; [|by intros [_ ?]].
      intros Hin. apply list_elem_of_singleton in Hin. discriminate Hin.
    + case_bool_decide as Hdriver; run.
      * eexists _, None, [EvDelete AuthDaemonSet kubeConfig].
        split; [done|]. split; [split; [done | intros _; set_solver]|].
        split; [|by intros [? _]].
        intros Hin. apply list_elem_of_singleton in Hin. discriminate Hin.
      * destruct (kubectl_Delete env _ NodeAgentDaemonSet kubeConfig) as [o2 e2].
        destruct (deleteFailed e2 o2 nodeAgentNotFoundError) as [f2|];
          eexists _, _, [EvDelete AuthDaemonSet kubeConfig;
                         EvDelete NodeAgentDaemonSet kubeConfig];
          (split; [unfold after, record; simpl; by rewrite <- app_assoc|]);
          (split; [split; [done | intros _; set_solver]|]);
          (split; [done | intros _; set_solver]).
  - case_bool_decide as Hdriver; run.
    + eexists _, None, []. rewrite after_nil.
      split; [done|]. split; [split; [intros Hin; inversion Hin | done]|].
      split; [intros Hin; inversion Hin | by intros [? _]].
    + destruct (kubectl_Delete env _ NodeAgentDaemonSet kubeConfig) as [o2 e2].
      destruct (deleteFailed e2 o2 nodeAgentNotFoundError) as [f2|];
        eexists _, _, [EvDelete NodeAgentDaemonSet kubeConfig];
        (split; [done|]);
        (split; [split; [|done];
                 intros Hin; apply list_elem_of_singleton in Hin; discriminate Hin|]);
        (split; [done | intros _; set_solver]).
Qed.

(** C4, as the code has it.  After a successful apply the action removes
    the authentication workload only when the auth endpoint is switched off
    in the desired spec, was on in the last-applied spec and an auth image
    is recorded; it removes the node agent workload of every cluster whose
    driver is not RKE, unless the first removal failed. *)
Theorem cleanup_after_apply (env : Env) (cluster : Cluster)
    (desiredAgent desiredAuth : string) (desiredFeatures : gomap bool)
    (desiredTaints : slice Taint) (kubeConfig : KubeConfig)
    (yaml output : string) (w0 w w1 : World) :
  getYAML env cluster desiredAgent desiredAuth desiredFeatures desiredTaints w0
  = Ret (yaml, None) w →
  applyLoop env 5 yaml kubeConfig EmptyString None w = Ret (output, None) w1 →
  ∃ cluster' err events,
    applyAgent env desiredAgent desiredAuth desiredFeatures desiredTaints
               kubeConfig cluster w0
    = Ret (cluster', err) (after events w1) ∧
    (EvDelete AuthDaemonSet kubeConfig ∈ events ↔ authRemovalDue cluster = true) ∧
    (EvDelete NodeAgentDaemonSet kubeConfig ∈ events ↔
     Driver (Status cluster) ≠ ClusterDriverRKE ∧
     authFailure env cluster kubeConfig w1 = None).
Proof.
  intros Hyaml Hloop.
  rewrite (applyAgent_rendered _ _ _ _ _ _ _ _ _ _ Hyaml), Hloop.
  apply (removeCompanions_attempts env
           (cond_Message ClusterConditionAgentDeployed cluster output)).
Qed.

(** The auth endpoint was never on: after a successful apply the
    authentication workload is not removed, the node agent workload is. *)
Lemma cleanup_skips_auth_removal :
  applyLoop quietEnv 5 sampleYAML sampleKube EmptyString None renderedWorld
  = Ret ("applied", None) (pushed sampleYAML sampleKube renderedWorld) ∧
  ∃ cluster' w',
    applyAgent quietEnv agentV2 EmptyString (Some ∅) None sampleKube
               (deployedCluster emptySpec emptySpec) emptyWorld
    = Ret (cluster', None) w' ∧
    trace w' = [EvGetOrCreateSystemClusterToken "c-1";
                EvSystemTemplate agentV2 EmptyString "c-1";
                EvApply sampleYAML sampleKube;
                EvDelete NodeAgentDaemonSet sampleKube] ∧
    EvDelete AuthDaemonSet sampleKube ∉ trace w'.
Proof.
  split; [reflexivity|].
  eexists _, _. split; [vm_compute; reflexivity|].
  split; [reflexivity|]. simpl.
  intros Hin. repeat (apply elem_of_cons in Hin as [Heq|Hin]; [discriminate Heq|]).
  inversion Hin.
Qed.

(** The auth endpoint was on and is switched off: both removals are
    attempted after the apply. *)
Lemma cleanup_after_apply_witness :
  getYAML quietEnv authSwitchedOff agentV2 EmptyString (Some ∅) None emptyWorld
  = Ret (sampleYAML, None) renderedWorld ∧
  applyLoop quietEnv 5 sampleYAML sampleKube EmptyString None renderedWorld
  = Ret ("applied", None) (pushed sampleYAML sampleKube renderedWorld) ∧
  ∃ cluster' err events,
    applyAgent quietEnv agentV2 EmptyString (Some ∅) None sampleKube
               authSwitchedOff emptyWorld
    = Ret (cluster', err) (after events (pushed sampleYAML sampleKube renderedWorld)) ∧
    EvDelete AuthDaemonSet sampleKube ∈ events ∧
    EvDelete NodeAgentDaemonSet sampleKube ∈ events.
Proof.
  assert (getYAML quietEnv authSwitchedOff agentV2 EmptyString (Some ∅) None emptyWorld
          = Ret (sampleYAML, None) renderedWorld) as Hyaml by reflexivity.
  assert (applyLoop quietEnv 5 sampleYAML sampleKube EmptyString None renderedWorld
          = Ret ("applied", None) (pushed sampleYAML sampleKube renderedWorld))
    as Hloop by reflexivity.
  split; [exact Hyaml|]. split; [exact Hloop|].
  destruct (cleanup_after_apply quietEnv authSwitchedOff agentV2 EmptyString (Some ∅)
              None sampleKube sampleYAML "applied" emptyWorld renderedWorld
              (pushed sampleYAML sampleKube renderedWorld) Hyaml Hloop)
    as (cluster' & err & events & Hrun & Hauth & Hnode).
  exists cluster', err, events. split; [exact Hrun|]. split.
  - apply Hauth. reflexivity.
  - apply Hnode. split; [intros Heq; discriminate Heq | reflexivity].
Defined.

Lemma error_contains_refl (e : error) : error_contains e e.
Proof. destruct e; by left. Qed.

(** The error of a failed delete carries the cause and the output. *)
Lemma composite_contains (e : error) (out message : string) :
  error_contains e
    (errors_WithMessage (types_NewErrors e (errors_New out)) message) ∧
  error_contains (errors_New out)
    (errors_WithMessage (types_NewErrors e (errors_New out)) message).
Proof.
  unfold errors_WithMessage, types_NewErrors, errors_New.
  split; right; right.
  - left. apply error_contains_refl.
  - right. by left.
Qed.

(** C7: a removal whose output reports the workload as not found is taken
    for done: the error is dropped and the action goes on, to the second
    removal after the first, to its successful end after the second.  Any
    other failed removal ends the action with an error that carries both the
    error of the delete and its output. *)
Theorem delete_not_found_swallowed (env : Env) (cluster : Cluster)
    (kubeConfig : KubeConfig) (output : string) (w : World) :
  (∀ out e,
     authRemovalDue cluster = true →
     kubectl_Delete env (trace w) AuthDaemonSet kubeConfig = (out, Some e) →
     (strings_Contains out authNotFoundError = true →
      removeCompanions env cluster kubeConfig output w
      = removeNodeAgent env cluster kubeConfig out
                        (after [EvDelete AuthDaemonSet kubeConfig] w)) ∧
     (strings_Contains out authNotFoundError = false →
      ∃ failure,
        removeCompanions env cluster kubeConfig output w
        = Ret (cluster, Some failure) (after [EvDelete AuthDaemonSet kubeConfig] w) ∧
        error_contains e failure ∧ error_contains (errors_New out) failure)) ∧
  (∀ out e,
     Driver (Status cluster) ≠ ClusterDriverRKE →
     kubectl_Delete env (trace w) NodeAgentDaemonSet kubeConfig = (out, Some e) →
     (strings_Contains out nodeAgentNotFoundError = true →
      removeNodeAgent env cluster kubeConfig output w
      = Ret (cond_Message ClusterConditionAgentDeployed cluster out, None)
            (after [EvDelete NodeAgentDaemonSet kubeConfig] w)) ∧
     (strings_Contains out nodeAgentNotFoundError = false →
      ∃ failure,
        removeNodeAgent env cluster kubeConfig output w
        = Ret (cluster, Some failure)
              (after [EvDelete NodeAgentDaemonSet kubeConfig] w) ∧
        error_contains e failure ∧ error_contains (errors_New out) failure)).
Proof.
  split.
  - intros out e Hdue Hdel. unfold removeCompanions. run.
    rewrite Hdue. run. rewrite Hdel. unfold deleteFailed. split.
    + by intros ->.
    + intros ->. simpl. eexists. split; [reflexivity|].
      apply composite_contains.
  - intros out e Hdriver Hdel. unfold removeNodeAgent.
    rewrite bool_decide_eq_false_2 by done. run.
    rewrite Hdel. unfold deleteFailed. split.
    + by intros ->.
    + intros ->. simpl. eexists. split; [reflexivity|].
      apply composite_contains.
Qed.

(** Scenario 6 of the spec, on a cluster whose auth endpoint was switched
    off: a workload reported as not found does not stop the action, a
    refused delete does, with the cause and the output in its error. *)
Lemma delete_not_found_swallowed_witness :
  removeCompanions goneEnv authSwitchedOff sampleKube "applied" emptyWorld
  = removeNodeAgent goneEnv authSwitchedOff sampleKube
      ("Error from server (NotFound): " ++ authNotFoundError)
      (after [EvDelete AuthDaemonSet sampleKube] emptyWorld) ∧
  ∃ failure,
    removeCompanions refusedEnv authSwitchedOff sampleKube "applied" emptyWorld
    = Ret (authSwitchedOff, Some failure)
          (after [EvDelete AuthDaemonSet sampleKube] emptyWorld) ∧
    error_contains (New "exit status 1") failure ∧
    error_contains (errors_New "Error from server (Forbidden)") failure.
Proof.
  split.
  - apply (proj1 (delete_not_found_swallowed goneEnv authSwitchedOff sampleKube
                    "applied" emptyWorld)
                 ("Error from server (NotFound): " ++ authNotFoundError)
                 (New "exit status 1")); reflexivity.
  - apply (proj1 (delete_not_found_swallowed refusedEnv authSwitchedOff sampleKube
                    "applied" emptyWorld)
                 "Error from server (Forbidden)" (New "exit status 1"));
      reflexivity.
Defined.

Example removeCompanions_both_gone :
  ∃ cluster' w',
    removeCompanions goneEnv authSwitchedOff sampleKube "applied" emptyWorld
    = Ret (cluster', None) w' ∧
    trace w' = [EvDelete AuthDaemonSet sampleKube;
                EvDelete NodeAgentDaemonSet sampleKube].
Proof. eexists _, _. split; vm_compute; reflexivity. Qed.

(** ** A whole pass *)

(** The first pass over a provisioned cluster with one control-plane node:
    the manifest is pushed three times, the node agent workload is removed,
    both caches are filled, and the copy written back records the image and
    has its AgentDeployed condition true. *)
Example sync_first_deploy :
  ∃ w' copy,
    sync oneNodeEnv "c-1" (Some provisionedCluster) emptyWorld = Ret None w' ∧
    last (trace w') = Some (EvUpdate copy) ∧
    pushes (trace w') = 3%nat ∧
    AgentImage (Status copy) = agentV2 ∧
    cond_IsTrue ClusterConditionAgentDeployed copy = true ∧
    agentImages_clusterImage w' !! "c-1" = Some agentV2 ∧
    agentImages_nodeImage w' !! "c-1" = Some EmptyString ∧
    controlPlaneTaints w' !! "c-1" = Some (Some [masterTaint]).
Proof.
  eexists _, _.
  split; [vm_compute; reflexivity|]. split; [vm_compute; reflexivity|].
  split; [vm_compute; reflexivity|]. split; [vm_compute; reflexivity|].
  split; [vm_compute; reflexivity|]. split; [vm_compute; reflexivity|].
  split; vm_compute; reflexivity.
Qed.

(** The pass that follows finds nothing to do: the decision is evaluated,
    nothing is pushed, and the cluster-agent image in the cache stands. *)
Example deployAgent_second_pass :
  ∃ w' copy w'',
    sync oneNodeEnv "c-1" (Some provisionedCluster) emptyWorld = Ret None w' ∧
    last (trace w') = Some (EvUpdate copy) ∧
    deployAgent oneNodeEnv copy w' = Ret (copy, None) w'' ∧
    redeployCalled copy ∈ trace w'' ∧
    pushes (trace w'') = pushes (trace w').
Proof.
  eexists _, _, _. split; [vm_compute; reflexivity|].
  split; [vm_compute; reflexivity|]. split; [vm_compute; reflexivity|].
  split; [|vm_compute; reflexivity].
  apply list_elem_of_In. vm_compute. tauto.
Qed.

(** * Further properties of the controller *)

(** ** Feature flags, continued *)

Lemma effective_absent (m : gomap bool) (k : string) :
  ¬ present m k → effective m k = false.
Proof.
  unfold present, go_has, effective, go_index. destruct m as [g|]; [|done].
  rewrite bool_decide_eq_true. destruct (g !! k); [|done].
  intros H. exfalso. apply H. by eexists.
Qed.

Lemma present_dec (m : gomap bool) (k : string) : present m k ∨ ¬ present m k.
Proof. unfold present. destruct (go_has m k); [by left | by right]. Qed.

(** No change is seen exactly when the two maps agree on every flag. *)
Lemma agentFeaturesChanged_false_everywhere (desired actual : gomap bool) :
  agentFeaturesChanged desired actual = false ↔
  ∀ k, effective desired k = effective actual k.
Proof.
  unfold agentFeaturesChanged. split.
  - destruct (range_mismatch (go_range desired) actual) eqn:E1; [done|].
    destruct (range_mismatch (go_range actual) desired) eqn:E2; [done|].
    intros _ k.
    destruct (present_dec desired k) as [[v Hin]%present_spec|Hd].
    { rewrite (effective_of_entry _ _ _ Hin).
      symmetry. exact (proj1 (range_mismatch_false _ _) E1 k v Hin). }
    destruct (present_dec actual k) as [[v Hin]%present_spec|Ha].
    { rewrite (effective_of_entry _ _ _ Hin).
      exact (proj1 (range_mismatch_false _ _) E2 k v Hin). }
    by rewrite !effective_absent.
  - intros Hall.
    assert (range_mismatch (go_range desired) actual = false) as ->.
    { apply range_mismatch_false. intros k v Hin.
      rewrite <- (effective_of_entry _ _ _ Hin). symmetry. apply Hall. }
    assert (range_mismatch (go_range actual) desired = false) as ->; [|done].
    apply range_mismatch_false. intros k v Hin.
    rewrite <- (effective_of_entry _ _ _ Hin). apply Hall.
Qed.

(** X1: the verdict of [agentFeaturesChanged] depends on the effective
    values of the flags only: maps that agree flag by flag, a missing key
    counting as false, give the same verdict.  So a nil map stands for an
    empty one, and a new flag set to false changes nothing. *)
Theorem agentFeaturesChanged_by_effective_values
    (desired desired' actual actual' : gomap bool) :
  (∀ k, effective desired k = effective desired' k) →
  (∀ k, effective actual k = effective actual' k) →
  agentFeaturesChanged desired actual = agentFeaturesChanged desired' actual'.
Proof.
  intros Hd Ha.
  destruct (agentFeaturesChanged desired actual) eqn:E1,
           (agentFeaturesChanged desired' actual') eqn:E2; try done.
  - pose proof (proj1 (agentFeaturesChanged_false_everywhere _ _) E2) as H2.
    assert (agentFeaturesChanged desired actual = false) as E; [|congruence].
    apply agentFeaturesChanged_false_everywhere. intros k.
    by rewrite Hd, Ha.
  - pose proof (proj1 (agentFeaturesChanged_false_everywhere _ _) E1) as H1.
    assert (agentFeaturesChanged desired' actual' = false) as E; [|congruence].
    apply agentFeaturesChanged_false_everywhere. intros k.
    by rewrite <- Hd, <- Ha.
Qed.

Lemma effective_insert_false (g : gmap string bool) (flag k : string) :
  effective (Some g) flag = false →
  effective (Some (<[flag := false]> g)) k = effective (Some g) k.
Proof.
  unfold effective, go_index. intros Hflag.
  destruct (decide (flag = k)) as [<-|Hne].
  - by rewrite lookup_insert_eq, Hflag.
  - by rewrite lookup_insert_ne.
Qed.

(** A flag new to the desired map and set to false, against a nil map of
    recorded features standing for an empty one. *)
Lemma agentFeaturesChanged_by_effective_values_witness :
  agentFeaturesChanged (Some (<["new-feature" := false]> {["embedded" := true]}))
                       None
  = agentFeaturesChanged (Some {["embedded" := true]}) (Some ∅).
Proof.
  apply agentFeaturesChanged_by_effective_values.
  - intros k. apply effective_insert_false. reflexivity.
  - intros k. reflexivity.
Defined.

(** ** The redeploy decision, continued *)

(** X2: the decision is not to redeploy exactly when the agent is deployed,
    none of the facets read off the cluster object differs, the cached images
    and taints agree with it, and the environment variables are the applied
    ones; such a decision leaves both caches as they were. *)
Theorem redeployAgent_false_iff (env : Env) (cluster : Cluster)
    (desiredAgent desiredAuth : string) (desiredFeatures : gomap bool)
    (desiredTaints : slice Taint) (w : World) :
  (returned (redeployAgent env cluster desiredAgent desiredAuth desiredFeatures
                           desiredTaints w) = Some false ↔
   cond_IsTrue ClusterConditionAgentDeployed cluster = true ∧
   statusFacetsChanged env cluster desiredAgent desiredAuth desiredFeatures = false ∧
   imageMismatch cluster w = false ∧
   taintMismatch env cluster desiredTaints w = false ∧
   AgentEnvVars (Spec cluster) = AppliedAgentEnvVars (Status cluster)) ∧
  (∀ w', redeployAgent env cluster desiredAgent desiredAuth desiredFeatures
                       desiredTaints w = Ret false w' →
         w' = after [redeployCalled cluster] w).
Proof.
  rewrite redeployAgent_steps.
  destruct (cond_IsTrue ClusterConditionAgentDeployed cluster); simpl;
    [|split; [split; [done | by intros (? & _)] | by intros w' [=]]].
  destruct (statusFacetsChanged _ _ _ _ _);
    [split; [split; [done | by intros (_ & ? & _)] | by intros w' [=]]|].
  destruct (imageMismatch cluster w);
    [split; [split; [done | by intros (_ & _ & ? & _)] | by intros w' [=]]|].
  destruct (taintMismatch env cluster desiredTaints w);
    [split; [split; [done | by intros (_ & _ & _ & ? & _)] | by intros w' [=]]|].
  unfold reflect_DeepEqual. simpl. split.
  - case_bool_decide as Hvars; simpl.
    + split; [done|]. by intros _.
    + split; [done|]. by intros (_ & _ & _ & _ & ?).
  - by intros w' [= _ <-].
Qed.

(** X3: for a cluster whose driver is not RKE the cached node-agent image
    plays no part in the decision. *)
Theorem redeployAgent_ignores_node_image (env : Env) (cluster : Cluster)
    (desiredAgent desiredAuth : string) (desiredFeatures : gomap bool)
    (desiredTaints : slice Taint) (w1 w2 : World) :
  Driver (Status cluster) ≠ ClusterDriverRKE →
  agentImages_clusterImage w1 = agentImages_clusterImage w2 →
  controlPlaneTaints w1 = controlPlaneTaints w2 →
  returned (redeployAgent env cluster desiredAgent desiredAuth desiredFeatures
                          desiredTaints w1)
  = returned (redeployAgent env cluster desiredAgent desiredAuth desiredFeatures
                            desiredTaints w2).
Proof.
  intros Hdriver Hc Ht. rewrite !redeployAgent_steps.
  unfold imageMismatch, taintMismatch. rewrite Hc, Ht.
  rewrite (bool_decide_eq_false_2 _ Hdriver), !andb_false_r. simpl.
  destruct (negb (cond_IsTrue _ _)); [done|].
  destruct (statusFacetsChanged _ _ _ _ _); [done|].
  match goal with |- context [if ?b then _ else _] => destruct b end; [done|].
  match goal with |- context [if ?b then _ else _] => destruct b end; done.
Qed.

(** An imported cluster: a stale node-agent image in the cache does not
    make the decision differ. *)
Lemma redeployAgent_ignores_node_image_witness :
  returned (redeployAgent quietEnv (deployedCluster emptySpec emptySpec)
              agentV2 EmptyString (Some ∅) None
              (cachedWorld "rancher/rancher-agent:v1" agentV2 None))
  = returned (redeployAgent quietEnv (deployedCluster emptySpec emptySpec)
                agentV2 EmptyString (Some ∅) None
                (cachedWorld agentV2 agentV2 None)).
Proof.
  apply redeployAgent_ignores_node_image; [|reflexivity|reflexivity].
  intros Heq. discriminate Heq.
Defined.

(** ** The control-plane taints *)

Lemma appendTaints_elems (toAdd : list Taint) (allTaints : slice Taint) :
  elems (appendTaints toAdd allTaints)
  = (elems allTaints ++ List.filter (λ t, negb (internalTaint t)) toAdd)%list.
Proof.
  revert allTaints. induction toAdd as [|t rest IH]; intros allTaints; simpl.
  - by rewrite app_nil_r.
  - unfold internalTaint at 1.
    destruct (strings_HasPrefix (Taint_Key t) "node.kubernetes.io"); simpl.
    + apply IH.
    + rewrite IH. simpl. by rewrite <- app_assoc.
Qed.

Lemma appendTaints_nil (allTaints : slice Taint) :
  appendTaints [] allTaints = allTaints.
Proof. reflexivity. Qed.

Lemma collectTaints_not_internal (env : Env) (nodes : list Node) :
  ∀ allTaints,
    Forall (λ t, internalTaint t = false) (elems allTaints) →
    Forall (λ t, internalTaint t = false) (elems (collectTaints env nodes allTaints)).
Proof.
  induction nodes as [|node rest IH]; intros allTaints Hall; simpl; [done|].
  destruct (controlPlaneLabelFound node); [|by apply IH].
  destruct (GetToDiffTaints env allTaints (NodeTaints node)) as [toAdd toDelete].
  apply IH. rewrite appendTaints_elems. apply Forall_app. split; [done|].
  apply Forall_forall. intros t Hin. apply list_elem_of_In in Hin.
  apply List.filter_In in Hin as [_ Hin]. by apply negb_true_iff.
Qed.

(** X4: [getControlPlaneTaints] always returns, having listed the nodes
    once; it returns the error of the listing with no taints, and otherwise
    taints none of which has a Kubernetes-internal key. *)
Theorem getControlPlaneTaints_not_internal (env : Env) (name : string) (w : World) :
  ∃ taints err,
    getControlPlaneTaints env name w = Ret (taints, err) (after [EvListNodes name] w) ∧
    err = (nodeLister_List env (trace w) name).2 ∧
    (is_Some err → taints = None) ∧
    Forall (λ t, internalTaint t = false) (elems taints).
Proof.
  unfold getControlPlaneTaints. run.
  destruct (nodeLister_List env (trace w) name) as [nodes [e|]]; simpl.
  - exists None, (Some e). by repeat split.
  - exists (collectTaints env nodes None), None.
    split; [done|]. split; [done|]. split; [by intros [? ?]|].
    by apply collectTaints_not_internal.
Qed.

Lemma controlPlaneLabelFound_true (node : Node) :
  controlPlaneLabelFound node = true ↔
  ∃ key, (key = "node-role.kubernetes.io/master" ∨
          key = "node-role.kubernetes.io/controlplane" ∨
          key = "node-role.kubernetes.io/control-plane") ∧
         hasLabel node key "true".
Proof.
  assert (∀ key, go_has (NodeLabels node) key
                 && bool_decide (go_index EmptyString (NodeLabels node) key = "true")
                 = true ↔ hasLabel node key "true") as Hone.
  { intros key. unfold hasLabel, go_has, go_index.
    destruct (NodeLabels node) as [labels|]; simpl.
    - rewrite andb_true_iff, !bool_decide_eq_true. split.
      + intros [[v Hv] Heq]. rewrite Hv in Heq. simpl in Heq. subst.
        by exists labels.
      + intros (labels' & [= <-] & Hv). rewrite Hv. by split; [eexists|].
    - split; [done|]. by intros (? & ? & _). }
  unfold controlPlaneLabelFound, controlPlaneLabels. simpl.
  rewrite !orb_true_iff, !Hone. split.
  - intros [H | [H | [H | H]]]; [eauto .. | done].
  - intros (key & [-> | [-> | ->]] & H); auto.
Qed.

Lemma collectTaints_no_control_plane (env : Env) (nodes : list Node)
    (allTaints : slice Taint) :
  Forall (λ node, controlPlaneLabelFound node = false) nodes →
  collectTaints env nodes allTaints = allTaints.
Proof.
  induction 1 as [|node rest Hnode _ IH]; simpl; [done|].
  by rewrite Hnode.
Qed.

(** X5: only nodes that carry one of the three control-plane labels with the
    value [true] count: when no listed node does, the taints of the cluster
    are nil, whatever taints the nodes carry. *)
Theorem getControlPlaneTaints_without_control_plane (env : Env) (name : string)
    (w : World) (nodes : list Node) :
  nodeLister_List env (trace w) name = (nodes, None) →
  (∀ node key,
     node ∈ nodes →
     key = "node-role.kubernetes.io/master" ∨
     key = "node-role.kubernetes.io/controlplane" ∨
     key = "node-role.kubernetes.io/control-plane" →
     ¬ hasLabel node key "true") →
  getControlPlaneTaints env name w = Ret (None, None) (after [EvListNodes name] w).
Proof.
  intros Hlist Hnone. unfold getControlPlaneTaints. run. rewrite Hlist. simpl.
  rewrite collectTaints_no_control_plane; [done|].
  apply Forall_forall. intros node Hin.
  destruct (controlPlaneLabelFound node) eqn:Hfound; [|done].
  apply controlPlaneLabelFound_true in Hfound as (key & Hkey & Hlabel).
  exfalso. by eapply Hnone.
Qed.

(** Two tainted workers and no control-plane node: no taints. *)
Lemma getControlPlaneTaints_without_control_plane_witness :
  nodeLister_List workersEnv (trace emptyWorld) "c-1" = ([workerNode; workerNode], None) ∧
  getControlPlaneTaints workersEnv "c-1" emptyWorld
  = Ret (None, None) (after [EvListNodes "c-1"] emptyWorld).
Proof.
  split; [reflexivity|].
  apply (getControlPlaneTaints_without_control_plane workersEnv "c-1" emptyWorld
           [workerNode; workerNode] eq_refl).
  intros node key Hin Hkey (labels & Hlabels & Hlookup).
  assert (node = workerNode) as ->.
  { apply elem_of_cons in Hin as [->|Hin]; [done|].
    apply elem_of_cons in Hin as [->|Hin]; [done|]. inversion Hin. }
  injection Hlabels as <-.
  destruct Hkey as [-> | [-> | ->]]; vm_compute in Hlookup; discriminate Hlookup.
Defined.

Lemma collectTaints_origin (env : Env) (nodes : list Node) :
  addsOnlyDesired env →
  ∀ allTaints t,
    t ∈ elems (collectTaints env nodes allTaints) →
    t ∈ elems allTaints ∨
    ∃ node, node ∈ nodes ∧ controlPlaneLabelFound node = true ∧
            t ∈ elems (NodeTaints node).
Proof.
  intros Hdiff. induction nodes as [|node rest IH]; intros allTaints t; simpl.
  - by left.
  - destruct (controlPlaneLabelFound node) eqn:Hfound.
    + pose proof (Hdiff allTaints (NodeTaints node)) as Hadd.
      destruct (GetToDiffTaints env allTaints (NodeTaints node)) as [toAdd toDelete].
      simpl in Hadd. intros Hin.
      destruct (IH _ _ Hin) as [Hacc|(node' & Hin' & Hfound' & Ht)].
      * rewrite appendTaints_elems in Hacc.
        apply elem_of_app in Hacc as [Hacc|Hnew]; [by left|].
        right. exists node. split; [by left|]. split; [done|].
        apply Hadd. apply list_elem_of_In in Hnew.
        apply List.filter_In in Hnew as [Hnew _]. by apply list_elem_of_In.
      * right. exists node'. split; [by right|]. done.
    + intros Hin. destruct (IH _ _ Hin) as [Hacc|(node' & Hin' & Hfound' & Ht)].
      * by left.
      * right. exists node'. split; [by right|]. done.
Qed.

(** X6: when the difference function adds only taints that are desired,
    every taint [getControlPlaneTaints] collects is a taint of a listed node
    that carries a control-plane label, and is not Kubernetes-internal. *)
Theorem collectTaints_from_control_plane (env : Env) (nodes : list Node) (t : Taint) :
  addsOnlyDesired env →
  t ∈ elems (collectTaints env nodes None) →
  internalTaint t = false ∧
  ∃ node, node ∈ nodes ∧ controlPlaneLabelFound node = true ∧
          t ∈ elems (NodeTaints node).
Proof.
  intros Hdiff Hin. split.
  - pose proof (collectTaints_not_internal env nodes None (Forall_nil_2 _)) as Hall.
    rewrite Forall_forall in Hall. by apply Hall.
  - destruct (collectTaints_origin env nodes Hdiff None t Hin) as [Hacc|Hnode];
      [inversion Hacc | done].
Qed.

Lemma diffTaints_addsOnlyDesired (apply : list Event → string * option error)
    (delete : list Event → DaemonSetManifest → string * option error) :
  addsOnlyDesired (sampleEnv apply delete).
Proof.
  intros current desired t Hin. simpl in Hin.
  apply list_elem_of_In in Hin. apply List.filter_In in Hin as [Hin _].
  by apply list_elem_of_In.
Qed.

(** A worker and a control-plane node: the master taint is collected, and
    it is the control-plane node's. *)
Lemma collectTaints_from_control_plane_witness :
  masterTaint ∈ elems (collectTaints quietEnv [workerNode; masterNode] None) ∧
  internalTaint masterTaint = false ∧
  ∃ node, node ∈ [workerNode; masterNode] ∧ controlPlaneLabelFound node = true ∧
          masterTaint ∈ elems (NodeTaints node).
Proof.
  assert (masterTaint ∈ elems (collectTaints quietEnv [workerNode; masterNode] None))
    as Hin by (apply list_elem_of_In; vm_compute; tauto).
  split; [exact Hin|].
  exact (collectTaints_from_control_plane quietEnv [workerNode; masterNode] masterTaint
           (diffTaints_addsOnlyDesired _ _) Hin).
Defined.

(** ** The caches, continued *)

(** X7: [cacheControlPlaneTaints] lists the nodes once.  When the listing
    fails it returns the error and leaves the state as it was, but for the
    event; otherwise it stores the collected taints under the name, where
    [getCachedTaints] reads them back and [controlPlaneTaintsCached] finds
    them, and touches no other entry and no image. *)
Theorem cacheControlPlaneTaints_round_trip (env : Env) (name : string) (w : World) :
  match nodeLister_List env (trace w) name with
  | (_, Some e) =>
      cacheControlPlaneTaints env name w = Ret (Some e) (after [EvListNodes name] w)
  | (nodes, None) =>
      ∃ w', cacheControlPlaneTaints env name w = Ret None w' ∧
            trace w' = (trace w ++ [EvListNodes name])%list ∧
            agentImages_nodeImage w' = agentImages_nodeImage w ∧
            agentImages_clusterImage w' = agentImages_clusterImage w ∧
            returned (getCachedTaints name w') = Some (collectTaints env nodes None) ∧
            returned (controlPlaneTaintsCached name w') = Some true ∧
            ∀ other, other ≠ name →
                     controlPlaneTaints w' !! other = controlPlaneTaints w !! other
  end.
Proof.
  unfold cacheControlPlaneTaints, getControlPlaneTaints, setControlPlaneTaints. run.
  destruct (nodeLister_List env (trace w) name) as [nodes [e|]]; simpl; [done|].
  eexists. split; [reflexivity|]. simpl.
  unfold getCachedTaints, controlPlaneTaintsCached. simpl.
  rewrite lookup_insert_eq.
  split; [done|]. split; [done|]. split; [done|]. split; [done|].
  split.
  - f_equal. apply bool_decide_eq_true_2. rewrite lookup_insert_eq. by eexists.
  - intros other Hother. by rewrite lookup_insert_ne.
Qed.

(** The two lookups of [cacheAgentImages]: they return after at most two
    calls each, none of them a push, and change no cache. *)
Lemma getNodeAgentImage_returns (env : Env) (name : string) (w : World) :
  ∃ image err events,
    getNodeAgentImage env name w = Ret (image, err) (after events w) ∧
    pushes events = 0%nat.
Proof.
  unfold getNodeAgentImage. run.
  destruct (UserContext env (trace w) name) as [e|].
  - by exists EmptyString, (Some e), [EvUserContext name].
  - destruct (DaemonSets_Get env _ name) as [containers [e|]].
    + destruct (negb (apierrors_IsNotFound e)); run;
        eexists _, _, [EvUserContext name; EvGetDaemonSet name];
        (split; [|done]); unfold after, record; simpl; by rewrite <- app_assoc.
    + eexists _, _, [EvUserContext name; EvGetDaemonSet name].
      split; [|done]. unfold after, record; simpl; by rewrite <- app_assoc.
Qed.

Lemma getClusterAgentImage_returns (env : Env) (name : string) (w : World) :
  ∃ image err events,
    getClusterAgentImage env name w = Ret (image, err) (after events w) ∧
    pushes events = 0%nat.
Proof.
  unfold getClusterAgentImage. run.
  destruct (UserContext env (trace w) name) as [e|].
  - by exists EmptyString, (Some e), [EvUserContext name].
  - destruct (Deployments_Get env _ name) as [containers [e|]].
    + destruct (negb (apierrors_IsNotFound e)); run;
        eexists _, _, [EvUserContext name; EvGetDeployment name];
        (split; [|done]); unfold after, record; simpl; by rewrite <- app_assoc.
    + eexists _, _, [EvUserContext name; EvGetDeployment name].
      split; [|done]. unfold after, record; simpl; by rewrite <- app_assoc.
Qed.

(** X8: [cacheAgentImages] writes both images or none.  It always returns;
    when it returns an error, both caches are as they were; when it returns
    success, both maps have got an entry for the name and every other entry
    is as it was.  The taint cache is never touched. *)
Theorem cacheAgentImages_all_or_nothing (env : Env) (name : string) (w : World) :
  ∃ err w',
    cacheAgentImages env name w = Ret err w' ∧
    controlPlaneTaints w' = controlPlaneTaints w ∧
    (is_Some err →
     agentImages_nodeImage w' = agentImages_nodeImage w ∧
     agentImages_clusterImage w' = agentImages_clusterImage w) ∧
    (err = None →
     ∃ na ca,
       agentImages_nodeImage w' = <[name := na]> (agentImages_nodeImage w) ∧
       agentImages_clusterImage w' = <[name := ca]> (agentImages_clusterImage w) ∧
       returned (getAgentImages name w') = Some (na, ca)).
Proof.
  unfold cacheAgentImages.
  destruct (getNodeAgentImage_returns env name w) as (na & e1 & ev1 & Hn & _).
  unfold mbind at 1. unfold M_bind at 1. rewrite Hn.
  destruct e1 as [e1|].
  - exists (Some e1), (after ev1 w). by repeat split.
  - destruct (getClusterAgentImage_returns env name (after ev1 w))
      as (ca & e2 & ev2 & Hc & _).
    unfold mbind at 1. unfold M_bind at 1. rewrite Hc.
    destruct e2 as [e2|].
    + exists (Some e2), (after ev2 (after ev1 w)). by repeat split.
    + unfold setAgentImages. run. eexists None, _. split; [reflexivity|]. simpl.
      split; [done|]. split; [by intros [? ?]|]. intros _.
      exists na, ca. unfold getAgentImages. simpl.
      by rewrite !lookup_insert_eq.
Qed.

(** X9: a workload that is not found downstream is no error: the lookup
    yields the empty image.  [cacheAgentImages] then succeeds with an empty
    node-agent image in the cache, which [agentImagesCached] does not count
    as cached. *)
Theorem cacheAgentImages_not_found (env : Env) (name : string) (w : World)
    (containers : list Container) (e : error) :
  UserContext env (trace w) name = None →
  DaemonSets_Get env (trace w ++ [EvUserContext name]) name = (containers, Some e) →
  apierrors_IsNotFound e = true →
  getNodeAgentImage env name w
  = Ret (EmptyString, None) (after [EvUserContext name; EvGetDaemonSet name] w) ∧
  ∀ w', cacheAgentImages env name w = Ret None w' →
        agentImages_nodeImage w' !! name = Some EmptyString ∧
        returned (agentImagesCached name w') = Some false.
Proof.
  intros Huc Hget Hnf.
  assert (getNodeAgentImage env name w
          = Ret (EmptyString, None)
                (after [EvUserContext name; EvGetDaemonSet name] w)) as Hnode.
  { unfold getNodeAgentImage. run. rewrite Huc. run. rewrite Hget, Hnf. run.
    unfold after, record. simpl. by rewrite <- app_assoc. }
  split; [exact Hnode|].
  intros w'. unfold cacheAgentImages.
  unfold mbind at 1. unfold M_bind at 1. rewrite Hnode.
  destruct (getClusterAgentImage_returns env name
              (after [EvUserContext name; EvGetDaemonSet name] w))
    as (ca & e2 & ev2 & Hc & _).
  unfold mbind at 1. unfold M_bind at 1. rewrite Hc.
  destruct e2 as [e2|]; [by intros [=]|].
  unfold setAgentImages. run. intros [= <-].
  unfold agentImagesCached, getAgentImages. run.
  by rewrite !lookup_insert_eq.
Qed.

(** A cluster without a node agent workload: both images are stored, the
    node-agent one empty, and the cache still counts as not filled. *)
Lemma cacheAgentImages_not_found_witness :
  ∃ w',
    cacheAgentImages noNodeAgentEnv "c-1" emptyWorld = Ret None w' ∧
    agentImages_nodeImage w' !! "c-1" = Some EmptyString ∧
    returned (agentImagesCached "c-1" w') = Some false.
Proof.
  eexists. split; [vm_compute; reflexivity|].
  apply (proj2 (cacheAgentImages_not_found noNodeAgentEnv "c-1" emptyWorld []
                  (NotFound "daemonsets.apps cattle-node-agent not found")
                  eq_refl eq_refl eq_refl)).
  vm_compute. reflexivity.
Defined.

(** ** The reconcile pass, continued *)

(** X10: for a key whose cluster is gone, or is being deleted, [sync]
    removes the system account of the key and does nothing else: its result
    is the result of the removal, and no cache is touched. *)
Theorem sync_deleted (env : Env) (key : string) (cluster : option Cluster)
    (w : World) :
  (cluster = None ∨ ∃ c, cluster = Some c ∧ DeletionTimestamp c ≠ None) →
  sync env key cluster w
  = Ret (RemoveSystemAccount env (trace w ++ [syncCalled key]) key)
        (after [syncCalled key; EvRemoveSystemAccount key] w).
Proof.
  intros [->|(c & -> & Hdel)]; unfold sync; run.
  - unfold after, record. simpl. by rewrite <- app_assoc.
  - rewrite bool_decide_eq_true_2 by done. run.
    unfold after, record. simpl. by rewrite <- app_assoc.
Qed.

Lemma sync_deleted_witness :
  sync quietEnv "c-1" (Some deletedCluster) (cachedWorld agentV2 agentV2 None)
  = Ret None (after [syncCalled "c-1"; EvRemoveSystemAccount "c-1"]
                    (cachedWorld agentV2 agentV2 None)).
Proof.
  apply (sync_deleted quietEnv "c-1" (Some deletedCluster)).
  right. exists deletedCluster. split; [reflexivity|]. intros Heq. discriminate Heq.
Defined.

(** X11: for a provisioned cluster whose nodes cannot be listed, or that has
    no node yet, [doSync] stops after the listing: it hands back the error of
    the listing, if any, and the cluster as it was; no system account is
    created and no cache is touched. *)
Theorem doSync_without_nodes (env : Env) (cluster : Cluster) (w : World)
    (nodes : list Node) (err : option error) :
  cond_IsTrue ClusterConditionProvisioned cluster = true →
  nodeLister_List env (trace w ++ [doSyncCalled cluster]) (Name cluster) = (nodes, err) →
  is_Some err ∨ nodes = [] →
  doSync env cluster w
  = Ret (cluster, err) (after [doSyncCalled cluster; EvListNodes (Name cluster)] w).
Proof.
  intros Hprov Hlist Hstop. unfold doSync. run. rewrite Hprov. run.
  unfold doSyncCalled in Hlist. rewrite Hlist.
  assert (after [doSyncCalled cluster; EvListNodes (Name cluster)] w
          = record (EvListNodes (Name cluster))
              (record (EvTracef ("clusterDeploy: doSync called for cluster ["
                                 ++ Name cluster ++ "]")) w)) as ->.
  { unfold after, record. simpl. by rewrite <- app_assoc. }
  destruct err as [e|]; [done|].
  destruct Hstop as [[? [=]]| ->]. done.
Qed.

Lemma doSync_without_nodes_witness :
  doSync quietEnv provisionedCluster emptyWorld
  = Ret (provisionedCluster, None)
        (after [doSyncCalled provisionedCluster; EvListNodes "c-1"] emptyWorld).
Proof.
  apply (doSync_without_nodes quietEnv provisionedCluster emptyWorld [] None);
    [reflexivity | reflexivity | by right].
Defined.

(** ** The state commit *)

(** X12: the writes that end a successful deploy always go through (the
    force-deploy marker is rewritten only where the annotation map holds
    it, so the write cannot hit a nil map) and touch no cache.  Afterwards
    the recorded images and features are the desired ones, the applied
    environment variables are the desired ones, the force-deploy marker no
    longer reads [true], and a desired image of [fixed] is resolved; name
    and conditions are untouched. *)
Theorem commitState_records_desired (cluster : Cluster)
    (desiredAgent desiredAuth : string) (desiredFeatures : gomap bool)
    (w : World) :
  ∃ cluster',
    commitState cluster desiredAgent desiredAuth desiredFeatures w
    = Ret cluster' w ∧
    Name cluster' = Name cluster ∧
    Conditions (Status cluster') = Conditions (Status cluster) ∧
    AgentImage (Status cluster') = desiredAgent ∧
    AuthImage (Status cluster') = desiredAuth ∧
    AgentFeatures (Status cluster') = desiredFeatures ∧
    AppliedAgentEnvVars (Status cluster') = AgentEnvVars (Spec cluster') ∧
    AgentEnvVars (Spec cluster') = AgentEnvVars (Spec cluster) ∧
    go_index EmptyString (Annotations cluster') AgentForceDeployAnn ≠ "true" ∧
    (DesiredAgentImage (Spec cluster) = "fixed" →
     DesiredAgentImage (Spec cluster') = desiredAgent) ∧
    (DesiredAuthImage (Spec cluster) = "fixed" →
     DesiredAuthImage (Spec cluster') = desiredAuth).
Proof.
  unfold commitState, go_assign. run.
  destruct cluster as [name del ann [] []]. simpl.
  repeat case_bool_decide; destruct ann as [g|]; simpl in *;
    repeat case_bool_decide; simpl; try discriminate;
    (eexists; split; [reflexivity|]); simpl;
    repeat split; try done; by rewrite lookup_insert_eq.
Qed.

(** ** The network policy default *)

(** X13: [setNetworkPolicyAnn] never fails and touches no state.  It changes
    the cluster only when no setting is recorded and the plugin is canal, and
    then records the setting; applied to its own result it changes nothing
    more.  On a canal cluster without a setting whose annotation map is nil,
    the write of the annotation panics. *)
Theorem setNetworkPolicyAnn_sets_default_once (cluster : Cluster)
    (w : World) :
  (setNetworkPolicyAnn cluster w = Panic ↔
   canalUnset cluster ∧ Annotations cluster = None) ∧
  (∀ cluster' err w',
     setNetworkPolicyAnn cluster w = Ret (cluster', err) w' →
     err = None ∧ w' = w ∧
     (¬ canalUnset cluster → cluster' = cluster) ∧
     (canalUnset cluster → EnableNetworkPolicy (Spec cluster') = Some true) ∧
     setNetworkPolicyAnn cluster' w = Ret (cluster', None) w).
Proof.
  unfold setNetworkPolicyAnn, canalUnset.
  destruct cluster as [name del ann spec status]. simpl.
  destruct (EnableNetworkPolicy spec) as [policy|] eqn:Hpolicy.
  { split; [split; [done | by intros [[? _] _]]|].
    intros c' err w' [= <- <- <-]. simpl. rewrite Hpolicy.
    repeat split; try done. by intros [? _]. }
  destruct (RKEConfig spec) as [rke|] eqn:Hrke.
  2: { split; [split; [done | by intros [[_ (? & ? & _)] _]]|].
       intros c' err w' [= <- <- <-]. simpl. rewrite Hpolicy, Hrke.
       repeat split; try done. by intros [_ (? & ? & _)]. }
  case_bool_decide as Hcanal.
  2: { split; [split; [done | intros [[_ (rke' & [= <-] & ?)] _]; done]|].
       intros c' err w' [= <- <- <-]. simpl. rewrite Hpolicy, Hrke.
       rewrite bool_decide_eq_false_2 by done.
       repeat split; try done. intros [_ (rke' & [= <-] & ?)]. done. }
  run. destruct ann as [g|]; simpl.
  - split; [split; [done | by intros [_ ?]]|].
    intros c' err w' [= <- <- <-]. simpl.
    repeat split; try done. intros Hnot. exfalso. apply Hnot. eauto.
  - split; [|by intros c' err w' [=]].
    split; [|done]. intros _. eauto.
Qed.

(** A canal cluster without a setting: the default is recorded, once. *)
Lemma setNetworkPolicyAnn_sets_default_once_witness :
  canalUnset canalCluster ∧
  ∃ cluster',
    setNetworkPolicyAnn canalCluster emptyWorld
    = Ret (cluster', None) emptyWorld ∧
    EnableNetworkPolicy (Spec cluster') = Some true ∧
    setNetworkPolicyAnn cluster' emptyWorld = Ret (cluster', None) emptyWorld.
Proof.
  assert (canalUnset canalCluster) as Hcanal.
  { split; [reflexivity|]. eexists. split; reflexivity. }
  split; [exact Hcanal|].
  eexists. split; [vm_compute; reflexivity|].
  destruct (proj2 (setNetworkPolicyAnn_sets_default_once canalCluster emptyWorld)
              _ None emptyWorld eq_refl) as (_ & _ & _ & Hset & Hagain).
  split; [exact (Hset Hcanal) | exact Hagain].
Defined.

(** ** Rendering *)

(** X14: while the server URL is not set, the action of [deployAgent]
    pushes nothing: it asks for the cluster token, and either returns the
    error of that call, or schedules a re-check of the cluster in one second
    and returns the error of the missing URL; the cluster is as it was. *)
Theorem applyAgent_waits_for_server_url (env : Env) (cluster : Cluster)
    (desiredAgent desiredAuth : string) (desiredFeatures : gomap bool)
    (desiredTaints : slice Taint) (kubeConfig : KubeConfig) (w : World) :
  ServerURL env = EmptyString →
  applyAgent env desiredAgent desiredAuth desiredFeatures desiredTaints
             kubeConfig cluster w
  = match GetOrCreateSystemClusterToken env (trace w) (Name cluster) with
    | (_, Some e) =>
        Ret (cluster, Some e)
            (after [EvGetOrCreateSystemClusterToken (Name cluster)] w)
    | (_, None) =>
        Ret (cluster, Some (New "waiting for server-url setting to be set"))
            (after [EvGetOrCreateSystemClusterToken (Name cluster);
                    EvEnqueueAfter (Name cluster) 1] w)
    end.
Proof.
  intros Hurl. unfold applyAgent, getYAML. run. rewrite Hurl.
  destruct (GetOrCreateSystemClusterToken env (trace w) (Name cluster))
    as [token [e|]]; run; [done|].
  unfold after, record. simpl. by rewrite <- app_assoc.
Qed.

Lemma applyAgent_waits_for_server_url_witness :
  applyAgent noURLEnv agentV2 EmptyString (Some ∅) None sampleKube
             (deployedCluster emptySpec emptySpec) emptyWorld
  = Ret (deployedCluster emptySpec emptySpec,
         Some (New "waiting for server-url setting to be set"))
        (after [EvGetOrCreateSystemClusterToken "c-1"; EvEnqueueAfter "c-1" 1]
               emptyWorld).
Proof.
  apply (applyAgent_waits_for_server_url noURLEnv
           (deployedCluster emptySpec emptySpec)). reflexivity.
Defined.

(** ** Output formatting *)

Lemma hasNewline_app (a b : string) :
  hasNewline (a ++ b) = hasNewline a || hasNewline b.
Proof.
  induction a as [|c a IH]; simpl; [done|].
  by rewrite IH, orb_assoc.
Qed.

Lemma hasNewline_substring (s : string) :
  hasNewline s = false → ∀ n m, hasNewline (String.substring n m s) = false.
Proof.
  induction s as [|c s IH]; intros Hs n m.
  - by destruct n, m.
  - simpl in Hs. apply orb_false_iff in Hs as [Hc Hs].
    destruct n as [|n]; [destruct m as [|m]|]; simpl; [done| |by apply IH].
    rewrite Hc. simpl. by apply IH.
Qed.

Lemma hasNewline_replace_newlines (s : string) :
  hasNewline (replace_newlines s) = false.
Proof.
  induction s as [|c s IH]; simpl; [done|].
  rewrite IH, orb_false_r.
  destruct (Ascii.eqb c (Ascii.ascii_of_nat 10)) eqn:Hc; [done|exact Hc].
Qed.

Lemma length_replace_newlines (s : string) :
  String.length (replace_newlines s) = String.length s.
Proof. induction s as [|c s IH]; simpl; [done|]. by rewrite IH. Qed.

Lemma hasNewline_Replace1 (s old new : string) :
  hasNewline s = false → hasNewline new = false →
  hasNewline (strings_Replace1 s old new) = false.
Proof.
  intros Hs Hnew. unfold strings_Replace1.
  destruct (strings_Index s old) as [i|]; [|done].
  by rewrite !hasNewline_app, Hnew, !hasNewline_substring.
Qed.

Lemma substring_all (s : string) : String.substring 0 (String.length s) s = s.
Proof. induction s as [|c s IH]; simpl; [done|]. by rewrite IH. Qed.

Lemma strings_Replace1_empty (s new : string) :
  strings_Replace1 s EmptyString new = new ++ s.
Proof.
  unfold strings_Replace1.
  assert (strings_Index s EmptyString = Some 0%nat) as ->.
  { destruct s; reflexivity. }
  simpl. rewrite Nat.sub_0_r, substring_all.
  by destruct s.
Qed.

(** X15: the formatted output of a push holds no line feed.  An output in
    which no token is found is the output with each line feed turned into a
    space, of the same length; where the token found is empty, the marker is
    put in front of it. *)
Theorem formatKubectlApplyOutput_one_line (log : string) :
  hasNewline (formatKubectlApplyOutput log) = false ∧
  String.length (replace_newlines log) = String.length log ∧
  (tokenSubmatch (replace_newlines log) = None →
   formatKubectlApplyOutput log = replace_newlines log) ∧
  (tokenSubmatch (replace_newlines log) = Some EmptyString →
   formatKubectlApplyOutput log = "REDACTED" ++ replace_newlines log).
Proof.
  unfold formatKubectlApplyOutput.
  split; [|split; [apply length_replace_newlines|split]].
  - destruct (tokenSubmatch (replace_newlines log)) as [token|].
    + apply hasNewline_Replace1; [apply hasNewline_replace_newlines | done].
    + apply hasNewline_replace_newlines.
  - by intros ->.
  - intros ->. apply strings_Replace1_empty.
Qed.

Example formatKubectlApplyOutput_redacts :
  formatKubectlApplyOutput
    ("secret/cattle-credentials configured" ++ String (Ascii.ascii_of_nat 10)
       ("{" ++ dquote ++ "token" ++ dquote ++ ":" ++ dquote ++ "kubeconfig-u-1:xyz"
        ++ dquote ++ "}"))
  = "secret/cattle-credentials configured {" ++ dquote ++ "token" ++ dquote ++ ":"
    ++ dquote ++ "REDACTED" ++ dquote ++ "}".
Proof. vm_compute. reflexivity. Qed.

(** ** What a pass keeps *)

Lemma triple_ret {A} (P : World → Prop) (Q : A → World → Prop) (a : A) :
  (∀ w, P w → Q a w) → triple P (mret a) Q.
Proof. intros H w Hw. by apply H. Qed.

Lemma triple_bind {A B} (P : World → Prop) (R : A → World → Prop)
    (Q : B → World → Prop) (m : M A) (f : A → M B) :
  triple P m R → (∀ a, triple (R a) (f a) Q) → triple P (m ≫= f) Q.
Proof.
  intros Hm Hf w Hw. unfold mbind, M_bind.
  specialize (Hm w Hw). destruct (m w) as [|a w']; [done|].
  by apply Hf.
Qed.

Lemma triple_weaken {A} (P P0 : World → Prop) (Q Q0 : A → World → Prop) (m : M A) :
  triple P0 m Q0 → (∀ w, P w → P0 w) → (∀ a w, Q0 a w → Q a w) → triple P m Q.
Proof.
  intros Hm HP HQ w Hw. specialize (Hm w (HP w Hw)).
  destruct (m w); [done|]. by apply HQ.
Qed.

Lemma quiet_ret {A} (Q : A → Prop) (a : A) : Q a → quiet (mret a) Q.
Proof. intros Ha w. exists a, []. by rewrite after_nil. Qed.

Lemma quiet_call {A} (Q : A → Prop) (e : Event) (answer : list Event → A) :
  passEvent e = true → (∀ h, Q (answer h)) → quiet (call e answer) Q.
Proof.
  intros He Ha w. exists (answer (trace w)), [e].
  split; [done|]. split; [by constructor | apply Ha].
Qed.

Lemma quiet_bind {A B} (R : A → Prop) (Q : B → Prop) (m : M A) (f : A → M B) :
  quiet m R → (∀ a, R a → quiet (f a) Q) → quiet (m ≫= f) Q.
Proof.
  intros Hm Hf w. unfold mbind, M_bind.
  destruct (Hm w) as (a & evs & -> & Hevs & Ha).
  destruct (Hf a Ha (after evs w)) as (b & evs' & -> & Hevs' & Hb).
  exists b, (evs ++ evs')%list. rewrite after_after.
  split; [done|]. split; [by apply Forall_app | done].
Qed.

Lemma quiet_weaken {A} (Q Q0 : A → Prop) (m : M A) :
  quiet m Q0 → (∀ a, Q0 a → Q a) → quiet m Q.
Proof.
  intros Hm HQ w. destruct (Hm w) as (a & evs & Hrun & Hevs & Ha).
  exists a, evs. auto.
Qed.

Lemma quiet_read {A} (Q : A → Prop) (m : M A) :
  (∀ w, ∃ a, m w = Ret a w ∧ Q a) → quiet m Q.
Proof.
  intros Hm w. destruct (Hm w) as (a & Hrun & Ha).
  exists a, []. by rewrite after_nil.
Qed.

Lemma after_cons (e : Event) (evs : list Event) (w : World) :
  after (e :: evs) w = after evs (record e w).
Proof. unfold after, record. simpl. by rewrite <- app_assoc. Qed.

Lemma getKubeConfig_quiet (env : Env) (cluster : Cluster) :
  quiet (getKubeConfig env cluster) (λ _, True).
Proof.
  unfold getKubeConfig, logrus_Tracef.
  eapply quiet_bind; [by apply (quiet_call (λ _, True)) | intros _ _].
  eapply quiet_bind; [by apply (quiet_call (λ _, True)) | intros [user [e|]] _].
  - by apply quiet_ret.
  - eapply quiet_bind; [by apply (quiet_call (λ _, True)) | intros [token [e|]] _];
      by apply quiet_ret.
Qed.

Lemma getYAML_quiet (env : Env) (cluster : Cluster) (agentImage authImage : string)
    (features : gomap bool) (taints : slice Taint) :
  quiet (getYAML env cluster agentImage authImage features taints) (λ _, True).
Proof.
  unfold getYAML.
  eapply quiet_bind; [by apply (quiet_call (λ _, True)) | intros [token [e|]] _].
  - by apply quiet_ret.
  - simpl. case_bool_decide.
    + eapply quiet_bind; [by apply (quiet_call (λ _, True)) | intros _ _].
      by apply quiet_ret.
    + by apply (quiet_call (λ _, True)).
Qed.

Lemma getNodeAgentImage_quiet (env : Env) (name : string) :
  quiet (getNodeAgentImage env name) (λ _, True).
Proof.
  unfold getNodeAgentImage.
  eapply quiet_bind; [by apply (quiet_call (λ _, True)) | intros [e|] _].
  - by apply quiet_ret.
  - eapply quiet_bind; [by apply (quiet_call (λ _, True)) | intros [cs [e|]] _].
    + destruct (negb (apierrors_IsNotFound e)); by apply quiet_ret.
    + by apply quiet_ret.
Qed.

Lemma getClusterAgentImage_quiet (env : Env) (name : string) :
  quiet (getClusterAgentImage env name) (λ _, True).
Proof.
  unfold getClusterAgentImage.
  eapply quiet_bind; [by apply (quiet_call (λ _, True)) | intros [e|] _].
  - by apply quiet_ret.
  - eapply quiet_bind; [by apply (quiet_call (λ _, True)) | intros [cs [e|]] _].
    + destruct (negb (apierrors_IsNotFound e)); by apply quiet_ret.
    + by apply quiet_ret.
Qed.

Lemma getControlPlaneTaints_quiet (env : Env) (name : string) :
  quiet (getControlPlaneTaints env name) (λ _, True).
Proof.
  unfold getControlPlaneTaints.
  eapply quiet_bind; [by apply (quiet_call (λ _, True)) | intros [nodes [e|]] _];
    by apply quiet_ret.
Qed.

Lemma sameButConditions_refl (c : Cluster) : sameButConditions c c.
Proof. by repeat split. Qed.

Lemma sameButConditions_trans (c1 c2 c3 : Cluster) :
  sameButConditions c1 c2 → sameButConditions c2 c3 → sameButConditions c1 c3.
Proof.
  unfold sameButConditions. intros H12 H23.
  destruct H12 as (? & ? & ? & ? & ? & ? & ? & ? & ? & ?).
  destruct H23 as (? & ? & ? & ? & ? & ? & ? & ? & ? & ?).
  repeat split; congruence.
Qed.

Lemma sameButConditions_message (name message : string) (c : Cluster) :
  sameButConditions c (cond_Message name c message).
Proof. by repeat split. Qed.

Lemma sameButConditions_status (name status : string) (c : Cluster) :
  sameButConditions c (cond_SetStatus name status c).
Proof. by repeat split. Qed.

Lemma removeNodeAgent_quiet (env : Env) (cluster : Cluster)
    (kubeConfig : KubeConfig) (output : string) :
  quiet (removeNodeAgent env cluster kubeConfig output)
        (λ r, sameButConditions cluster r.1).
Proof.
  unfold removeNodeAgent. destruct (negb (bool_decide _)).
  - eapply quiet_bind; [by apply (quiet_call (λ _, True)) | intros [out err] _].
    destruct (deleteFailed err out nodeAgentNotFoundError); apply quiet_ret; simpl;
      [apply sameButConditions_refl | apply sameButConditions_message].
  - apply quiet_ret. apply sameButConditions_message.
Qed.

Lemma removeCompanions_quiet (env : Env) (cluster : Cluster)
    (kubeConfig : KubeConfig) (output : string) :
  quiet (removeCompanions env cluster kubeConfig output)
        (λ r, sameButConditions cluster r.1).
Proof.
  unfold removeCompanions.
  eapply (quiet_bind (λ _, True)).
  - destruct (authRemovalDue cluster);
      [by apply (quiet_call (λ _, True)) | by apply quiet_ret].
  - intros [out err] _.
    destruct (deleteFailed err out authNotFoundError).
    + apply quiet_ret. apply sameButConditions_refl.
    + apply removeNodeAgent_quiet.
Qed.

Lemma stable_after (R : World → Prop) (evs : list Event) :
  stable R → Forall (λ e, passEvent e = true) evs → ∀ w, R w → R (after evs w).
Proof.
  intros HR. induction 1 as [|e evs He _ IH]; intros w Hw.
  - by rewrite after_nil.
  - rewrite after_cons. apply IH. by apply HR.
Qed.

Lemma quiet_triple {A} (R : World → Prop) (m : M A) (Q : A → Prop) :
  stable R → quiet m Q → triple R m (λ a w', Q a ∧ R w').
Proof.
  intros HR Hm w Hw. destruct (Hm w) as (a & evs & -> & Hevs & Ha).
  split; [done|]. by apply stable_after.
Qed.

Lemma tracef_triple (R : World → Prop) (message : string) :
  stable R → triple R (logrus_Tracef message) (λ _, R).
Proof. intros HR w Hw. unfold logrus_Tracef, call. by apply HR. Qed.

Lemma cacheAgentImages_triple (env : Env) (name : string) (R : World → Prop) :
  stable R →
  (∀ na ca, triple R (setAgentImages name na ca) (λ _, R)) →
  triple R (cacheAgentImages env name) (λ _, R).
Proof.
  intros HR Hset. unfold cacheAgentImages.
  eapply triple_bind; [apply (quiet_triple R _ _ HR (getNodeAgentImage_quiet env name))|].
  intros [na [e|]]; [by apply triple_ret; intros w [_ ?]|].
  eapply triple_bind.
  { eapply triple_weaken;
      [apply (quiet_triple R _ _ HR (getClusterAgentImage_quiet env name))
      | by intros w [_ ?] | by intros a w H; exact H]. }
  intros [ca [e|]]; [by apply triple_ret; intros w [_ ?]|].
  eapply triple_bind.
  { eapply triple_weaken; [apply (Hset na ca) | by intros w [_ ?] | by intros a w H;
      exact H]. }
  intros u. by apply triple_ret.
Qed.

Lemma cacheControlPlaneTaints_triple (env : Env) (name : string) (R : World → Prop) :
  stable R →
  (∀ taints, triple R (setControlPlaneTaints name taints) (λ _, R)) →
  triple R (cacheControlPlaneTaints env name) (λ _, R).
Proof.
  intros HR Hset. unfold cacheControlPlaneTaints.
  eapply triple_bind;
    [apply (quiet_triple R _ _ HR (getControlPlaneTaints_quiet env name))|].
  intros [taints [e|]]; [by apply triple_ret; intros w [_ ?]|].
  eapply triple_bind.
  { eapply triple_weaken; [apply (Hset taints) | by intros w [_ ?] | by intros a w H;
      exact H]. }
  intros u. by apply triple_ret.
Qed.

Lemma redeployAgent_triple (env : Env) (cluster : Cluster)
    (desiredAgent desiredAuth : string) (desiredFeatures : gomap bool)
    (desiredTaints : slice Taint) (R : World → Prop) :
  stable R →
  triple R (deleteAgentImages (Name cluster)) (λ _, R) →
  triple R (deleteControlPlaneTaints (Name cluster)) (λ _, R) →
  triple R (redeployAgent env cluster desiredAgent desiredAuth desiredFeatures
                          desiredTaints) (λ _, R).
Proof.
  intros HR HdelI HdelT w Hw. rewrite redeployAgent_steps.
  assert (R (after [redeployCalled cluster] w)) as Hcalled.
  { apply stable_after; [done | by repeat constructor | done]. }
  destruct (negb (cond_IsTrue _ _)); [done|].
  destruct (statusFacetsChanged _ _ _ _ _); [done|].
  destruct (imageMismatch cluster w).
  { apply (HdelI (after [redeployCalled cluster;
       EvTracef ("clusterDeploy: clearAgentImages called for [" ++ Name cluster ++ "]")] w)).
    apply stable_after; [done | by repeat constructor | done]. }
  destruct (taintMismatch env cluster desiredTaints w); [|done].
  apply (HdelT (after [redeployCalled cluster;
     EvTracef ("clusterDeploy: clearControlPlaneTaints called for ["
               ++ Name cluster ++ "]")] w)).
  apply stable_after; [done | by repeat constructor | done].
Qed.

Lemma cond_Do_triple (name : string) (c : Cluster)
    (action : Cluster → M (Cluster * option error)) (R R' : World → Prop) :
  triple R (action c) (λ r w', R' w' ∧ sameButConditions c r.1) →
  triple R (cond_Do name c action) (λ r w', R' w' ∧ sameButConditions c r.1).
Proof.
  intros Haction. unfold cond_Do.
  eapply triple_bind; [exact Haction|].
  intros [c' [e|]]; apply triple_ret; intros w [Hw Hsame]; simpl in *;
    (split; [done|]).
  - eapply sameButConditions_trans; [exact Hsame|].
    eapply sameButConditions_trans;
      [apply sameButConditions_status | apply sameButConditions_message].
  - eapply sameButConditions_trans; [exact Hsame | apply sameButConditions_status].
Qed.

Lemma commitState_returns (cluster : Cluster) (desiredAgent desiredAuth : string)
    (desiredFeatures : gomap bool) (w : World) :
  ∃ cluster', commitState cluster desiredAgent desiredAuth desiredFeatures w
              = Ret cluster' w ∧ Name cluster' = Name cluster.
Proof.
  unfold commitState, go_assign. run.
  destruct cluster as [name del ann [] []]. simpl.
  repeat case_bool_decide; destruct ann as [g|]; simpl in *;
    repeat case_bool_decide; simpl; try discriminate;
    by eexists.
Qed.

Lemma setNetworkPolicyAnn_returns (cluster cluster' : Cluster)
    (err : option error) (w w' : World) :
  setNetworkPolicyAnn cluster w = Ret (cluster', err) w' →
  w' = w ∧ err = None ∧ Name cluster' = Name cluster.
Proof.
  unfold setNetworkPolicyAnn, go_assign.
  destruct (EnableNetworkPolicy (Spec cluster)); [by intros [= <- <- <-]|].
  destruct (RKEConfig (Spec cluster)) as [rke|]; [|by intros [= <- <- <-]].
  case_bool_decide; [|by intros [= <- <- <-]].
  run. destruct (Annotations cluster); [|done].
  by intros [= <- <- <-].
Qed.

Lemma triple_assume {A} (R : World → Prop) (fact : Prop) (m : M A)
    (Q : A → World → Prop) :
  (fact → triple R m Q) → triple (λ w, R w ∧ fact) m Q.
Proof. intros Hm w [Hw Hfact]. by apply Hm. Qed.

Lemma setAuthStrategy_returns (cluster copy : Cluster) (w w' : World) :
  setAuthStrategy cluster w = Ret copy w' →
  w' = w ∧ Name copy = Name cluster.
Proof.
  unfold setAuthStrategy. case_bool_decide; [|by intros [= <- <-]].
  destruct (RKEConfig (Spec cluster)); [|done]. by intros [= <- <-].
Qed.

(** A pass over the cluster [name], from a state in [P]: the predicate
    survives the pass events and the writes to the entries of [name]; the
    apply loop takes it to [P'], which survives what follows the loop. *)
Section Pass.

Context (env : Env) (name : string) (P P' : World → Prop).
Hypothesis P_stable : stable P.
Hypothesis P'_stable : stable P'.
Hypothesis P_P' : ∀ w, P w → P' w.
Hypothesis P_setImages : ∀ na ca, triple P (setAgentImages name na ca) (λ _, P).
Hypothesis P'_setImages : ∀ na ca, triple P' (setAgentImages name na ca) (λ _, P').
Hypothesis P_setTaints : ∀ taints, triple P (setControlPlaneTaints name taints) (λ _, P).
Hypothesis P_deleteImages : triple P (deleteAgentImages name) (λ _, P).
Hypothesis P_deleteTaints : triple P (deleteControlPlaneTaints name) (λ _, P).
Hypothesis P_loop :
  ∀ yaml kubeConfig,
    triple P (applyLoop env 5 yaml kubeConfig EmptyString None) (λ _, P').

Lemma applyAgent_triple (desiredAgent desiredAuth : string)
    (desiredFeatures : gomap bool) (desiredTaints : slice Taint)
    (kubeConfig : KubeConfig) (cluster : Cluster) :
  triple P (applyAgent env desiredAgent desiredAuth desiredFeatures desiredTaints
                       kubeConfig cluster)
         (λ r w', P' w' ∧ sameButConditions cluster r.1).
Proof.
  unfold applyAgent.
  eapply triple_bind;
    [apply (quiet_triple P _ _ P_stable
              (getYAML_quiet env cluster desiredAgent desiredAuth desiredFeatures
                             desiredTaints))|].
  intros [yaml [e|]].
  - apply triple_ret. intros w [_ Hw].
    split; [by apply P_P' | apply sameButConditions_refl].
  - eapply triple_bind.
    { eapply triple_weaken;
        [apply (P_loop yaml kubeConfig) | by intros w [_ ?] | intros a w H; exact H]. }
    intros [output [e|]].
    + apply triple_ret. intros w Hw. split; [done | apply sameButConditions_refl].
    + eapply triple_weaken;
        [apply (quiet_triple P' _ _ P'_stable
                  (removeCompanions_quiet env
                     (cond_Message ClusterConditionAgentDeployed cluster output)
                     kubeConfig output))
        | done |].
      intros r w [Hsame Hw]. split; [done|].
      eapply sameButConditions_trans; [apply sameButConditions_message | exact Hsame].
Qed.

Lemma deployAgent_triple (cluster : Cluster) :
  Name cluster = name →
  triple P (deployAgent env cluster)
         (λ r w', P' w' ∧ Name r.1 = Name cluster ∧
                  (is_Some r.2 → sameButConditions cluster r.1)).
Proof.
  intros Hname. unfold deployAgent.
  destruct (Internal (Spec cluster)).
  { apply triple_ret. intros w Hw. split; [by apply P_P'|].
    split; [done | by intros [? ?]]. }
  eapply triple_bind; [by apply tracef_triple|]. intros u.
  eapply triple_bind;
    [apply (quiet_triple P _ _ P_stable (getControlPlaneTaints_quiet env (Name cluster)))|].
  intros [desiredTaints [e|]].
  { apply triple_ret. intros w [_ Hw]. split; [by apply P_P'|].
    split; [done | intros _; apply sameButConditions_refl]. }
  eapply triple_bind.
  { eapply triple_weaken;
      [apply (redeployAgent_triple env cluster _ _ _ desiredTaints P P_stable);
       rewrite Hname; assumption
      | by intros w [_ ?] | intros a w H; exact H]. }
  intros [|]; simpl.
  2: { apply triple_ret. intros w Hw. split; [by apply P_P'|].
       split; [done | by intros [? ?]]. }
  eapply triple_bind;
    [apply (quiet_triple P _ _ P_stable (getKubeConfig_quiet env cluster))|].
  intros [kubeConfig|e].
  2: { apply triple_ret. intros w [_ Hw]. split; [by apply P_P'|].
       split; [done | intros _; apply sameButConditions_refl]. }
  eapply triple_bind.
  { eapply triple_weaken;
      [apply cond_Do_triple, applyAgent_triple | by intros w [_ ?]
      | intros a w H; exact H]. }
  intros [c1 [e|]].
  { apply triple_ret. intros w [Hw Hsame]. split; [done|].
    split; [apply Hsame | by intros _]. }
  simpl. apply triple_assume. intros Hsame.
  assert (Name c1 = name) as Hname1 by (rewrite <- Hname; apply Hsame).
  eapply triple_bind.
  { apply (cacheAgentImages_triple env (Name c1) P' P'_stable).
    rewrite Hname1. exact P'_setImages. }
  intros [e|].
  { apply triple_ret. intros w Hw. split; [done|].
    split; [apply Hsame | by intros _]. }
  intros w Hw. unfold mbind, M_bind.
  destruct (commitState_returns c1 (desiredAgentImage env cluster)
              (desiredAuthImage env cluster) (Some ∅) w) as (c2 & -> & Hname2).
  simpl. split; [done|]. split; [|by intros [? ?]].
  rewrite Hname2. apply Hsame.
Qed.

Lemma doSync_triple (cluster : Cluster) :
  Name cluster = name →
  triple P (doSync env cluster)
         (λ r w', P' w' ∧ Name r.1 = Name cluster ∧
                  (is_Some r.2 → sameButConditions cluster r.1)).
Proof.
  intros Hname. unfold doSync.
  eapply triple_bind; [by apply tracef_triple|]. intros u.
  destruct (negb (cond_IsTrue ClusterConditionProvisioned cluster)).
  { apply triple_ret. intros w Hw. split; [by apply P_P'|].
    split; [done | by intros [? ?]]. }
  eapply triple_bind.
  { apply (quiet_triple P _ (λ _, True) P_stable). by apply quiet_call. }
  intros [nodes [e|]].
  { apply triple_ret. intros w [_ Hw]. split; [by apply P_P'|].
    split; [done | intros _; apply sameButConditions_refl]. }
  case_bool_decide as Hnodes.
  { apply triple_ret. intros w [_ Hw]. split; [by apply P_P'|].
    split; [done | by intros [? ?]]. }
  eapply (triple_bind _ (λ r w', P w' ∧ sameButConditions cluster r.1)).
  { unfold cond_DoUntilTrue.
    destruct (cond_IsTrue ClusterConditionSystemAccountCreated cluster).
    - apply triple_ret. intros w [_ Hw].
      split; [done | apply sameButConditions_refl].
    - eapply triple_weaken;
        [apply (cond_Do_triple _ _ _ P P) | by intros w [_ ?]
        | intros a w H; exact H].
      eapply triple_bind.
      { apply (quiet_triple P _ (λ _, True) P_stable). by apply quiet_call. }
      intros err. apply triple_ret. intros w [_ Hw].
      split; [done | apply sameButConditions_refl]. }
  intros [c1 [e|]].
  { apply triple_ret. intros w [Hw Hsame]. split; [by apply P_P'|].
    split; [apply Hsame | by intros _]. }
  simpl. apply triple_assume. intros Hsame.
  assert (Name c1 = name) as Hname1 by (rewrite <- Hname; apply Hsame).
  eapply (triple_bind _ (λ _, P)).
  { destruct (negb (bool_decide (AgentImage (Status c1) = EmptyString)));
      [|by apply triple_ret].
    eapply triple_bind.
    { apply (quiet_triple P _ (λ _, True) P_stable).
      apply quiet_read. intros w. eexists. split; [reflexivity | done]. }
    intros [|]; simpl.
    - apply triple_ret. by intros w [_ ?].
    - eapply triple_weaken;
        [apply (cacheAgentImages_triple env (Name c1) P P_stable);
         rewrite Hname1; exact P_setImages
        | by intros w [_ ?] | intros a w H; exact H]. }
  intros [e|].
  { apply triple_ret. intros w Hw. split; [by apply P_P'|].
    split; [apply Hsame | by intros _]. }
  eapply triple_bind.
  { apply (quiet_triple P _ (λ _, True) P_stable).
    apply quiet_read. intros w. eexists. split; [reflexivity | done]. }
  intros cached.
  eapply (triple_bind _ (λ _, P)).
  { destruct (negb cached); [|apply triple_ret; by intros w [_ ?]].
    eapply triple_weaken;
      [apply (cacheControlPlaneTaints_triple env (Name c1) P P_stable);
       rewrite Hname1; exact P_setTaints
      | by intros w [_ ?] | intros a w H; exact H]. }
  intros [e|].
  { apply triple_ret. intros w Hw. split; [by apply P_P'|].
    split; [apply Hsame | by intros _]. }
  eapply triple_bind; [apply (deployAgent_triple c1 Hname1)|].
  intros [c2 [e|]].
  { apply triple_ret. intros w (Hw & Hname2 & Hsame2). split; [done|]. simpl in *.
    split; [rewrite Hname2; apply Hsame|]. intros _.
    eapply sameButConditions_trans; [exact Hsame | apply Hsame2; by eexists]. }
  intros w (Hw & Hname2 & _). simpl in *.
  destruct (setNetworkPolicyAnn c2 w) as [|[c3 err] w3] eqn:Hset; [done|].
  apply setNetworkPolicyAnn_returns in Hset as (-> & -> & Hname3).
  simpl. split; [done|]. split; [|by intros [? ?]].
  rewrite Hname3, Hname2. apply Hsame.
Qed.

Lemma sync_triple (key : string) (cluster : Cluster) :
  Name cluster = name →
  DeletionTimestamp cluster = None →
  triple P (sync env key (Some cluster))
         (λ _ w', P' w' ∨ ∃ copy w'', P' w'' ∧ w' = record (EvUpdate copy) w'').
Proof.
  intros Hname Hlive. unfold sync.
  eapply triple_bind; [by apply tracef_triple|]. intros u.
  rewrite bool_decide_eq_false_2 by (rewrite Hlive; by intros ?).
  intros w Hw. unfold mbind at 1. unfold M_bind at 1.
  destruct (setAuthStrategy cluster w) as [|copy w0] eqn:Hcopy; [done|].
  apply setAuthStrategy_returns in Hcopy as (-> & Hname0).
  unfold mbind at 1. unfold M_bind at 1.
  pose proof (doSync_triple copy (eq_trans Hname0 Hname) w Hw) as Hsync.
  destruct (doSync env copy w) as [|[copy' err] w1]; [done|].
  destruct Hsync as (Hw1 & _). simpl.
  destruct (negb (reflect_DeepEqual copy' cluster)); run.
  - destruct err; right; eauto.
  - destruct err; by left.
Qed.

End Pass.

(** The events of the apply loop: pushes and delays only, at most [n]
    pushes, at most five seconds of delay for each. *)
Lemma applyLoop_events (env : Env) (yaml : string) (kubeConfig : KubeConfig)
    (n : nat) :
  ∀ (output : string) (err : option error) (w : World),
    ∃ r events,
      applyLoop env n yaml kubeConfig output err w = Ret r (after events w) ∧
      (pushes events ≤ n)%nat ∧
      (0 ≤ sleepSeconds events ≤ 5 * Z.of_nat n)%Z ∧
      updates events = 0%nat ∧ removals events = 0%nat.
Proof.
  induction n as [|n IH]; intros output err w.
  - exists (output, err), []. rewrite after_nil. simpl. repeat split; done.
  - simpl. run.
    destruct (kubectl_Apply env (trace w) yaml kubeConfig) as [out [e|]].
    + destruct (IH out (Some e)
                  (record (EvSleep 5) (record (EvApply yaml kubeConfig) w)))
        as (r & events & Hrun & Hpush & Hsleep & Hupd & Hrem).
      exists r, (EvApply yaml kubeConfig :: EvSleep 5 :: events).
      rewrite !after_cons. split; [exact Hrun|].
      unfold pushes, updates, removals in *. simpl.
      repeat split; try lia; done.
    + exists (out, None), [EvApply yaml kubeConfig].
      unfold pushes, updates, removals. simpl. repeat split; try lia; done.
Qed.

Lemma count_app (f : Event → bool) (evs evs' : list Event) :
  length (List.filter f (evs ++ evs'))
  = (length (List.filter f evs) + length (List.filter f evs'))%nat.
Proof. by rewrite List.filter_app, length_app. Qed.

Lemma sleepSeconds_app (evs evs' : list Event) :
  sleepSeconds (evs ++ evs') = (sleepSeconds evs + sleepSeconds evs')%Z.
Proof.
  induction evs as [|e evs IH]; simpl; [done|].
  destruct e; rewrite ?IH; lia.
Qed.

(** What a removed cluster's pass does to the state. *)
Lemma sync_gone_state (env : Env) (key : string) (cluster : option Cluster)
    (w : World) :
  (cluster = None ∨ ∃ c, cluster = Some c ∧ DeletionTimestamp c ≠ None) →
  ∃ r, sync env key cluster w
       = Ret r (after [syncCalled key; EvRemoveSystemAccount key] w).
Proof.
  intros [->|(c & -> & Hdel)]; unfold sync; run.
  - eexists. unfold after, record. simpl. by rewrite <- app_assoc.
  - rewrite bool_decide_eq_true_2 by done. run.
    eexists. unfold after, record. simpl. by rewrite <- app_assoc.
Qed.

Lemma cluster_gone_or_live (cluster : option Cluster) :
  (cluster = None ∨ ∃ c, cluster = Some c ∧ DeletionTimestamp c ≠ None) ∨
  ∃ c, cluster = Some c ∧ DeletionTimestamp c = None.
Proof.
  destruct cluster as [c|]; [|by left; left].
  destruct (DeletionTimestamp c) eqn:Hdel.
  - left. right. exists c. split; [done|]. by rewrite Hdel.
  - right. by exists c.
Qed.

(** X16: a pass keeps the two image maps aligned: when they hold the same
    names before [sync], they hold the same names after it, whatever the
    collaborators answer and wherever the pass stops. *)
Theorem sync_keeps_images_aligned (env : Env) (key : string)
    (cluster : option Cluster) (w w' : World) (r : option error) :
  imagesAligned w →
  sync env key cluster w = Ret r w' →
  imagesAligned w'.
Proof.
  intros Haligned Hrun.
  destruct (cluster_gone_or_live cluster) as [Hgone|(c & -> & Hlive)].
  { destruct (sync_gone_state env key cluster w Hgone) as (r' & Hgone').
    rewrite Hgone' in Hrun. by injection Hrun as _ <-. }
  assert (triple imagesAligned (sync env key (Some c))
            (λ _ w', imagesAligned w' ∨
                     ∃ copy w'', imagesAligned w'' ∧ w' = record (EvUpdate copy) w''))
    as Hpass.
  { apply (sync_triple env (Name c) imagesAligned imagesAligned); try done.
    1, 2: (intros e w0 _ Hw0; exact Hw0).
    - intros na ca w0 Hw0. unfold setAgentImages. simpl. intros k. simpl.
      destruct (decide (Name c = k)) as [<-|Hne].
      + rewrite !lookup_insert_eq. split; by eexists.
      + rewrite !lookup_insert_ne by done. apply Hw0.
    - intros na ca w0 Hw0. unfold setAgentImages. simpl. intros k. simpl.
      destruct (decide (Name c = k)) as [<-|Hne].
      + rewrite !lookup_insert_eq. split; by eexists.
      + rewrite !lookup_insert_ne by done. apply Hw0.
    - intros taints w0 Hw0. exact Hw0.
    - intros w0 Hw0. unfold deleteAgentImages. simpl. intros k. simpl.
      destruct (decide (Name c = k)) as [<-|Hne].
      + rewrite !lookup_delete_eq. split; by intros [? ?].
      + rewrite !lookup_delete_ne by done. apply Hw0.
    - intros w0 Hw0. exact Hw0.
    - intros yaml kubeConfig w0 Hw0.
      destruct (applyLoop_events env yaml kubeConfig 5 EmptyString None w0)
        as (r0 & events & -> & _). exact Hw0. }
  specialize (Hpass w Haligned). rewrite Hrun in Hpass.
  destruct Hpass as [Hw'|(copy & w'' & Hw'' & ->)]; done.
Qed.

Lemma sync_keeps_images_aligned_witness :
  ∃ w',
    sync oneNodeEnv "c-1" (Some provisionedCluster) emptyWorld = Ret None w' ∧
    imagesAligned w'.
Proof.
  eexists. split; [vm_compute; reflexivity|].
  eapply (sync_keeps_images_aligned oneNodeEnv "c-1" (Some provisionedCluster)
            emptyWorld _ None).
  - intros k. simpl. rewrite !lookup_empty. split; by intros [? ?].
  - vm_compute. reflexivity.
Defined.

(** X17: a pass over a cluster touches the cache entries of that cluster
    only: under any other name all three maps hold after [sync] what they
    held before. *)
Theorem sync_leaves_other_clusters (env : Env) (key : string) (cluster : Cluster)
    (other : string) (w w' : World) (r : option error) :
  other ≠ Name cluster →
  sync env key (Some cluster) w = Ret r w' →
  sameEntries other w w'.
Proof.
  intros Hother Hrun.
  destruct (cluster_gone_or_live (Some cluster)) as [Hgone|(c & [= <-] & Hlive)].
  { destruct (sync_gone_state env key (Some cluster) w Hgone) as (r' & Hgone').
    rewrite Hgone' in Hrun. injection Hrun as _ <-. by repeat split. }
  assert (triple (sameEntries other w) (sync env key (Some cluster))
            (λ _ w', sameEntries other w w' ∨
                     ∃ copy w'', sameEntries other w w'' ∧
                                 w' = record (EvUpdate copy) w''))
    as Hpass.
  { apply (sync_triple env (Name cluster) (sameEntries other w) (sameEntries other w));
      try done.
    1, 2: (intros e w0 _ Hw0; exact Hw0).
    - intros na ca w0 (Hn & Hc & Ht). unfold setAgentImages, sameEntries. simpl.
      by rewrite !lookup_insert_ne.
    - intros na ca w0 (Hn & Hc & Ht). unfold setAgentImages, sameEntries. simpl.
      by rewrite !lookup_insert_ne.
    - intros taints w0 (Hn & Hc & Ht). unfold setControlPlaneTaints, sameEntries. simpl.
      by rewrite !lookup_insert_ne.
    - intros w0 (Hn & Hc & Ht).
      unfold deleteAgentImages, deleteControlPlaneTaints, sameEntries. simpl.
      by rewrite ?lookup_delete_ne.
    - intros w0 (Hn & Hc & Ht).
      unfold deleteAgentImages, deleteControlPlaneTaints, sameEntries. simpl.
      by rewrite ?lookup_delete_ne.
    - intros yaml kubeConfig w0 Hw0.
      destruct (applyLoop_events env yaml kubeConfig 5 EmptyString None w0)
        as (r0 & events & -> & _). exact Hw0. }
  assert (sameEntries other w w) as Hinit by (by repeat split).
  specialize (Hpass w Hinit). rewrite Hrun in Hpass.
  destruct Hpass as [Hw'|(copy & w'' & Hw'' & ->)]; done.
Qed.

(** The entries of another cluster outlast the first deploy of [c-1]. *)
Lemma sync_leaves_other_clusters_witness :
  match sync oneNodeEnv "c-1" (Some provisionedCluster) otherClusterWorld with
  | Ret _ w' =>
      agentImages_clusterImage w' !! "c-2" = Some agentV2 ∧
      controlPlaneTaints w' !! "c-2" = Some (Some [masterTaint]) ∧
      is_Some (agentImages_clusterImage w' !! "c-1")
  | Panic => False
  end.
Proof.
  assert ("c-2" ≠ Name provisionedCluster) as Hother
    by (intros Heq; discriminate Heq).
  destruct (sync oneNodeEnv "c-1" (Some provisionedCluster) otherClusterWorld)
    as [|r w'] eqn:Hrun; [vm_compute in Hrun; discriminate Hrun|].
  destruct (sync_leaves_other_clusters oneNodeEnv "c-1" provisionedCluster "c-2"
              otherClusterWorld w' r Hother Hrun) as (_ & Hc & Ht).
  split; [exact (eq_trans Hc eq_refl)|]. split; [exact (eq_trans Ht eq_refl)|].
  vm_compute in Hrun. injection Hrun as _ <-. by eexists.
Defined.

Lemma passEvent_counts (e : Event) :
  passEvent e = true →
  isApply e = false ∧ isUpdate e = false ∧ isRemoval e = false ∧
  sleepSeconds [e] = 0%Z.
Proof. by destruct e. Qed.

Lemma pushes_record (e : Event) (w : World) :
  pushes (trace (record e w)) = (pushes (trace w) + pushes [e])%nat.
Proof. unfold pushes. simpl. apply count_app. Qed.

(** X18: a pass is bounded: between its start and its end [sync] pushes
    the manifest at most five times and sleeps at most twenty-five seconds,
    whatever the collaborators answer. *)
Theorem sync_bounded_blocking (env : Env) (key : string) (cluster : option Cluster)
    (w w' : World) (r : option error) :
  sync env key cluster w = Ret r w' →
  (pushes (trace w') ≤ pushes (trace w) + 5)%nat ∧
  (sleepSeconds (trace w') ≤ sleepSeconds (trace w) + 25)%Z.
Proof.
  intros Hrun.
  destruct (cluster_gone_or_live cluster) as [Hgone|(c & -> & Hlive)].
  { destruct (sync_gone_state env key cluster w Hgone) as (r' & Hgone').
    rewrite Hgone' in Hrun. injection Hrun as _ <-. simpl.
    unfold pushes. rewrite count_app, sleepSeconds_app. simpl. lia. }
  set (P := λ w0 : World, pushes (trace w0) = pushes (trace w) ∧
                          sleepSeconds (trace w0) = sleepSeconds (trace w)).
  set (P' := λ w0 : World, (pushes (trace w0) ≤ pushes (trace w) + 5)%nat ∧
                           (sleepSeconds (trace w0) ≤ sleepSeconds (trace w) + 25)%Z).
  assert (triple P (sync env key (Some c))
            (λ _ w', P' w' ∨ ∃ copy w'', P' w'' ∧ w' = record (EvUpdate copy) w''))
    as Hpass.
  { apply (sync_triple env (Name c) P P');
      [| | |by intros na ca w0 H; exact H | by intros na ca w0 H; exact H
       | by intros taints w0 H; exact H | by intros w0 H; exact H
       | by intros w0 H; exact H | | reflexivity | exact Hlive].
    - intros e w0 He [Hp Hs]. destruct (passEvent_counts e He) as (Ha & _ & _ & Hz).
      unfold P, pushes in *. simpl. rewrite count_app, sleepSeconds_app, Hz. simpl.
      rewrite Ha. simpl. lia.
    - intros e w0 He [Hp Hs]. destruct (passEvent_counts e He) as (Ha & _ & _ & Hz).
      unfold P', pushes in *. simpl. rewrite count_app, sleepSeconds_app, Hz. simpl.
      rewrite Ha. simpl. lia.
    - intros w0 [Hp Hs]. unfold P'. lia.
    - intros yaml kubeConfig w0 [Hp Hs].
      destruct (applyLoop_events env yaml kubeConfig 5 EmptyString None w0)
        as (r0 & events & -> & Hpush & Hsleep & _).
      unfold P', pushes in *. simpl. rewrite count_app, sleepSeconds_app. lia. }
  assert (P w) as Hinit by done.
  specialize (Hpass w Hinit). rewrite Hrun in Hpass.
  destruct Hpass as [Hw'|(copy & w'' & [Hp Hs] & ->)]; [done|].
  unfold pushes in *. simpl. rewrite count_app, sleepSeconds_app. simpl. lia.
Qed.

(** A cluster that never accepts the manifest: five pushes, twenty-five
    seconds, and the pass gives up. *)
Lemma sync_bounded_blocking_witness :
  match sync stuckEnv "c-1" (Some provisionedCluster) emptyWorld with
  | Ret r w' =>
      is_Some r ∧ pushes (trace w') = 5%nat ∧ sleepSeconds (trace w') = 25%Z ∧
      (pushes (trace w') ≤ pushes (trace emptyWorld) + 5)%nat ∧
      (sleepSeconds (trace w') ≤ sleepSeconds (trace emptyWorld) + 25)%Z
  | Panic => False
  end.
Proof.
  destruct (sync stuckEnv "c-1" (Some provisionedCluster) emptyWorld)
    as [|r w'] eqn:Hrun; [vm_compute in Hrun; discriminate Hrun|].
  pose proof (sync_bounded_blocking stuckEnv "c-1" (Some provisionedCluster)
                emptyWorld w' r Hrun) as Hbound.
  vm_compute in Hrun. injection Hrun as <- <-.
  split; [by eexists|]. split; [reflexivity|]. split; [reflexivity|]. exact Hbound.
Defined.

(** X19: a pass over a live cluster removes no system account and writes
    the cluster back at most once, as its last step. *)
Theorem sync_writes_back_last (env : Env) (key : string) (cluster : Cluster)
    (w w' : World) (r : option error) :
  DeletionTimestamp cluster = None →
  sync env key (Some cluster) w = Ret r w' →
  removals (trace w') = removals (trace w) ∧
  (updates (trace w') = updates (trace w) ∨
   updates (trace w') = S (updates (trace w)) ∧
   ∃ copy, last (trace w') = Some (EvUpdate copy)).
Proof.
  intros Hlive Hrun.
  set (P := λ w0 : World, removals (trace w0) = removals (trace w) ∧
                          updates (trace w0) = updates (trace w)).
  assert (triple P (sync env key (Some cluster))
            (λ _ w', P w' ∨ ∃ copy w'', P w'' ∧ w' = record (EvUpdate copy) w''))
    as Hpass.
  { assert (stable P) as Hstable.
    { intros e w0 He [Hr Hu]. destruct (passEvent_counts e He) as (_ & Hup & Hrm & _).
      unfold P, removals, updates in *. simpl. rewrite !count_app. simpl.
      rewrite Hup, Hrm. simpl. lia. }
    apply (sync_triple env (Name cluster) P P);
      [exact Hstable | exact Hstable | done
      | by intros na ca w0 H; exact H | by intros na ca w0 H; exact H
      | by intros taints w0 H; exact H | by intros w0 H; exact H
      | by intros w0 H; exact H | | reflexivity | exact Hlive].
    intros yaml kubeConfig w0 [Hr Hu].
    destruct (applyLoop_events env yaml kubeConfig 5 EmptyString None w0)
      as (r0 & events & -> & _ & _ & Hupd & Hrem).
    unfold P, removals, updates in *. simpl. rewrite !count_app. lia. }
  assert (P w) as Hinit by done.
  specialize (Hpass w Hinit). rewrite Hrun in Hpass.
  destruct Hpass as [[Hr Hu]|(copy & w'' & [Hr Hu] & ->)].
  - split; [done | by left].
  - unfold removals, updates in *. simpl. rewrite !count_app. simpl.
    split; [lia|]. right. split; [lia|].
    exists copy. by rewrite last_snoc.
Qed.

Lemma sync_writes_back_last_witness :
  match sync oneNodeEnv "c-1" (Some provisionedCluster) emptyWorld with
  | Ret r w' =>
      removals (trace w') = 0%nat ∧ updates (trace w') = 1%nat ∧
      ∃ copy, last (trace w') = Some (EvUpdate copy)
  | Panic => False
  end.
Proof.
  destruct (sync oneNodeEnv "c-1" (Some provisionedCluster) emptyWorld)
    as [|r w'] eqn:Hrun; [vm_compute in Hrun; discriminate Hrun|].
  destruct (sync_writes_back_last oneNodeEnv "c-1" provisionedCluster
              emptyWorld w' r eq_refl Hrun) as (Hrem & Hupd).
  split; [exact Hrem|].
  destruct Hupd as [Hsame|[Hone Hlast]].
  - exfalso. vm_compute in Hrun. injection Hrun as _ <-. discriminate Hsame.
  - split; [exact Hone | exact Hlast].
Defined.

(** X20: whatever [doSync] does, its cluster keeps its name; and when it
    returns an error, the cluster it hands back is the one it was given but
    for the conditions: no image, feature, environment variable, spec field
    or annotation has been written. *)
Theorem doSync_error_keeps_record (env : Env) (cluster cluster' : Cluster)
    (err : option error) (w w' : World) :
  doSync env cluster w = Ret (cluster', err) w' →
  Name cluster' = Name cluster ∧
  (is_Some err → sameButConditions cluster cluster').
Proof.
  intros Hrun.
  assert (triple (λ _, True) (doSync env cluster)
            (λ r w', True ∧ Name r.1 = Name cluster ∧
                     (is_Some r.2 → sameButConditions cluster r.1))) as Hpass.
  { apply (doSync_triple env (Name cluster) (λ _, True) (λ _, True)); try done.
    intros yaml kubeConfig w0 _.
    by destruct (applyLoop env 5 yaml kubeConfig EmptyString None w0). }
  specialize (Hpass w I). rewrite Hrun in Hpass. apply Hpass.
Qed.

Lemma doSync_error_keeps_record_witness :
  match doSync stuckEnv provisionedCluster emptyWorld with
  | Ret (cluster', err) w' =>
      is_Some err ∧ Name cluster' = "c-1" ∧
      sameButConditions provisionedCluster cluster' ∧
      cond_GetStatus ClusterConditionAgentDeployed cluster' = "False"
  | Panic => False
  end.
Proof.
  destruct (doSync stuckEnv provisionedCluster emptyWorld)
    as [|[cluster' err] w'] eqn:Hrun; [vm_compute in Hrun; discriminate Hrun|].
  destruct (doSync_error_keeps_record stuckEnv provisionedCluster cluster' err
              emptyWorld w' Hrun) as (Hname & Hsame).
  vm_compute in Hrun. injection Hrun as <- <- <-.
  split; [by eexists|]. split; [exact Hname|].
  split; [apply Hsame; by eexists | reflexivity].
Defined.

(** ** The catalog operation handler *)

(** A request without a user is answered with the unauthorized error and
    nothing else happens: no Helm operation is invoked and no log is read,
    whatever the action and the link are. *)
Lemma ServeHTTP_unauthorized (ops : Catalog.Operations) (imageOverride : string)
    (req : Catalog.Request) :
  Catalog.User req = None →
  Catalog.ServeHTTP ops imageOverride req
  = [Catalog.WriteError Catalog.Unauthorized].
Proof. intros Huser. unfold Catalog.ServeHTTP. by rewrite Huser. Qed.

Lemma ServeHTTP_unauthorized_witness :
  Catalog.ServeHTTP Catalog.failingOps "registry.example/rancher/shell:v1"
                    (Catalog.installRequest None "logs")
  = [Catalog.WriteError Catalog.Unauthorized].
Proof. apply ServeHTTP_unauthorized. reflexivity. Defined.

Lemma ServeHTTP_authorized (ops : Catalog.Operations) (imageOverride : string)
    (req : Catalog.Request) (user : string) :
  Catalog.User req = Some user →
  Catalog.ServeHTTP ops imageOverride req
  = ((if Catalog.knownAction req
      then [Catalog.Called (Catalog.Action req) user (Catalog.Namespace req)
              (Catalog.RequestName req) (Catalog.Body req) imageOverride]
      else []) ++
     (if bool_decide (Catalog.Link req = "logs")
      then [Catalog.CalledLog (Catalog.Namespace req) (Catalog.RequestName req)]
      else []) ++
     Catalog.answer (Catalog.actionResult ops imageOverride req user).1
       (if bool_decide (Catalog.Link req = "logs")
        then Catalog.Log ops (Catalog.Namespace req) (Catalog.RequestName req)
        else (Catalog.actionResult ops imageOverride req user).2))%list.
Proof.
  intros Huser.
  unfold Catalog.ServeHTTP, Catalog.knownAction, Catalog.actionResult, Catalog.answer.
  rewrite Huser.
  destruct (decide (Catalog.Action req = "install")) as [Hi|Hi].
  { rewrite (bool_decide_eq_true_2 _ Hi), Hi. simpl.
    destruct (Catalog.Install ops _ _ _ _ _) as [op err].
    by destruct (bool_decide (Catalog.Link req = "logs")). }
  rewrite (bool_decide_eq_false_2 _ Hi).
  destruct (decide (Catalog.Action req = "upgrade")) as [Hu|Hu].
  { rewrite (bool_decide_eq_true_2 _ Hu), Hu. simpl.
    destruct (Catalog.Upgrade ops _ _ _ _ _) as [op err].
    by destruct (bool_decide (Catalog.Link req = "logs")). }
  rewrite (bool_decide_eq_false_2 _ Hu).
  destruct (decide (Catalog.Action req = "uninstall")) as [Hn|Hn].
  { rewrite (bool_decide_eq_true_2 _ Hn), Hn. simpl.
    destruct (Catalog.Uninstall ops _ _ _ _ _) as [op err].
    by destruct (bool_decide (Catalog.Link req = "logs")). }
  rewrite (bool_decide_eq_false_2 _ Hn). simpl.
  by destruct (bool_decide (Catalog.Link req = "logs")).
Qed.

Lemma answer_at_most_one (op : option Catalog.Operation) (err : option error) :
  (length (Catalog.answer op err) ≤ 1)%nat.
Proof. destruct op, err; simpl; lia. Qed.

(** Calls, then at most one write. *)
Lemma calls_then_answer (calls final : list Catalog.Effect) :
  Forall (λ e', Catalog.isWrite e' = false) calls →
  (length final ≤ 1)%nat →
  (length (List.filter Catalog.isWrite (calls ++ final)) ≤ 1)%nat ∧
  (∀ effects e, (calls ++ final)%list = (effects ++ [e])%list →
                Forall (λ e', Catalog.isWrite e' = false) effects).
Proof.
  intros Hcalls Hfinal. split.
  - rewrite List.filter_app, length_app.
    assert (List.filter Catalog.isWrite calls = []) as ->.
    { induction Hcalls as [|e0 l He0 _ IH]; simpl; [done|]. by rewrite He0. }
    simpl. etrans; [|exact Hfinal].
    clear. induction final as [|e0 l IH]; simpl; [done|].
    destruct (Catalog.isWrite e0); simpl; lia.
  - intros effects e Heq.
    destruct final as [|f [|f' final]]; [| |simpl in Hfinal; lia].
    + rewrite app_nil_r in Heq. rewrite Heq in Hcalls.
      by apply Forall_app in Hcalls as [? _].
    + by apply app_inj_tail in Heq as [<- _].
Qed.

(** X21: the handler writes at most one answer, and it is the last thing it
    does.  With the logs link the result of reading the log replaces the
    error of the action: when the log can be read, a failed action is not
    reported. *)
Theorem ServeHTTP_logs_replace_error (ops : Catalog.Operations)
    (imageOverride : string) (req : Catalog.Request) :
  (length (List.filter Catalog.isWrite (Catalog.ServeHTTP ops imageOverride req))
   ≤ 1)%nat ∧
  (∀ effects e, Catalog.ServeHTTP ops imageOverride req = (effects ++ [e])%list →
                Forall (λ e', Catalog.isWrite e' = false) effects) ∧
  (∀ user, Catalog.User req = Some user →
           Catalog.Link req = "logs" →
           Catalog.Log ops (Catalog.Namespace req) (Catalog.RequestName req) = None →
           ∀ e, Catalog.WriteError e ∉ Catalog.ServeHTTP ops imageOverride req).
Proof.
  destruct (Catalog.User req) as [user|] eqn:Huser.
  - rewrite (ServeHTTP_authorized ops imageOverride req user Huser).
    rewrite app_assoc.
    assert (Forall (λ e', Catalog.isWrite e' = false)
              ((if Catalog.knownAction req
                then [Catalog.Called (Catalog.Action req) user (Catalog.Namespace req)
                        (Catalog.RequestName req) (Catalog.Body req) imageOverride]
                else []) ++
               (if bool_decide (Catalog.Link req = "logs")
                then [Catalog.CalledLog (Catalog.Namespace req)
                        (Catalog.RequestName req)]
                else []))%list) as Hcalls.
    { apply Forall_app. split.
      - destruct (Catalog.knownAction req); by repeat constructor.
      - destruct (bool_decide (Catalog.Link req = "logs")); by repeat constructor. }
    destruct (calls_then_answer _ _ Hcalls (answer_at_most_one
                (Catalog.actionResult ops imageOverride req user).1
                (if bool_decide (Catalog.Link req = "logs")
                 then Catalog.Log ops (Catalog.Namespace req) (Catalog.RequestName req)
                 else (Catalog.actionResult ops imageOverride req user).2)))
      as [Hone Hlast].
    split; [exact Hone|]. split; [exact Hlast|].
    intros user' _ Hlink Hlog e Hin.
    apply elem_of_app in Hin as [Hin|Hin].
    + rewrite Forall_forall in Hcalls. by pose proof (Hcalls _ Hin).
    + rewrite (bool_decide_eq_true_2 _ Hlink), Hlog in Hin.
      unfold Catalog.answer in Hin.
      destruct (Catalog.actionResult ops imageOverride req user).1; simpl in Hin.
      * apply list_elem_of_singleton in Hin. discriminate Hin.
      * inversion Hin.
  - unfold Catalog.ServeHTTP. rewrite Huser.
    split; [simpl; lia|]. split; [|by intros user [=]].
    intros effects e Heq. by destruct effects as [|e0 [|e1 effects]].
Qed.

(** A failed install whose log can be read: the handler reads the log and
    writes nothing, error included. *)
Lemma ServeHTTP_logs_replace_error_witness :
  Catalog.ServeHTTP Catalog.failingOps EmptyString
                    (Catalog.installRequest (Some "admin") "logs")
  = [Catalog.Called "install" "admin" "cattle-system" "rancher-charts" "{}" EmptyString;
     Catalog.CalledLog "cattle-system" "rancher-charts"] ∧
  ∀ e, Catalog.WriteError e ∉
       Catalog.ServeHTTP Catalog.failingOps EmptyString
                         (Catalog.installRequest (Some "admin") "logs").
Proof.
  split; [reflexivity|].
  apply (proj2 (proj2 (ServeHTTP_logs_replace_error Catalog.failingOps EmptyString
                         (Catalog.installRequest (Some "admin") "logs")))
               "admin"); reflexivity.
Defined.

(** X22: every Helm operation the handler invokes is the action of the
    request, one of install, upgrade and uninstall, for the user of the
    request, and is handed the image override of [newOperation]: the shell
    image under the cluster registry, or none when there is no registry. *)
Theorem ServeHTTP_calls_requested_action (ops : Catalog.Operations)
    (shellImage clusterRegistry : string) (req : Catalog.Request)
    (action user ns name body imageOverride : string) :
  Catalog.Called action user ns name body imageOverride
    ∈ Catalog.ServeHTTP ops (Catalog.newOperation shellImage clusterRegistry) req →
  action = Catalog.Action req ∧
  (action = "install" ∨ action = "upgrade" ∨ action = "uninstall") ∧
  Catalog.User req = Some user ∧
  imageOverride = (if bool_decide (clusterRegistry = EmptyString) then EmptyString
                   else clusterRegistry ++ "/" ++ shellImage).
Proof.
  intros Hin.
  destruct (Catalog.User req) as [user'|] eqn:Huser.
  2: { unfold Catalog.ServeHTTP in Hin. rewrite Huser in Hin.
       apply list_elem_of_singleton in Hin. discriminate Hin. }
  rewrite (ServeHTTP_authorized _ _ _ user' Huser) in Hin.
  apply elem_of_app in Hin as [Hin|Hin].
  - destruct (Catalog.knownAction req) eqn:Hknown; [|inversion Hin].
    apply list_elem_of_singleton in Hin. injection Hin as -> -> -> -> -> ->.
    split; [done|]. split.
    { unfold Catalog.knownAction in Hknown.
      rewrite !orb_true_iff, !bool_decide_eq_true in Hknown. tauto. }
    split; [done|]. unfold Catalog.newOperation.
    by destruct (bool_decide (clusterRegistry = EmptyString)).
  - apply elem_of_app in Hin as [Hin|Hin].
    + destruct (bool_decide (Catalog.Link req = "logs")); [|inversion Hin].
      apply list_elem_of_singleton in Hin. discriminate Hin.
    + unfold Catalog.answer in Hin.
      destruct (if bool_decide (Catalog.Link req = "logs") then _ else _);
        [apply list_elem_of_singleton in Hin; discriminate Hin|].
      destruct (Catalog.actionResult _ _ _ _).1;
        [apply list_elem_of_singleton in Hin; discriminate Hin | inversion Hin].
Qed.

Lemma ServeHTTP_calls_requested_action_witness :
  Catalog.Called "install" "admin" "cattle-system" "rancher-charts" "{}"
                 "registry.example/rancher/shell:v1"
    ∈ Catalog.ServeHTTP Catalog.failingOps
        (Catalog.newOperation "rancher/shell:v1" "registry.example")
        (Catalog.installRequest (Some "admin") EmptyString) ∧
  "registry.example/rancher/shell:v1"
  = (if bool_decide ("registry.example" = EmptyString) then EmptyString
     else "registry.example" ++ "/" ++ "rancher/shell:v1").
Proof.
  assert (Catalog.Called "install" "admin" "cattle-system" "rancher-charts" "{}"
                         "registry.example/rancher/shell:v1"
            ∈ Catalog.ServeHTTP Catalog.failingOps
                (Catalog.newOperation "rancher/shell:v1" "registry.example")
                (Catalog.installRequest (Some "admin") EmptyString)) as Hin
    by (apply list_elem_of_In; vm_compute; tauto).
  split; [exact Hin|].
  apply (ServeHTTP_calls_requested_action _ _ _ _ _ _ _ _ _ _ Hin).
Defined.

(** ** The desired images *)

(** X23: the image [deployAgent] asks for is never a placeholder when the
    resolved setting is none: an override that is neither empty nor [fixed]
    wins, then the desired image of the spec on the same terms (the override
    being empty), then the setting.  No auth image is asked for while the
    auth endpoint is off. *)
Theorem desiredAgentImage_precedence (env : Env) (cluster : Cluster) :
  ResolveAgentImage env cluster ≠ EmptyString →
  ResolveAgentImage env cluster ≠ "fixed" →
  desiredAgentImage env cluster ≠ EmptyString ∧
  desiredAgentImage env cluster ≠ "fixed" ∧
  (AgentImageOverride (Spec cluster) ≠ EmptyString →
   AgentImageOverride (Spec cluster) ≠ "fixed" →
   desiredAgentImage env cluster = AgentImageOverride (Spec cluster)) ∧
  (AgentImageOverride (Spec cluster) = "fixed" →
   desiredAgentImage env cluster = ResolveAgentImage env cluster) ∧
  (AgentImageOverride (Spec cluster) = EmptyString →
   DesiredAgentImage (Spec cluster) ≠ EmptyString →
   DesiredAgentImage (Spec cluster) ≠ "fixed" →
   desiredAgentImage env cluster = DesiredAgentImage (Spec cluster)) ∧
  (LocalClusterAuthEndpoint_Enabled (Spec cluster) = false →
   desiredAuthImage env cluster = EmptyString).
Proof.
  intros Hempty Hfixed.
  unfold desiredAgentImage, desiredAuthImage, getDesiredImage.
  repeat split.
  - repeat (case_bool_decide; simpl in *); congruence.
  - repeat (case_bool_decide; simpl in *); congruence.
  - intros H1 H2. repeat (case_bool_decide; simpl in *); congruence.
  - intros H1. rewrite H1. simpl. done.
  - intros H1 H2 H3. rewrite H1. simpl.
    repeat (case_bool_decide; simpl in *); congruence.
  - by intros ->.
Qed.

Lemma desiredAgentImage_precedence_witness :
  desiredAgentImage quietEnv
    (sampleCluster overrideSpec "imported" EmptyString EmptyString emptySpec [])
  = "mirror.example/rancher-agent:v2" ∧
  desiredAuthImage quietEnv
    (sampleCluster overrideSpec "imported" EmptyString EmptyString emptySpec [])
  = EmptyString.
Proof.
  destruct (desiredAgentImage_precedence quietEnv
              (sampleCluster overrideSpec "imported" EmptyString EmptyString
                             emptySpec []))
    as (_ & _ & Hoverride & _ & _ & Hauth);
    [intros Heq; discriminate Heq | intros Heq; discriminate Heq|].
  split; [apply Hoverride; intros Heq; discriminate Heq | by apply Hauth].
Defined.

(** ** The control-plane taints, continued *)

(** X24: taints are collected in the order of the nodes: collecting over a
    list of nodes is collecting over its first part and going on from there
    over the rest, and what was collected so far stays in front. *)
Theorem collectTaints_in_node_order (env : Env) (nodes nodes' : list Node)
    (allTaints : slice Taint) :
  collectTaints env (nodes ++ nodes') allTaints
  = collectTaints env nodes' (collectTaints env nodes allTaints) ∧
  ∃ more, elems (collectTaints env nodes allTaints) = (elems allTaints ++ more)%list.
Proof.
  split.
  - revert allTaints. induction nodes as [|node rest IH]; intros allTaints; simpl;
      [done|].
    destruct (controlPlaneLabelFound node); [|apply IH].
    destruct (GetToDiffTaints env allTaints (NodeTaints node)) as [toAdd toDelete].
    apply IH.
  - revert allTaints. induction nodes as [|node rest IH]; intros allTaints; simpl.
    + exists []. by rewrite app_nil_r.
    + destruct (controlPlaneLabelFound node); [|apply IH].
      destruct (GetToDiffTaints env allTaints (NodeTaints node)) as [toAdd toDelete].
      destruct (IH (appendTaints toAdd allTaints)) as [more Hmore].
      rewrite Hmore, appendTaints_elems, <- app_assoc. by eexists.
Qed.

(** ** The steady state *)

Lemma redeployAgent_after (env : Env) (cluster : Cluster)
    (desiredAgent desiredAuth : string) (desiredFeatures : gomap bool)
    (desiredTaints : slice Taint) (evs : list Event) (w : World) :
  returned (redeployAgent env cluster desiredAgent desiredAuth desiredFeatures
                          desiredTaints w) = Some false →
  redeployAgent env cluster desiredAgent desiredAuth desiredFeatures desiredTaints
                (after evs w)
  = Ret false (after (evs ++ [redeployCalled cluster]) w).
Proof.
  rewrite !redeployAgent_steps.
  change (imageMismatch cluster (after evs w)) with (imageMismatch cluster w).
  change (taintMismatch env cluster desiredTaints (after evs w))
    with (taintMismatch env cluster desiredTaints w).
  rewrite after_after.
  destruct (negb (cond_IsTrue _ _)); [done|].
  destruct (statusFacetsChanged _ _ _ _ _); [done|].
  destruct (imageMismatch cluster w); [done|].
  destruct (taintMismatch env cluster desiredTaints w); [done|].
  simpl. by intros [= ->].
Qed.

(** X25: when the decision, on the taints of the listed nodes, is not to
    redeploy, [deployAgent] lists the nodes, decides, and is done: the
    cluster and both caches are as they were, no credentials are asked for
    and nothing is rendered, pushed or deleted. *)
Theorem deployAgent_steady (env : Env) (cluster : Cluster) (w : World)
    (nodes : list Node) :
  Internal (Spec cluster) = false →
  nodeLister_List env (trace w ++ [deployCalled cluster]) (Name cluster)
  = (nodes, None) →
  returned (redeployAgent env cluster (desiredAgentImage env cluster)
              (desiredAuthImage env cluster) (Some ∅)
              (collectTaints env nodes None) w) = Some false →
  deployAgent env cluster w
  = Ret (cluster, None)
        (after [deployCalled cluster; EvListNodes (Name cluster);
                redeployCalled cluster] w).
Proof.
  intros Hinternal Hlist Hdecision. unfold deployAgent. rewrite Hinternal.
  unfold getControlPlaneTaints. run.
  unfold deployCalled in Hlist. rewrite Hlist. run.
  pose proof (redeployAgent_after env cluster (desiredAgentImage env cluster)
                (desiredAuthImage env cluster) (Some ∅)
                (collectTaints env nodes None)
                [deployCalled cluster; EvListNodes (Name cluster)] w Hdecision)
    as Hrun.
  rewrite after_cons, after_cons, after_nil in Hrun.
  unfold deployCalled in Hrun. simpl in Hrun. rewrite Hrun. done.
Qed.

(** The pass after a deploy, on caches that agree with the cluster. *)
Lemma deployAgent_steady_witness :
  deployAgent oneNodeEnv (deployedCluster emptySpec emptySpec)
              (cachedWorld EmptyString agentV2 (Some [masterTaint]))
  = Ret (deployedCluster emptySpec emptySpec, None)
        (after [deployCalled (deployedCluster emptySpec emptySpec);
                EvListNodes "c-1";
                redeployCalled (deployedCluster emptySpec emptySpec)]
               (cachedWorld EmptyString agentV2 (Some [masterTaint]))).
Proof.
  apply (deployAgent_steady oneNodeEnv (deployedCluster emptySpec emptySpec)
           (cachedWorld EmptyString agentV2 (Some [masterTaint])) [masterNode]);
    [reflexivity | reflexivity | vm_compute; reflexivity].
Defined.
